(* ===== verification/_CoqProject ===== *)
-Q . S2P
Prelude.v
JsNumber.v
React.v
Timers.v
TimerTable.v
Debounce.v
Debouncer.v
Refinement.v
OpenPage.v
Phases.v
Liveness.v
Hosts.v
StrictMode.v
Interference.v
Isolation.v
Instances.v
JsString.v
DeviceDetect.v
DeviceHook.v
StrictDevice.v
ClientPage.v
Toggle.v
DebouncedToggle.v
