(* ===== verification/Prelude.v ===== *)
(** * react-tiny-hooks: a verification library

    The repository holds three React hooks, each in a file of its own under
    src/src/, with no code shared between them:

    - [useDebounce(effect, delay, deps)] (useDebounce.ts) calls [effect]
      once [delay] milliseconds have passed without a new registration.  It
      memoises [effect] under [deps] with [useCallback] and registers one
      effect, keyed on the memoised callback and the delay, that schedules a
      timer with [setTimeout] and returns a cleanup that cancels it with
      [clearTimeout].
    - [getDevice(userAgent)] and [useDeviceDetect()] (useDeviceDetect.ts):
      the first classifies a user-agent string with five case-insensitive
      regular expressions; the second keeps the classification in a state
      slot that starts as [{}] and stores [getDevice] of
      [navigator.userAgent], or of the literal ['SSR'], from an effect keyed
      on the answer of [useIsClient()].
    - [useToggle(initialState)] (useToggle.ts) keeps a boolean in a state
      slot and returns it with a memoised function that dispatches the
      updater [oldState => !oldState].

    The hooks are a few lines each; what they do is decided by the runtime
    they are written against: the hook slots React keeps between renders,
    the comparison of dependency arrays, the commit that runs cleanups and
    effects, the update queue of a state slot, the host's timer table, and
    [String.prototype.match].  The development models that runtime as far as
    the three hooks use it, the hooks on top of it, and the component that
    calls each hook as a system driven by the events the host sends it.

    ** The files

    - [Prelude] (this file): the scope [hooks_scope], a state monad with the
      notation [let* x := m in k] for code that threads the host through
      effect bodies, the tactic [st_unfold], the hint databases [hooks]
      (invariant lemmas) and [hooks_rw] (monad laws, counting), and the
      lemmas the components share: what a run keeps when every step keeps
      it ([foldl_invariant], [foldl_simulation]), counting and filtering
      lists ([countb]).
    - [JsNumber]: numbers as the hooks and the host see them ([number]:
      integers, [-0], numbers with a fraction, [NaN], the infinities), with
      their identity ([sameValue]) and their integer part ([integerPart]).
    - [React]: values and [Object.is] ([val], [objectIs]), dependency arrays
      ([areHookInputsEqual]), the slots and render-time behaviour of
      [useState], [useCallback], [useEffect], the state setter
      ([dispatchSetState]) with its update queue ([updateState]), the
      commit of one effect ([commitEffect], [unmountEffect], and
      [remountEffect] for StrictMode) as a computation of the state monad
      over whatever the effect acts on, and the loop that renders while an
      update is queued ([rerender]).
    - [Timers]: the timer facility.  [TimerHost] is the interface (a class):
      the pending timers seen as a finite map from handles to due time and
      callback, with the laws of [setTimeout], [clearTimeout] and the
      passing of time ([advance]).  [TimerQueue] is an implementation, a
      clock, a handle counter and a queue kept in firing order; the instance
      [queue_host] proves it satisfies every law.  [timerDelay] is the
      browser's reading of the delay argument: the integer part of the
      number, as a signed 32-bit integer ([toInt32]), negative values
      counting as zero.
    - [TimerTable]: a second implementation of [TimerHost], kept as the
      reference: the pending timers are a finite map, setting and clearing
      an insert and a delete ([schedule], [cancel]), and the timers that
      are due are sorted into firing order when time passes ([elapse],
      [due_by], with stdpp's [merge_sort]); the instance [table_host].
    - [Debounce]: [useDebounce] (lines 3-19).  [useDebounce] is the render
      over the two slots [DebounceFiber]; the closures of lines 10-17 are
      the records [Create], [TimerCallback] and [Cleanup] of what they
      capture, run by [runCreate], [invoke] and [runCleanup].  The component
      is [System] (host, slots, calls made), stepped by [Render], [Unmount]
      and [Advance] events ([render], [unmount], [tick]).  Everything in the
      file is proved for an arbitrary [TimerHost].
    - [Debouncer]: the contract of a debouncer as an abstract machine with a
      clock, at most one armed action and the record of calls, operated by
      [Rearm], [Dispose] and [Tick].
    - [Refinement]: the abstraction from [Debounce.System] to [Debouncer]
      and the proof that every event of the component is the operations
      [ops_of] gives for it; the machine's theorems carried over.
    - [OpenPage]: the component on a page whose other code shares the
      timer table: [Shared] adds to the component the set of handles issued
      to the hook, and [page_step] the events [OtherSet] and [OtherClear] of
      the rest of the page.
    - [Phases]: the component with deferred effects: a render
      ([prender]) computes the slots and leaves a task, [pflush] runs it
      (the commit of the effect, or the cleanup of an unmounted
      component), time may pass in between.
    - [Liveness]: time passing in any number of steps after a
      registration ([quiet], [passed]), with the time left until the timer
      is due ([time_left]) as the measure.
    - [Hosts]: two hosts side by side.  [alike] relates hosts that agree
      on the pending timers, the clock and the next handle, [host_trace]
      is what a host answers to a sequence of operations; [twin] relates
      two components, on two hosts, that agree on everything but the
      handles they were issued ([same_slots], [pending_timers]).
    - [StrictMode]: the component under React's StrictMode, whose mount
      runs the effect, its cleanup and the effect again ([remountEffect],
      [strictMount], [strictRun]), related by [twin] to the component
      mounted once.
    - [Interference]: liveness on the shared page: runs of [background]
      events (time passing, other code scheduling and cancelling), followed
      through the hook's part of the table ([own_view]).
    - [Isolation]: the component on the shared page against the component
      alone: [hook_events] are the component's events among the page's,
      [isolated] relates the two up to handles.
    - [Instances]: any number of components that call the hook on one
      page ([Components]: one timer table and a [Slot] for each component,
      in a finite map; [instance_step]: a render or an unmount of one of
      them, or time passing for all), each of which sees the others as
      the rest of the page ([page_of]).
    - [JsString]: the fragment of regular expressions [getDevice] uses
      (alternations of literals, the [i] flag), [match] as a leftmost search
      ([stringMatch]), [Boolean], and the declarative reading [contains].
    - [DeviceDetect]: [getDevice] (lines 12-28) with the five patterns of
      lines 13-17 and the record [IGetDevice] (lines 4-10).
    - [DeviceHook]: [useDeviceDetect] (lines 30-45).  [useDeviceDetect] is
      the render over the slots [DeviceFiber]; the effect function of lines
      38-42 is [Detect], run by [runDetect] ([readUserAgent] is line 39,
      [setDevice] line 41).  The page is [Page], stepped by renders that
      carry the answer of [useIsClient]; [ClientProbe] is the interface of
      that probe, with the two probes the specification names.
    - [StrictDevice]: [useDeviceDetect] under StrictMode
      ([strictMountPage]: the detection runs twice), and the relation
      [same_page] between pages that differ in the updates queued.
    - [ClientPage]: [useIsClient] taken to be a mount flag (a state slot
      that starts as [false] and an effect that sets it, [runMounted]), the
      implementation such a hook usually has, since its file is not part of
      the sources, and the component that calls [useDeviceDetect] with it:
      [ClientPage] holds the slots of both hooks, [renderClient] renders
      and commits the two effects in call order, [settleClient] renders
      while an update is queued.
    - [Toggle]: [useToggle] (lines 3-9): the render [useToggle] over the
      slots [ToggleFiber], the returned function [toggle] with its updater
      [toggleUpdater], the component stepped by [Render], [Toggle] and
      [Unmount] events, and the flag of the specification ([Flag],
      [flag_apply]) as the contract the component implements.
    - [DebouncedToggle]: a component written with two of the hooks,
      [useToggle()] and [useDebounce(toggle, delay, deps)]: [App] holds
      the state of both, [draw] renders them in call order, [wait] lets
      time pass, runs the callbacks of the timers that fire ([call]: a
      flip) and renders again while an update is queued.

    ** What the theorems show

    - Debounce, safety: [single_timer] (never two timers outstanding),
      [rearm_cancels_previous] (cancel, then schedule),
      [no_call_after_unmount], [pending_is_current].  All follow from the
      invariant [Inv], which holds initially and is preserved by every
      event.
    - Debounce, behaviour: [debounce_burst] (a burst of registrations
      makes one call, the last one's); when a render re-registers, stated
      on what the render is passed: [render_keep] (equal keys and the same
      delay: not, whatever function is passed, and the function memoised
      earlier stays), [stable_effect_ignores_keys] (the same function and
      the same delay: not, whatever the keys), [keys_change_rearms] (other
      keys and another function: yes, with the new function) and
      [delay_change_rearms] (another delay: yes; the delay is compared as
      a number, not as the host reads it); [debounce_fires] and
      [debounce_waits] for one passage of time.
    - Debounce, delays a browser does not keep: [debounce_nonpositive_delay]
      (integer part from [-2^31] to [0], fractions of a millisecond,
      [NaN], the infinities: the call is made at the next opportunity),
      [debounce_delay_wraps] (from [2^31] to [2^32 - 1]: likewise) and
      [debounce_negative_delay_wraps] (from [-2^32 + 1] to [-2^31 - 1]:
      the delay wraps to a positive one and the call is made weeks
      later).
    - Debounce, liveness: [registration_eventually_fires] (a registration
      left alone makes its call once the time passed reaches the delay,
      however the time is cut into steps) and [registration_not_before];
      [shared_registration_fires] and [shared_registration_waits] (the
      same on the shared page: other code can neither stop nor delay the
      call).
    - Debounce, StrictMode: [strict_mode_unobservable] (the component
      whose mounts are doubled makes the calls of the component whose
      mounts are not, and has the same timers pending), by the simulation
      [twin_run]; [strict_mount_cancels_first]; [handles_do_not_matter]
      (the events of the component respect [twin], a partial equivalence:
      [step_twin], [run_twin]).
    - Hosts: [host_independence] (on two hosts that satisfy
      [TimerHost], convert delays alike and start at the same time, the
      component makes the same calls at the same times), by the
      simulation [twin_run_hosts]; its witness runs the component on the
      queue and on the table.  This is a fact about the laws of the
      interface, which every client that does not look into its handles
      enjoys: it says that what is proved of the component on one host
      holds on every other, not that the hook is right.  For the hosts
      themselves
      [interface_determines_host] (hosts that are [alike] answer every
      sequence of operations alike: the laws fix the handles and the
      firing order, [fired_unique]) and [queue_implements_table].
    - Debounce, composition: [page_isolation] (the component on a shared
      page makes the calls of the component alone, whatever the rest of
      the page schedules and cancels), by the simulation [isolated_run];
      [instances_independent] (the components that use the hook on one
      page, however many, each make the calls they make alone, and each
      has at most one timer pending), from the invariant [InstancesInv]:
      to each component the others are the rest of the page
      ([isolated_beside], over the frame [hook_frame] and
      [isolated_host]), and no handle is issued to two of them.
    - Refinement: [debouncer_simulation], and through it
      [one_call_per_registration] and [calls_chronological].
    - Shared page: [shared_single_timer], [shared_no_call_after_unmount]
      and [hook_leaves_other_timers] (the safety theorems do not need the
      table to be the component's alone, and the hook touches no timer but
      its own), from the invariant [OpenInv]; [alone_is_closed] (the closed
      system is the page without other events, the case of
      [page_isolation] in which the states are equal);
      [mount_unmount_roundtrip] (a mount followed at once by an unmount
      gives the table, the clock and the calls back as they were).
    - Deferred effects: [deferred_single_timer] and
      [no_call_after_cleanup], the invariant and the safety theorem of
      [Debounce] once more, carried over by the simulation
      [deferred_is_late] (an execution with deferred effects is the
      execution of [Debounce] in which every render and unmount takes
      place when its task is flushed; a fact about the two step
      functions, not about the hook);
      [unflushed_render_cancels_nothing] and the example
      [late_flush_fires_previous] (the quiet period counts from the flush,
      not from the render).
    - Classifier: [getDevice_ssr], [getDevice_android],
      [getDevice_unrecognised] (the three cases of the specification),
      [getDevice_wellFormed], [getDevice_case_insensitive] (user agents
      that differ only in the case of the letters [a]-[z] are classified
      alike) with its corollary [getDevice_folded], [getDevice_embed], and
      the instance [ssr_sentinel_collision] of [getDevice_ssr] (a browser
      whose user agent contains the letters of the sentinel is taken for
      a server).
    - Device hook: [device_lags_one_render] (the values the renders return),
      [device_settles], [android_browser_reports_mobile] (the hook and the
      classifier together), [settle_terminates], [missing_navigator_crashes],
      [declared_type_after_first_render] (the first value returned is the
      empty object, every later one an [IGetDevice]),
      [server_render_empty] (what a server render returns: the value of
      the first render, on the assumption that a server commits no
      effect, which is built into [renderToString]),
      [ssr_reported_in_browser_not_on_server], and against
      the probe interface the corollary [sound_probe_survives];
      [always_server_reports_ssr] and [query_environment_classifies] for
      the two probes.
    - Device hook, StrictMode: [strict_device_unobservable] (the page whose
      mount is doubled returns what the page mounted once returns and is
      that page from the next render on), [strict_device_detects_twice].
    - Device hook with the mount flag: [client_page_refines] (the composed
      component is the page of [DeviceHook] with the answers false, true,
      true, ...), [client_page_settles] (in a browser: the empty object,
      the classification of ['SSR'], the classification of the user agent,
      then nothing queued), [client_page_without_navigator] (the second
      render takes the page down).
    - Toggle: [toggle_refines] (the component implements the flag of the
      specification), [toggle_parity], [toggle_batched], [toggle_stable],
      [toggle_after_unmount], [toggle_rerenders] (a flip makes the host
      render again, once).
    - The two hooks together: [debounced_toggle_coupled] (the component
      shows [false] flipped once per call the debouncer has made) and
      [debounced_toggle_one_shot] (the function [useToggle] returns never
      changes, so renders with other keys neither postpone the call nor
      cause another: the flag turns on [delay] after the mount), from
      the invariant [Wired] and, for the timers, [registration_quiet] of
      [Liveness]; the example [fresh_function_starts_over] is the
      debouncer given a new function with the new keys.
    - Timer queue and timer table: the laws of [TimerHost]
      ([q_setTimeout_view], [q_advance_fired], [q_advance_order], ... for
      the queue; [due_by_elem], [due_by_order], ... for the table), so
      that every theorem proved against the interface holds of both; the
      witnesses evaluate them on the queue.

    ** Assumptions, bounds and fuel

    - Time is an integer number of milliseconds.  A timer is due at the
      clock value of its registration plus its delay and fires when time is
      advanced to or past that value; [Advance dt] with [dt <= 0] advances by
      nothing but still fires what is due.
    - In [Debounce], [Refinement], [OpenPage] and [Instances] a render and
      the commit of its effects are one event, and so are an unmount and its cleanup;
      [Phases] removes the assumption and shows what it amounts to.  In
      [DeviceHook] and [Toggle] a render and its commit are one event.
    - Delays are numbers.  Of a number that is not an integer the model
      keeps the integer part and a name for the rest, which is all the
      hook and the host observe; every integer counts as a number, also
      those a double cannot hold.
    - Function identities are natural numbers ([ref]); the caller chooses
      the identity of the [effect] it passes, so passing the same function
      object twice is passing the same number.
    - Handles are natural numbers issued in increasing order; [TimerQueue]
      and [TimerTable] start at handle 1 and clock 0.  On the shared page other code
      cancels only handles that were not issued to the hook.
    - Strings are sequences of 8-bit characters, and case is folded on
      the letters [a]-[z] only.  Against the ASCII patterns of [getDevice]
      that is what the [i] flag does; it is not what
      [String.prototype.toUpperCase] does beyond ASCII (ß becomes SS), and
      no theorem speaks of that method.
    - The one recursion with fuel is [React.rerender], the runtime's
      "render while an update is queued" loop, used by [DeviceHook.settle],
      [ClientPage.settleClient], [Toggle.settle] and, with fuel 1, by
      [DebouncedToggle.wait] (a render leaves nothing queued:
      [draw_wired]); [rerender_settles]
      shows that fuel beyond the first render that leaves nothing queued is
      not used, and [toggle_rerenders] that a flip takes one render.
      [settle_terminates] shows that with a constant probe one unit of
      fuel after the mount reaches the fixed point and more fuel changes
      nothing; [client_page_settles] shows that with the mount flag two
      units do, for every fuel from two on.  All other functions are
      structurally recursive or not recursive; [merge_sort], which
      [TimerTable] calls, is stdpp's and total.
    - An exception thrown by an effect takes the page down (no error
      boundary is assumed).

    ** Not modelled

    - The source of [useIsClient]: the file useDeviceDetect.ts imports it
      from is not part of the repository's sources.  [DeviceHook] takes its
      answer as an input of each render ([ClientProbe]); [ClientPage] assumes
      the usual mount-flag implementation, and its theorems hold of that
      implementation only.
    - React's scheduler: when renders happen, batching across events,
      concurrent rendering, layout effects.
    - Timer callbacks that themselves schedule timers, the clamping of
      nested timers and the throttling of background pages.
    - Components that pass state to one another: in [Instances] the
      components share the timer table and nothing else, which is all
      the hook can share.
    - The body of the caller's [effect]: a call is recorded, not run,
      except in [DebouncedToggle], where the effect is the flip.  A
      value that is not callable throws inside the timer task, after the
      timer has left the table; the model records the attempt as a call.
    - Regular expressions beyond alternations of literals, and characters
      outside the 8-bit range. *)

From Stdlib Require Export ZArith Lia Bool.
From stdpp Require Export prelude sorting.

#[global] Open Scope Z_scope.

(** ** Notation scope of the development *)

Declare Scope hooks_scope.
Delimit Scope hooks_scope with hooks.
#[global] Open Scope hooks_scope.

(** ** A small state monad

    Host facilities (the timer table, the clock) are threaded through the
    effect bodies of the hooks the way JavaScript threads them implicitly:
    a computation takes the host state and returns its result with the new
    host state. *)

Definition State (S A : Type) : Type := S -> A * S.

Definition st_ret {S A : Type} (a : A) : State S A :=
  fun s => (a, s).

Definition st_bind {S A B : Type} (m : State S A) (k : A -> State S B) : State S B :=
  fun s => let (a, s') := m s in k a s'.

Definition st_exec {S A : Type} (m : State S A) (s : S) : S :=
  snd (m s).

Notation "'let*' x ':=' m 'in' k" := (st_bind m (fun x => k))
  (at level 10, x name, m at level 100, k at level 200,
   format "'[v' 'let*'  x  ':='  m  'in' '/' k ']'") : hooks_scope.

(** ** Hint databases and tactics *)

Create HintDb hooks discriminated.
Create Rewrite HintDb hooks_rw.

(** [st_unfold]: expose the state passing of a monadic definition. *)
Ltac st_unfold := unfold st_bind, st_ret, st_exec in *.

(** ** Monad laws *)

Section StateLaws.
Context {S A B C : Type}.

Lemma st_bind_ret_l (a : A) (k : A -> State S B) (s : S) :
  st_bind (st_ret a) k s = k a s.
Proof. reflexivity. Qed.

Lemma st_bind_ret_r (m : State S A) (s : S) :
  st_bind m st_ret s = m s.
Proof. unfold st_bind, st_ret. by destruct (m s). Qed.

Lemma st_bind_assoc (m : State S A) (k : A -> State S B) (h : B -> State S C) (s : S) :
  st_bind (st_bind m k) h s = st_bind m (fun a => st_bind (k a) h) s.
Proof. unfold st_bind. by destruct (m s). Qed.

End StateLaws.

#[export] Hint Rewrite @st_bind_ret_l @st_bind_ret_r @st_bind_assoc : hooks_rw.

(** ** Runs of a machine

    Every component of the development is a machine stepped by events, and
    its executions are left folds of the step function.  What one step
    keeps, a run keeps: an invariant, or a relation between two machines
    that take the same events. *)

Section Runs.
Context {S S' E : Type} (step : S -> E -> S) (step' : S' -> E -> S').

Lemma foldl_invariant (P : S -> Prop) :
  (forall s e, P s -> P (step s e)) ->
  forall es s, P s -> P (foldl step s es).
Proof. intros Hstep es. induction es as [|e es IH]; intros s Hs; [done|]. by apply IH, Hstep. Qed.

Lemma foldl_simulation (R : S -> S' -> Prop) :
  (forall s s' e, R s s' -> R (step s e) (step' s' e)) ->
  forall es s s', R s s' -> R (foldl step s es) (foldl step' s' es).
Proof.
  intros Hstep es. induction es as [|e es IH]; intros s s' Hs; [done|]. by apply IH, Hstep.
Qed.

End Runs.

(** ** Lists: what filtering preserves *)

Section Filter.
Context {A B : Type} (P : A -> Prop) `{!forall x, Decision (P x)}.

Lemma Forall_filter (Q : A -> Prop) (l : list A) :
  Forall Q l -> Forall Q (filter P l).
Proof. rewrite !Forall_forall. intros HQ x [_ ?]%list_elem_of_filter. by apply HQ. Qed.

Lemma StronglySorted_filter (R : relation A) (l : list A) :
  StronglySorted R l -> StronglySorted R (filter P l).
Proof.
  induction 1 as [|x l Hs IH Hx]; [constructor|].
  rewrite filter_cons. case_decide; [|done].
  constructor; [done|]. by apply Forall_filter.
Qed.

Lemma fmap_filter_sublist (f : A -> B) (l : list A) :
  f <$> filter P l `sublist_of` f <$> l.
Proof. apply fmap_sublist, sublist_filter. Qed.

Lemma filter_none (l : list A) : Forall (fun x => ~ P x) l -> filter P l = [].
Proof.
  induction 1 as [|x l Hx _ IH]; [done|]. by rewrite filter_cons, decide_False.
Qed.

Lemma filter_all (l : list A) : Forall P l -> filter P l = l.
Proof.
  induction 1 as [|x l Hx _ IH]; [done|]. by rewrite filter_cons, decide_True, IH.
Qed.

End Filter.

(** ** Lists: counting the elements a test accepts *)

Section Count.
Context {A : Type} (f : A -> bool).

Definition countb (l : list A) : nat :=
  length (filter (fun x => f x = true) l).

Lemma countb_nil : countb [] = 0%nat.
Proof. reflexivity. Qed.

Lemma countb_cons (x : A) (l : list A) :
  countb (x :: l) = ((if f x then 1 else 0) + countb l)%nat.
Proof. unfold countb. rewrite filter_cons. destruct (f x); by simplify_eq/=. Qed.

Lemma countb_app (l1 l2 : list A) : countb (l1 ++ l2) = (countb l1 + countb l2)%nat.
Proof. unfold countb. by rewrite filter_app, length_app. Qed.

Lemma countb_replicate (n : nat) (x : A) : countb (replicate n x) = if f x then n else 0%nat.
Proof.
  induction n as [|n IH]; [by destruct (f x)|].
  cbn [replicate]. rewrite countb_cons, IH. by destruct (f x).
Qed.

Lemma countb_none (l : list A) : Forall (fun x => f x = false) l -> countb l = 0%nat.
Proof. induction 1 as [|x l Hx _ IH]; [done|]. by rewrite countb_cons, Hx, IH. Qed.

End Count.

#[export] Hint Rewrite @countb_nil @countb_cons @countb_app @countb_replicate : hooks_rw.
