(* ===== verification/JsNumber.v ===== *)
(** * JsNumber: numbers as the hooks and their host see them

    The delay of [useDebounce] is a [number].  The hook does two things with
    it: it puts it in a dependency array, where the runtime compares it with
    the delay of the previous render by [Object.is], and it hands it to
    [setTimeout], which converts it to an integer.  This file gives numbers
    with what those two uses observe: their identity and their integer
    part.

    An integer is [NInt z]; [+0] is [NInt 0].  A finite number that is not
    an integer is [NFraction whole rest]: [whole] is its integer part
    (towards zero) and [rest] names what remains of it, so that two such
    numbers are the same number exactly when both components agree.  [-0],
    [NaN] and the two infinities are values of their own.  Every integer is
    taken to be a number; the doubles of the language are among them. *)

From S2P Require Import Prelude.

(** ** Numbers *)

Inductive number : Type :=
| NInt (z : Z)
| NNegZero
| NFraction (whole : Z) (rest : positive)
| NNaN
| NInfinity (negative : bool).

Bind Scope Z_scope with number.

(** An integer is written as it is where a number is expected. *)
Coercion NInt : Z >-> number.

#[export] Instance number_eq_dec : EqDecision number.
Proof. solve_decision. Defined.

(** [Object.is] on numbers: [NaN] is itself, and the two zeros differ. *)
Definition sameValue (x y : number) : bool :=
  bool_decide (x = y).

(** [===] on numbers: [NaN] is not itself, and the two zeros are equal. *)
Definition strictEquals (x y : number) : bool :=
  match x, y with
  | NNaN, _ | _, NNaN => false
  | NNegZero, NInt 0 | NInt 0, NNegZero => true
  | _, _ => bool_decide (x = y)
  end.

(** The integer part a host takes of a number before it converts it to an
    integer of fixed width: the number without its fraction, and [0] for
    [NaN], the zeros and the infinities. *)
Definition integerPart (x : number) : Z :=
  match x with
  | NInt z => z
  | NFraction whole _ => whole
  | NNegZero | NNaN | NInfinity _ => 0
  end.

Definition isInteger (x : number) : bool :=
  match x with
  | NInt _ => true
  | _ => false
  end.

(** ** Facts *)

Lemma sameValue_true x y : sameValue x y = true <-> x = y.
Proof. apply bool_decide_eq_true. Qed.

Lemma sameValue_refl x : sameValue x x = true.
Proof. by apply sameValue_true. Qed.

Lemma integerPart_int (z : Z) : integerPart z = z.
Proof. reflexivity. Qed.

(** The integer part of the integer part is itself. *)
Lemma integerPart_idemp x : integerPart (integerPart x) = integerPart x.
Proof. reflexivity. Qed.

(** Where the two equalities of the language part ways: on [NaN] and on the
    zeros, and nowhere else. *)
Lemma strictEquals_sameValue x y :
  strictEquals x y = sameValue x y \/
  (x = NNaN /\ y = NNaN) \/
  (x = NNegZero /\ y = NInt 0) \/ (x = NInt 0 /\ y = NNegZero).
Proof.
  unfold sameValue.
  destruct x as [[| |]| | | |], y as [[| |]| | | |]; simpl; try by left.
  all: try (right; by eauto).
  all: left; symmetry; by apply bool_decide_eq_false.
Qed.
