(* ===== verification/React.v ===== *)
(** * React: the part of the hook runtime the three hooks rely on

    The hooks of this repository are written against [useState],
    [useCallback] and [useEffect].  This file models what the runtime keeps
    for each of them between two renders of a component (a hook "slot"), what
    a call does during a render, and what the commit that follows a render
    does with the effects the render produced.

    A component calls its hooks in the same order on every render, so the
    state of a custom hook is a record of slots, one per call; a slot is
    absent ([None]) on the first render (mount) and present afterwards.

    Closures are represented by the values they capture.  Values that are
    compared by the runtime (dependency arrays) are elements of [val]. *)

From stdpp Require Import strings.
From S2P Require Import Prelude JsNumber.

(** ** Values and their identity *)

(** The identity of a function or object: two references are the same
    object exactly when they are equal. *)
Definition ref : Type := nat.
Bind Scope nat_scope with ref.

Inductive val : Type :=
| VUndefined
| VNull
| VBool (b : bool)
| VNum (n : number)
| VStr (s : string)
| VRef (r : ref).

#[export] Instance val_eq_dec : EqDecision val.
Proof. solve_decision. Defined.

(** [Object.is] on the values above. *)
Definition objectIs (x y : val) : bool :=
  bool_decide (x = y).

(** The comparison of two dependency arrays: element by element, over the
    positions both arrays have. *)
Fixpoint areHookInputsEqual (nextDeps prevDeps : list val) : bool :=
  match nextDeps, prevDeps with
  | x :: nextDeps', y :: prevDeps' => objectIs x y && areHookInputsEqual nextDeps' prevDeps'
  | _, _ => true
  end.

(** ** [useState] *)

(** What a state setter is called with: a value, or a function of the
    previous state. *)
Inductive SetStateAction (S : Type) : Type :=
| SetValue (v : S)
| SetUpdater (f : S -> S).
Arguments SetValue {S} _.
Arguments SetUpdater {S} _.

Definition basicStateReducer {S : Type} (state : S) (action : SetStateAction S) : S :=
  match action with
  | SetValue v => v
  | SetUpdater f => f state
  end.

(** The slot: the state of the last render and the actions dispatched since. *)
Record StateHook (S : Type) : Type := {
  memoizedState : S;
  queue : list (SetStateAction S);
}.
Arguments memoizedState {S} _.
Arguments queue {S} _.

Definition mountState {S : Type} (initialState : S) : StateHook S :=
  {| memoizedState := initialState; queue := [] |}.

(** A render after the first one applies the queued actions in the order
    they were dispatched. *)
Definition updateState {S : Type} (hook : StateHook S) : StateHook S :=
  {| memoizedState := foldl basicStateReducer (memoizedState hook) (queue hook);
     queue := [] |}.

Definition useState {S : Type} (hook : option (StateHook S)) (initialState : S) : StateHook S :=
  match hook with
  | None => mountState initialState
  | Some prev => updateState prev
  end.

(** Calling the setter queues the action; the state changes at the next render. *)
Definition dispatchSetState {S : Type} (action : SetStateAction S) (hook : StateHook S) : StateHook S :=
  {| memoizedState := memoizedState hook; queue := queue hook ++ [action] |}.

(** ** [useCallback] *)

Record CallbackHook (F : Type) : Type := {
  memoizedCallback : F;
  callbackDeps : list val;
}.
Arguments memoizedCallback {F} _.
Arguments callbackDeps {F} _.

(** The result of the call is [memoizedCallback] of the slot returned. *)
Definition useCallback {F : Type} (hook : option (CallbackHook F)) (callback : F) (deps : list val) : CallbackHook F :=
  match hook with
  | None => {| memoizedCallback := callback; callbackDeps := deps |}
  | Some prev =>
      if areHookInputsEqual deps (callbackDeps prev) then prev
      else {| memoizedCallback := callback; callbackDeps := deps |}
  end.

(** ** [useEffect] *)

(** The slot: the dependencies of the last render and the cleanup the last
    run of the effect returned, if any. *)
Record EffectHook (C : Type) : Type := {
  eff_deps : list val;
  eff_destroy : option C;
}.
Arguments eff_deps {C} _.
Arguments eff_destroy {C} _.

(** What a render hands to the commit: the effect function [K], whether it
    has to run, and the cleanup of the previous run. *)
Record Effect (K C : Type) : Type := {
  e_hasEffect : bool;
  e_create : K;
  e_deps : list val;
  e_destroy : option C;
}.
Arguments e_hasEffect {K C} _.
Arguments e_create {K C} _.
Arguments e_deps {K C} _.
Arguments e_destroy {K C} _.

Definition useEffect {K C : Type} (hook : option (EffectHook C)) (create : K) (deps : list val) : Effect K C :=
  match hook with
  | None =>
      {| e_hasEffect := true; e_create := create; e_deps := deps; e_destroy := None |}
  | Some prev =>
      {| e_hasEffect := negb (areHookInputsEqual deps (eff_deps prev));
         e_create := create; e_deps := deps; e_destroy := eff_destroy prev |}
  end.

Section Commit.
Context {W K C : Type}.
Context (runCreate : K -> State W (option C)) (runDestroy : C -> State W unit).

(** Run a cleanup if there is one. *)
Definition commitHookEffectListUnmount (destroy : option C) : State W unit :=
  match destroy with
  | Some d => runDestroy d
  | None => st_ret tt
  end.

(** The commit of one effect: when it has to run, the previous cleanup runs
    first, then the effect function, whose result is the next cleanup. *)
Definition commitEffect (e : Effect K C) : State W (EffectHook C) :=
  if e_hasEffect e then
    let* _ := commitHookEffectListUnmount (e_destroy e) in
    let* destroy := runCreate (e_create e) in
    st_ret {| eff_deps := e_deps e; eff_destroy := destroy |}
  else
    st_ret {| eff_deps := e_deps e; eff_destroy := e_destroy e |}.

(** Unmounting the component runs the cleanup of the last run. *)
Definition unmountEffect (hook : EffectHook C) : State W unit :=
  commitHookEffectListUnmount (eff_destroy hook).

(** StrictMode's second invocation of an effect that has just been mounted:
    its cleanup runs, then its effect function again; the slot keeps the
    dependencies and takes the new cleanup. *)
Definition remountEffect (create : K) (hook : EffectHook C) : State W (EffectHook C) :=
  let* _ := commitHookEffectListUnmount (eff_destroy hook) in
  let* destroy := runCreate create in
  st_ret {| eff_deps := eff_deps hook; eff_destroy := destroy |}.

End Commit.

(** ** The render loop

    A state setter called by an effect or by an event queues an update, and
    the runtime renders the component again while an update is queued.
    [pending] says whether one is, [render] is a render with its commit,
    and [fuel] bounds the number of renders. *)

Definition queued {S : Type} (h : StateHook S) : bool :=
  match queue h with
  | [] => false
  | _ => true
  end.

Section Rerender.
Context {P : Type} (pending : P -> bool) (render : P -> P).

Fixpoint rerender (fuel : nat) (p : P) : P :=
  match fuel with
  | O => p
  | S fuel' => if pending p then rerender fuel' (render p) else p
  end.

Lemma rerender_idle fuel p : pending p = false -> rerender fuel p = p.
Proof. intros Hp. destruct fuel; simpl; [done|]. by rewrite Hp. Qed.

Lemma rerender_step fuel p :
  pending p = true -> rerender (S fuel) p = rerender fuel (render p).
Proof. intros Hp. simpl. by rewrite Hp. Qed.

(** The loop stops at the first render that leaves nothing queued, and fuel
    beyond that render is not used. *)
Lemma rerender_settles n fuel p :
  (forall k, (k < n)%nat -> pending (Nat.iter k render p) = true) ->
  pending (Nat.iter n render p) = false ->
  (n <= fuel)%nat ->
  rerender fuel p = Nat.iter n render p.
Proof.
  revert fuel p. induction n as [|n IH]; intros fuel p Hbefore Hat Hfuel.
  - by apply rerender_idle.
  - destruct fuel as [|fuel]; [lia|]. rewrite rerender_step by apply (Hbefore 0%nat ltac:(lia)).
    rewrite Nat.iter_succ_r in *. apply IH; [|done|lia].
    intros k Hk. rewrite <- Nat.iter_succ_r. apply Hbefore. lia.
Qed.

End Rerender.

(** ** Facts about the runtime *)

Lemma objectIs_true x y : objectIs x y = true <-> x = y.
Proof. unfold objectIs. apply bool_decide_eq_true. Qed.

Lemma objectIs_refl x : objectIs x x = true.
Proof. by apply objectIs_true. Qed.

Lemma areHookInputsEqual_refl deps : areHookInputsEqual deps deps = true.
Proof. induction deps as [|x deps IH]; simpl; [done|]. by rewrite objectIs_refl. Qed.

(** Arrays of the same length are equal inputs exactly when they are equal. *)
Lemma areHookInputsEqual_eq nextDeps prevDeps :
  length nextDeps = length prevDeps ->
  areHookInputsEqual nextDeps prevDeps = true <-> nextDeps = prevDeps.
Proof.
  revert prevDeps. induction nextDeps as [|x xs IH]; intros [|y ys] Hlen; simplify_eq/=.
  - done.
  - rewrite andb_true_iff, objectIs_true, IH by done.
    split; [by intros [-> ->] | by intros [= -> ->]].
Qed.

(** In general only the common prefix is compared. *)
Lemma areHookInputsEqual_prefix nextDeps prevDeps :
  areHookInputsEqual nextDeps prevDeps = true <->
  take (length prevDeps) nextDeps = take (length nextDeps) prevDeps.
Proof.
  revert prevDeps. induction nextDeps as [|x xs IH]; intros [|y ys]; simpl; try done.
  rewrite andb_true_iff, objectIs_true, IH.
  split; [by intros [-> ->] | by intros [= -> ->]].
Qed.

Lemma useEffect_deps {K C : Type} (hook : option (EffectHook C)) (create : K) deps :
  e_deps (useEffect hook create deps) = deps.
Proof. by destruct hook. Qed.

Lemma updateState_queue {S : Type} (hook : StateHook S) : queue (updateState hook) = [].
Proof. reflexivity. Qed.

(** Dispatching [actions] one after the other and rendering once applies
    them in order to the state of the last render. *)
Lemma updateState_dispatch {S : Type} (actions : list (SetStateAction S)) (hook : StateHook S) :
  memoizedState (updateState (foldl (flip dispatchSetState) hook actions)) =
  foldl basicStateReducer (memoizedState hook) (queue hook ++ actions).
Proof.
  revert hook. induction actions as [|a actions IH]; intros hook.
  - simpl. by rewrite app_nil_r.
  - cbn [foldl]. rewrite IH. unfold flip; simpl. by rewrite <- app_assoc.
Qed.

Lemma useCallback_same {F : Type} (prev : CallbackHook F) callback deps :
  areHookInputsEqual deps (callbackDeps prev) = true ->
  useCallback (Some prev) callback deps = prev.
Proof. intros Heq. simpl. by rewrite Heq. Qed.

Lemma useCallback_changed {F : Type} (prev : CallbackHook F) callback deps :
  areHookInputsEqual deps (callbackDeps prev) = false ->
  useCallback (Some prev) callback deps = {| memoizedCallback := callback; callbackDeps := deps |}.
Proof. intros Hne. simpl. by rewrite Hne. Qed.

Section CommitFacts.
Context {W K C : Type}.
Context (runCreate : K -> State W (option C)) (runDestroy : C -> State W unit).

(** An effect whose dependencies did not change leaves the world alone and
    keeps the cleanup of the previous run. *)
Lemma commitEffect_skip (e : Effect K C) (w : W) :
  e_hasEffect e = false ->
  commitEffect runCreate runDestroy e w = ({| eff_deps := e_deps e; eff_destroy := e_destroy e |}, w).
Proof. intros He. unfold commitEffect. by rewrite He. Qed.

(** An effect that runs: cleanup first, then the effect function. *)
Lemma commitEffect_run (e : Effect K C) (w : W) :
  e_hasEffect e = true ->
  commitEffect runCreate runDestroy e w =
  let w1 := st_exec (commitHookEffectListUnmount runDestroy (e_destroy e)) w in
  let (destroy, w2) := runCreate (e_create e) w1 in
  ({| eff_deps := e_deps e; eff_destroy := destroy |}, w2).
Proof.
  intros He. unfold commitEffect. rewrite He. st_unfold.
  destruct (commitHookEffectListUnmount _ _ w) as [[] w1]; simpl.
  by destruct (runCreate _ w1).
Qed.

End CommitFacts.
