(* ===== verification/Timers.v ===== *)
(** * Timers: the host timer facility used by [useDebounce]

    [setTimeout] and [clearTimeout] are supplied by the host (a browser
    window).  This file gives the facility twice:

    - [TimerHost], the interface a client programs against: an abstract view
      of the pending timers as a finite map from handles to (due time,
      callback), with the laws of scheduling, cancelling and the passing of
      time;
    - [TimerQueue], an executable implementation: a clock, a handle counter
      and a queue of pending timers kept in firing order, proved to satisfy
      the interface.

    Callbacks are kept abstract (a type [C] of closures represented by the
    values they capture); the client says what running one does. *)

From stdpp Require Import gmap.
From S2P Require Import Prelude JsNumber.

(** ** Timers and their firing order *)

Record timer (C : Type) : Type := Timer {
  timer_id : nat;
  timer_due : Z;
  timer_cb : C;
}.
Arguments Timer {C} _ _ _.
Arguments timer_id {C} _.
Arguments timer_due {C} _.
Arguments timer_cb {C} _.

(** The entry of the abstract view that a queued timer stands for. *)
Definition timer_entry {C : Type} (t : timer C) : nat * (Z * C) :=
  (timer_id t, (timer_due t, timer_cb t)).

(** Timers fire by due time; timers due at the same time fire in the order
    they were created, that is by handle. *)
Definition fires_before {C : Type} (t u : timer C) : Prop :=
  timer_due t < timer_due u \/ (timer_due t = timer_due u /\ (timer_id t < timer_id u)%nat).

#[export] Instance fires_before_dec {C : Type} (t u : timer C) : Decision (fires_before t u).
Proof. unfold fires_before. apply _. Defined.

(** ** The delay conversion of a browser host

    The host converts the [timeout] argument to a signed 32-bit integer (its
    integer part, wrapped modulo [2^32]) and then raises negative values to
    [0]. *)

Definition toInt32 (n : Z) : Z :=
  let m := n mod 2 ^ 32 in
  if decide (m < 2 ^ 31) then m else m - 2 ^ 32.

Definition timerDelay (timeout : number) : Z :=
  Z.max 0 (toInt32 (integerPart timeout)).

(** The conversion is the identity on [[0, 2^31)], sends [[-2^31, 0]] to [0],
    and wraps beyond: a delay of [2^31] ms is no delay at all. *)

Lemma toInt32_small d : 0 <= d < 2 ^ 31 -> toInt32 d = d.
Proof.
  intros Hd. unfold toInt32. rewrite Z.mod_small by lia. by case_decide; [|lia].
Qed.

Lemma toInt32_neg d : - 2 ^ 31 <= d < 0 -> toInt32 d = d.
Proof.
  intros Hd. unfold toInt32.
  replace (d mod 2 ^ 32) with (d + 2 ^ 32).
  - case_decide; lia.
  - rewrite <- (Z_mod_plus_full d 1 (2 ^ 32)). rewrite Z.mod_small; lia.
Qed.

Lemma toInt32_range d : - 2 ^ 31 <= toInt32 d < 2 ^ 31.
Proof.
  unfold toInt32. pose proof (Z.mod_pos_bound d (2 ^ 32)). case_decide; lia.
Qed.

Lemma timerDelay_nonneg d : 0 <= timerDelay d.
Proof. unfold timerDelay. lia. Qed.

Lemma timerDelay_small (d : Z) : 0 <= d < 2 ^ 31 -> timerDelay d = d.
Proof. intros Hd. unfold timerDelay. cbn [integerPart]. rewrite toInt32_small by done. lia. Qed.

Lemma timerDelay_nonpos (d : Z) : - 2 ^ 31 <= d <= 0 -> timerDelay d = 0.
Proof.
  intros Hd. unfold timerDelay. cbn [integerPart]. destruct (decide (d = 0)) as [->|]; [done|].
  rewrite toInt32_neg by lia. lia.
Qed.

Lemma toInt32_wraps d : 2 ^ 31 <= d < 2 ^ 32 -> toInt32 d = d - 2 ^ 32.
Proof.
  intros Hd. unfold toInt32. rewrite Z.mod_small by lia. case_decide; lia.
Qed.

Lemma toInt32_periodic d : toInt32 (d + 2 ^ 32) = toInt32 d.
Proof.
  unfold toInt32. replace (d + 2 ^ 32) with (d + 1 * 2 ^ 32) by lia.
  by rewrite Z_mod_plus_full.
Qed.

Lemma timerDelay_wraps (d : Z) : 2 ^ 31 <= d < 2 ^ 32 -> timerDelay d = 0.
Proof. intros Hd. unfold timerDelay. cbn [integerPart]. rewrite toInt32_wraps by done. lia. Qed.

(** Below [-2^31] the conversion wraps the other way: the delay becomes a
    positive number of milliseconds. *)
Lemma toInt32_wraps_neg d : - 2 ^ 32 < d < - 2 ^ 31 -> toInt32 d = d + 2 ^ 32.
Proof.
  intros Hd. unfold toInt32.
  replace (d mod 2 ^ 32) with (d + 2 ^ 32).
  - case_decide; lia.
  - rewrite <- (Z_mod_plus_full d 1 (2 ^ 32)). rewrite Z.mod_small; lia.
Qed.

Lemma timerDelay_wraps_neg (d : Z) : - 2 ^ 32 < d < - 2 ^ 31 -> timerDelay d = d + 2 ^ 32.
Proof. intros Hd. unfold timerDelay. cbn [integerPart]. rewrite toInt32_wraps_neg by done. lia. Qed.

(** The host sees of a number its integer part only. *)
Lemma timerDelay_integer x : timerDelay x = timerDelay (integerPart x).
Proof. reflexivity. Qed.

(** ** The interface *)

Class TimerHost (C H : Type) : Type := {
  (** observations *)
  th_now : H -> Z;
  th_issued : H -> nat;
  th_view : H -> gmap nat (Z * C);
  th_wf : H -> Prop;
  (** operations *)
  th_init : H;
  th_delay : number -> Z;
  setTimeout : C -> number -> State H nat;
  clearTimeout : nat -> State H unit;
  advance : Z -> State H (list (timer C));
  (** the initial host *)
  th_init_wf : th_wf th_init;
  th_init_view : th_view th_init = ∅;
  (** the delay conversion *)
  th_delay_nonneg : forall d, 0 <= th_delay d;
  th_delay_small : forall d : Z, 0 <= d < 2 ^ 31 -> th_delay d = d;
  th_delay_nonpos : forall d : Z, - 2 ^ 31 <= d <= 0 -> th_delay d = 0;
  th_delay_integer : forall x, th_delay x = th_delay (integerPart x);
  (** well-formed hosts: handles in use were issued, nothing is overdue *)
  th_wf_issued : forall h id e, th_wf h -> th_view h !! id = Some e -> (id < th_issued h)%nat;
  th_wf_future : forall h id e, th_wf h -> th_view h !! id = Some e -> th_now h <= e.1;
  (** [setTimeout] *)
  setTimeout_handle : forall cb d h, (setTimeout cb d h).1 = th_issued h;
  setTimeout_view : forall cb d h, th_wf h ->
    th_view (setTimeout cb d h).2 = <[th_issued h := (th_now h + th_delay d, cb)]> (th_view h);
  setTimeout_issued : forall cb d h, th_issued (setTimeout cb d h).2 = S (th_issued h);
  setTimeout_now : forall cb d h, th_now (setTimeout cb d h).2 = th_now h;
  setTimeout_wf : forall cb d h, th_wf h -> th_wf (setTimeout cb d h).2;
  (** [clearTimeout] *)
  clearTimeout_view : forall id h, th_wf h ->
    th_view (clearTimeout id h).2 = delete id (th_view h);
  clearTimeout_issued : forall id h, th_issued (clearTimeout id h).2 = th_issued h;
  clearTimeout_now : forall id h, th_now (clearTimeout id h).2 = th_now h;
  clearTimeout_wf : forall id h, th_wf h -> th_wf (clearTimeout id h).2;
  (** [advance] *)
  advance_now : forall dt h, th_now (advance dt h).2 = th_now h + Z.max 0 dt;
  advance_issued : forall dt h, th_issued (advance dt h).2 = th_issued h;
  advance_view : forall dt h, th_wf h ->
    th_view (advance dt h).2 = filter (fun e => th_now h + Z.max 0 dt < e.2.1) (th_view h);
  advance_fired : forall dt h t, th_wf h ->
    t ∈ (advance dt h).1 <->
    th_view h !! timer_id t = Some (timer_due t, timer_cb t) /\ timer_due t <= th_now h + Z.max 0 dt;
  advance_order : forall dt h, th_wf h -> StronglySorted fires_before (advance dt h).1;
  advance_wf : forall dt h, th_wf h -> th_wf (advance dt h).2;
}.

(** ** What follows from the interface

    A client that keeps at most one timer pending needs to know what the
    passing of time does to a host with no timer and to a host with one. *)

Section HostFacts.
Context {C H : Type} `{!TimerHost C H}.
Implicit Types (h : H) (t : timer C).

Lemma fires_before_irrefl t : ~ fires_before t t.
Proof. unfold fires_before. lia. Qed.

(** A list in firing order whose elements are all the same timer has at most
    one element. *)
Lemma fired_all_same (l : list (timer C)) t :
  StronglySorted fires_before l -> (forall u, u ∈ l -> u = t) -> l = [] \/ l = [t].
Proof.
  intros Hs Hall. destruct l as [|u [|v l]]; [by left| |].
  - right. f_equal. apply Hall. by left.
  - apply StronglySorted_inv in Hs as [_ Hu]. apply Forall_cons in Hu as [Huv _].
    rewrite (Hall u), (Hall v) in Huv by (repeat constructor).
    by apply fires_before_irrefl in Huv.
Qed.

Lemma advance_none dt h : th_wf h -> th_view h = ∅ -> (advance dt h).1 = [].
Proof.
  intros Hwf Hv. destruct (advance dt h).1 as [|t l] eqn:E; [done|].
  assert (t ∈ (advance dt h).1) as Hin by (rewrite E; by left).
  apply advance_fired in Hin as [Hl _]; [|done]. by rewrite Hv in Hl.
Qed.

Lemma advance_single dt h id due cb :
  th_wf h ->
  th_view h = {[id := (due, cb)]} ->
  (advance dt h).1 = if decide (due <= th_now h + Z.max 0 dt) then [Timer id due cb] else [].
Proof.
  intros Hwf Hv.
  assert (forall u, u ∈ (advance dt h).1 -> u = Timer id due cb /\ due <= th_now h + Z.max 0 dt) as Hall.
  { intros [i d c] [Hl Hle]%advance_fired; [|done]. rewrite Hv in Hl. simpl in *.
    apply lookup_singleton_Some in Hl as [<- [= <- <-]]. done. }
  destruct (fired_all_same (advance dt h).1 (Timer id due cb)) as [E|E].
  - by apply advance_order.
  - intros u Hu. by apply Hall.
  - rewrite E. case_decide as Hle; [|done].
    assert (Timer id due cb ∈ (advance dt h).1) as Hin; [|by rewrite E in Hin; inv Hin].
    apply advance_fired; [done|]. simpl. by rewrite Hv, lookup_singleton_eq.
  - rewrite E. case_decide as Hle; [done|]. destruct Hle.
    apply (Hall (Timer id due cb)). rewrite E. by left.
Qed.

Lemma advance_view_none dt h : th_wf h -> th_view h = ∅ -> th_view (advance dt h).2 = ∅.
Proof. intros Hwf Hv. rewrite advance_view, Hv by done. apply map_filter_empty. Qed.

Lemma advance_view_single dt h id due cb :
  th_wf h ->
  th_view h = {[id := (due, cb)]} ->
  th_view (advance dt h).2 =
  if decide (due <= th_now h + Z.max 0 dt) then ∅ else {[id := (due, cb)]}.
Proof.
  intros Hwf Hv. rewrite advance_view, Hv by done. case_decide.
  - apply map_filter_singleton_False. simpl. lia.
  - apply map_filter_singleton_True. simpl. lia.
Qed.

End HostFacts.

(** ** The implementation: a queue in firing order *)

Module TimerQueue.

Section Queue.
Context {C : Type}.

Record host : Type := Host {
  q_now : Z;
  q_next : nat;
  q_pending : list (timer C);
}.

(** A fresh host: the clock at [0], no timer pending, handles from [1]. *)
Definition init : host :=
  {| q_now := 0; q_next := 1; q_pending := [] |}.

(** Insert behind every timer that is due no later. *)
Fixpoint enqueue (t : timer C) (q : list (timer C)) : list (timer C) :=
  match q with
  | [] => [t]
  | u :: q' =>
      if decide (timer_due u <= timer_due t) then u :: enqueue t q' else t :: u :: q'
  end.

Definition setTimeout (cb : C) (timeout : number) : State host nat :=
  fun h =>
    let t := Timer (q_next h) (q_now h + timerDelay timeout) cb in
    (q_next h,
     {| q_now := q_now h; q_next := S (q_next h); q_pending := enqueue t (q_pending h) |}).

Definition clearTimeout (id : nat) : State host unit :=
  fun h =>
    (tt,
     {| q_now := q_now h; q_next := q_next h;
        q_pending := filter (fun t => timer_id t <> id) (q_pending h) |}).

(** The timers at the front of the queue that are due by [now], and the rest. *)
Fixpoint split_due (now : Z) (q : list (timer C)) : list (timer C) * list (timer C) :=
  match q with
  | [] => ([], [])
  | t :: q' =>
      if decide (timer_due t <= now)
      then let (fired, rest) := split_due now q' in (t :: fired, rest)
      else ([], q)
  end.

(** Time passes by [dt] milliseconds: the timers that come due leave the
    queue, in firing order. *)
Definition advance (dt : Z) : State host (list (timer C)) :=
  fun h =>
    let now' := q_now h + Z.max 0 dt in
    let (fired, rest) := split_due now' (q_pending h) in
    (fired, {| q_now := now'; q_next := q_next h; q_pending := rest |}).

(** The abstract view of a queue and of a host. *)
Definition view_of (q : list (timer C)) : gmap nat (Z * C) :=
  list_to_map (timer_entry <$> q).

Definition view (h : host) : gmap nat (Z * C) :=
  view_of (q_pending h).

(** Well-formed hosts. *)
Record wf (h : host) : Prop := Wf {
  wf_sorted : StronglySorted fires_before (q_pending h);
  wf_nodup : NoDup (timer_id <$> q_pending h);
  wf_issued : Forall (fun t => (timer_id t < q_next h)%nat) (q_pending h);
  wf_future : Forall (fun t => q_now h <= timer_due t) (q_pending h);
}.

End Queue.

Arguments host : clear implicits.

(** *** The queue satisfies the interface *)

Section QueueFacts.
Context {C : Type}.
Implicit Types (t u : timer C) (q : list (timer C)) (h : host C).

Lemma fires_before_trans t u v : fires_before t u -> fires_before u v -> fires_before t v.
Proof. unfold fires_before. lia. Qed.

Lemma enqueue_perm t q : enqueue t q ≡ₚ t :: q.
Proof.
  induction q as [|u q IH]; simpl; [done|].
  case_decide; [|done]. rewrite IH. apply Permutation_swap.
Qed.

Lemma enqueue_sorted t q :
  StronglySorted fires_before q ->
  Forall (fun u => (timer_id u < timer_id t)%nat) q ->
  StronglySorted fires_before (enqueue t q).
Proof.
  induction q as [|u q IH]; simpl; intros Hs Hid.
  - repeat constructor.
  - apply StronglySorted_inv in Hs as [Hs Hu]. inv Hid.
    case_decide.
    + constructor; [by apply IH|].
      rewrite enqueue_perm. constructor; [|done].
      unfold fires_before. lia.
    + constructor; [by constructor|].
      assert (fires_before t u) by (unfold fires_before; lia).
      constructor; [done|].
      eapply Forall_impl; [exact Hu|]. intros v Hv. by eapply fires_before_trans.
Qed.

Lemma view_of_cons t q : view_of (t :: q) = <[timer_id t := (timer_due t, timer_cb t)]> (view_of q).
Proof. reflexivity. Qed.

Lemma entry_keys q : (timer_entry <$> q).*1 = timer_id <$> q.
Proof. by rewrite <- list_fmap_compose. Qed.

Lemma view_of_enqueue t q :
  NoDup (timer_id <$> t :: q) ->
  view_of (enqueue t q) = <[timer_id t := (timer_due t, timer_cb t)]> (view_of q).
Proof.
  intros Hnd. rewrite <- view_of_cons. unfold view_of. symmetry.
  apply list_to_map_proper; [by rewrite entry_keys|].
  by rewrite enqueue_perm.
Qed.

Lemma view_of_lookup_None i q : i ∉ timer_id <$> q -> view_of q !! i = None.
Proof. intros. apply not_elem_of_list_to_map_1. by rewrite entry_keys. Qed.

Lemma view_of_lookup_Some t q :
  NoDup (timer_id <$> q) ->
  view_of q !! timer_id t = Some (timer_due t, timer_cb t) <-> t ∈ q.
Proof.
  intros Hnd. unfold view_of.
  rewrite <- elem_of_list_to_map. 2: by rewrite entry_keys.
  rewrite list_elem_of_fmap. split.
  - intros (u & Hu & Hin). destruct t, u. unfold timer_entry in Hu. by simplify_eq/=.
  - intros. by exists t.
Qed.

Lemma view_of_clear i q :
  view_of (filter (fun t => timer_id t <> i) q) = delete i (view_of q).
Proof.
  induction q as [|t q IH]; [symmetry; apply delete_empty|].
  rewrite filter_cons, !view_of_cons. case_decide.
  - by rewrite view_of_cons, IH, delete_insert_ne.
  - simplify_eq. rewrite IH. destruct (decide (timer_id t = timer_id t)); [|done].
    by rewrite delete_insert_eq.
Qed.

Lemma split_due_spec now q :
  StronglySorted fires_before q ->
  q = (split_due now q).1 ++ (split_due now q).2 /\
  Forall (fun t => timer_due t <= now) (split_due now q).1 /\
  Forall (fun t => now < timer_due t) (split_due now q).2.
Proof.
  induction q as [|t q IH]; simpl; intros Hs; [done|].
  apply StronglySorted_inv in Hs as [Hs Ht].
  case_decide; simpl.
  - destruct (IH Hs) as (Happ & Hf & Hr). destruct (split_due now q) as [f r]; simpl in *.
    split_and!; [by f_equal | by constructor | done].
  - split_and!; [done | done |]. constructor; [lia|].
    eapply Forall_impl; [exact Ht|]. unfold fires_before. simpl. lia.
Qed.

Lemma view_of_partition now f r :
  NoDup (timer_id <$> f ++ r) ->
  Forall (fun t => timer_due t <= now) f ->
  Forall (fun t => now < timer_due t) r ->
  view_of r = filter (fun e => now < e.2.1) (view_of (f ++ r)).
Proof.
  intros Hnd Hf Hr. apply map_eq; intros i. apply option_eq; intros [d c].
  rewrite map_lookup_filter_Some; simpl.
  rewrite fmap_app in Hnd. pose proof Hnd as Hnd'. apply NoDup_app in Hnd' as (_ & _ & Hndr).
  rewrite !(view_of_lookup_Some (Timer i d c)) by (by rewrite ?fmap_app).
  rewrite Forall_forall in Hf, Hr. rewrite elem_of_app. split.
  - intros Hin. split; [by right|]. apply (Hr _ Hin).
  - intros [[Hin|Hin] Hlt]; [|done]. apply Hf in Hin. simpl in Hin. lia.
Qed.

Lemma split_due_fired now q t :
  StronglySorted fires_before q ->
  t ∈ (split_due now q).1 <-> t ∈ q /\ timer_due t <= now.
Proof.
  intros Hs. destruct (split_due_spec now q Hs) as (Happ & Hf & Hr).
  rewrite Forall_forall in Hf, Hr. rewrite Happ at 2. rewrite elem_of_app. split.
  - intros Hin. split; [by left|]. by apply Hf.
  - intros [[Hin|Hin] Hle]; [done|]. apply Hr in Hin. lia.
Qed.

Lemma q_init_wf : wf (@init C).
Proof. split; simpl; constructor. Qed.

Lemma q_setTimeout_wf cb d h : wf h -> wf (setTimeout cb d h).2.
Proof.
  intros [Hs Hnd Hi Hf]. split; simpl.
  - apply enqueue_sorted; [done|]. by simpl.
  - rewrite enqueue_perm. rewrite fmap_cons. constructor; [|done]. simpl.
    rewrite list_elem_of_fmap. intros (u & Hu & Hin).
    rewrite Forall_forall in Hi. apply Hi in Hin. lia.
  - rewrite enqueue_perm. constructor; [simpl; lia|].
    eapply Forall_impl; [exact Hi|]. simpl. lia.
  - rewrite enqueue_perm. constructor; [|done]. simpl. pose proof (timerDelay_nonneg d). lia.
Qed.

Lemma q_clearTimeout_wf id h : wf h -> wf (clearTimeout id h).2.
Proof.
  intros [Hs Hnd Hi Hf]. split; simpl.
  - by apply StronglySorted_filter.
  - eapply sublist_NoDup; [done|apply fmap_filter_sublist].
  - by apply Forall_filter.
  - by apply Forall_filter.
Qed.

Lemma q_advance_wf dt h : wf h -> wf (advance dt h).2.
Proof.
  intros [Hs Hnd Hi Hf]. unfold advance.
  destruct (split_due_spec (q_now h + Z.max 0 dt) (q_pending h) Hs) as (Happ & Hfired & Hrest).
  destruct (split_due _ _) as [f r]; simpl in *. rewrite Happ in Hs, Hnd, Hi.
  split; simpl.
  - by apply StronglySorted_app_1_r in Hs.
  - rewrite fmap_app in Hnd. by apply NoDup_app in Hnd as (_ & _ & ?).
  - by apply Forall_app in Hi as [_ ?].
  - eapply Forall_impl; [exact Hrest|]. simpl. lia.
Qed.

Lemma view_lookup_elem h i e :
  wf h -> view h !! i = Some e -> Timer i e.1 e.2 ∈ q_pending h.
Proof.
  intros Hwf Hl. destruct e as [d c].
  by apply (view_of_lookup_Some (Timer i d c)); [apply Hwf|].
Qed.

Lemma wf_lookup_issued h i e : wf h -> view h !! i = Some e -> (i < q_next h)%nat.
Proof.
  intros Hwf Hl. pose proof (wf_issued h Hwf) as Hi. rewrite Forall_forall in Hi.
  apply (Hi _ (view_lookup_elem h i e Hwf Hl)).
Qed.

Lemma wf_lookup_future h i e : wf h -> view h !! i = Some e -> q_now h <= e.1.
Proof.
  intros Hwf Hl. pose proof (wf_future h Hwf) as Hf. rewrite Forall_forall in Hf.
  apply (Hf _ (view_lookup_elem h i e Hwf Hl)).
Qed.

Lemma q_setTimeout_view cb d h :
  wf h ->
  view (setTimeout cb d h).2 = <[q_next h := (q_now h + timerDelay d, cb)]> (view h).
Proof.
  intros Hwf. unfold view; simpl. rewrite view_of_enqueue; [done|].
  rewrite <- enqueue_perm. apply (q_setTimeout_wf cb d h Hwf).
Qed.

Lemma q_clearTimeout_view id h : wf h -> view (clearTimeout id h).2 = delete id (view h).
Proof. intros _. apply view_of_clear. Qed.

Lemma q_advance_view dt h :
  wf h ->
  view (advance dt h).2 = filter (fun e => q_now h + Z.max 0 dt < e.2.1) (view h).
Proof.
  intros [Hs Hnd _ _]. unfold advance, view.
  destruct (split_due_spec (q_now h + Z.max 0 dt) (q_pending h) Hs) as (Happ & Hf & Hr).
  destruct (split_due _ _) as [f r]; simpl in *. rewrite Happ in Hnd |- *.
  by apply view_of_partition.
Qed.

Lemma q_advance_fired dt h t :
  wf h ->
  t ∈ (advance dt h).1 <->
  view h !! timer_id t = Some (timer_due t, timer_cb t) /\ timer_due t <= q_now h + Z.max 0 dt.
Proof.
  intros [Hs Hnd _ _]. unfold view. rewrite view_of_lookup_Some by done.
  rewrite <- split_due_fired by done. unfold advance. by destruct (split_due _ _).
Qed.

Lemma q_advance_order dt h : wf h -> StronglySorted fires_before (advance dt h).1.
Proof.
  intros [Hs _ _ _]. unfold advance.
  destruct (split_due_spec (q_now h + Z.max 0 dt) (q_pending h) Hs) as (Happ & _ & _).
  destruct (split_due _ _) as [f r]; simpl in *. rewrite Happ in Hs.
  by apply StronglySorted_app_1_l in Hs.
Qed.

Lemma q_advance_now dt h : q_now (advance dt h).2 = q_now h + Z.max 0 dt.
Proof. unfold advance. by destruct (split_due _ _). Qed.

Lemma advance_next dt h : q_next (advance dt h).2 = q_next h.
Proof. unfold advance. by destruct (split_due _ _). Qed.

End QueueFacts.

#[global] Instance queue_host {C : Type} : TimerHost C (host C) := {|
  th_now := q_now;
  th_issued := q_next;
  th_view := view;
  th_wf := wf;
  th_init := init;
  th_delay := timerDelay;
  Timers.setTimeout := setTimeout;
  Timers.clearTimeout := clearTimeout;
  Timers.advance := advance;
  th_init_wf := q_init_wf;
  th_init_view := eq_refl;
  th_delay_nonneg := timerDelay_nonneg;
  th_delay_small := timerDelay_small;
  th_delay_nonpos := timerDelay_nonpos;
  th_delay_integer := timerDelay_integer;
  th_wf_issued := wf_lookup_issued;
  th_wf_future := wf_lookup_future;
  setTimeout_handle := fun _ _ _ => eq_refl;
  Timers.setTimeout_view := q_setTimeout_view;
  setTimeout_issued := fun _ _ _ => eq_refl;
  setTimeout_now := fun _ _ _ => eq_refl;
  Timers.setTimeout_wf := q_setTimeout_wf;
  Timers.clearTimeout_view := q_clearTimeout_view;
  clearTimeout_issued := fun _ _ => eq_refl;
  clearTimeout_now := fun _ _ => eq_refl;
  Timers.clearTimeout_wf := q_clearTimeout_wf;
  Timers.advance_now := q_advance_now;
  advance_issued := advance_next;
  Timers.advance_view := q_advance_view;
  Timers.advance_fired := q_advance_fired;
  Timers.advance_order := q_advance_order;
  Timers.advance_wf := q_advance_wf;
|}.


End TimerQueue.
