(* ===== verification/TimerTable.v ===== *)
(** * TimerTable: a reference implementation of the timer interface

    [Timers.TimerQueue] keeps its timers in firing order and pays for it
    when a timer is set.  The host of this file is the definition one would
    write first: the pending timers are a finite map from handles to
    entries, setting and clearing are an insert and a delete, and the
    timers that fire are looked for, and put in firing order, when time
    passes.  It satisfies the same interface [TimerHost], so every theorem
    of the component holds on it as well, and [Hosts.v] shows that the two
    cannot be told apart. *)

From stdpp Require Import gmap.
From S2P Require Import Prelude JsNumber Timers.

(** ** The firing order as a total order *)

(** [fires_before] with equal handles allowed: the order a sorting
    function can be run with. *)
Definition fires_no_later {C : Type} (t u : timer C) : Prop :=
  timer_due t < timer_due u \/ (timer_due t = timer_due u /\ (timer_id t <= timer_id u)%nat).

#[export] Instance fires_no_later_dec {C : Type} (t u : timer C) : Decision (fires_no_later t u).
Proof. unfold fires_no_later. apply _. Defined.

#[export] Instance fires_no_later_total {C : Type} : Total (@fires_no_later C).
Proof. intros t u. unfold fires_no_later. lia. Qed.

#[export] Instance fires_no_later_trans {C : Type} : Transitive (@fires_no_later C).
Proof. intros t u v. unfold fires_no_later. lia. Qed.

(** The timer an entry of the table stands for. *)
Definition entry_timer {C : Type} (e : nat * (Z * C)) : timer C :=
  Timer e.1 e.2.1 e.2.2.

Module TimerTable.

Section Table.
Context {C : Type}.

Record host : Type := Host {
  t_now : Z;
  t_next : nat;
  t_table : gmap nat (Z * C);
}.

Definition init : host :=
  {| t_now := 0; t_next := 1; t_table := ∅ |}.

Definition schedule (cb : C) (timeout : number) : State host nat :=
  fun h =>
    (t_next h,
     {| t_now := t_now h; t_next := S (t_next h);
        t_table := <[t_next h := (t_now h + timerDelay timeout, cb)]> (t_table h) |}).

Definition cancel (id : nat) : State host unit :=
  fun h =>
    (tt, {| t_now := t_now h; t_next := t_next h; t_table := delete id (t_table h) |}).

(** The timers of a table that are due by [now], in firing order. *)
Definition due_by (now : Z) (m : gmap nat (Z * C)) : list (timer C) :=
  merge_sort fires_no_later (entry_timer <$> map_to_list (filter (fun e => e.2.1 <= now) m)).

Definition elapse (dt : Z) : State host (list (timer C)) :=
  fun h =>
    let now' := t_now h + Z.max 0 dt in
    (due_by now' (t_table h),
     {| t_now := now'; t_next := t_next h;
        t_table := filter (fun e => now' < e.2.1) (t_table h) |}).

(** Well-formed hosts: handles in use were issued, nothing is overdue. *)
Record wf (h : host) : Prop := Wf {
  wf_issued : map_Forall (fun id _ => (id < t_next h)%nat) (t_table h);
  wf_future : map_Forall (fun _ e => t_now h <= e.1) (t_table h);
}.

End Table.

Arguments host : clear implicits.

(** ** The laws of the interface *)

Section TableFacts.
Context {C : Type}.

Implicit Types (h : host C) (t : timer C) (m : gmap nat (Z * C)).

Lemma t_init_wf : wf (@init C).
Proof. split; apply map_Forall_empty. Qed.

Lemma schedule_wf cb d h : wf h -> wf (schedule cb d h).2.
Proof.
  intros [Hi Hf]. split; simpl; apply map_Forall_insert_2; simpl.
  - lia.
  - eapply map_Forall_impl; [exact Hi|]. simpl. lia.
  - pose proof (timerDelay_nonneg d). lia.
  - done.
Qed.

Lemma cancel_wf id h : wf h -> wf (cancel id h).2.
Proof. intros [Hi Hf]. split; simpl; by apply map_Forall_delete. Qed.

Lemma elapse_wf dt h : wf h -> wf (elapse dt h).2.
Proof.
  intros [Hi Hf]. split; simpl.
  - intros id e [He _]%map_lookup_filter_Some. by apply (Hi id e).
  - intros id e [_ He]%map_lookup_filter_Some. simpl in *. lia.
Qed.

Lemma due_by_elem now m t :
  t ∈ due_by now m <-> m !! timer_id t = Some (timer_due t, timer_cb t) /\ timer_due t <= now.
Proof.
  unfold due_by. rewrite merge_sort_Permutation, list_elem_of_fmap. split.
  - intros ([id [due cb]] & -> & [Hm Hd]%elem_of_map_to_list%map_lookup_filter_Some). done.
  - intros [Hm Hd]. exists (timer_id t, (timer_due t, timer_cb t)). split; [by destruct t|].
    by apply elem_of_map_to_list, map_lookup_filter_Some.
Qed.

Lemma due_by_handles now m : NoDup (timer_id <$> due_by now m).
Proof.
  unfold due_by. rewrite merge_sort_Permutation, <- list_fmap_compose.
  apply (NoDup_fst_map_to_list (filter (fun e => e.2.1 <= now) m)).
Qed.

(** Timers with different handles that fire no later fire before. *)
Lemma fires_before_of_handles (l : list (timer C)) :
  StronglySorted fires_no_later l -> NoDup (timer_id <$> l) -> StronglySorted fires_before l.
Proof.
  induction 1 as [|t l _ IH Hall]; intros Hnd; [constructor|].
  apply NoDup_cons in Hnd as [Hin Hnd]. constructor; [by apply IH|].
  apply Forall_forall. intros u Hu. rewrite Forall_forall in Hall.
  assert (timer_id t <> timer_id u) by (intros Heq; apply Hin; rewrite Heq; by apply list_elem_of_fmap_2).
  specialize (Hall u Hu). unfold fires_no_later, fires_before in *. lia.
Qed.

Lemma due_by_order now m : StronglySorted fires_before (due_by now m).
Proof.
  apply fires_before_of_handles; [|apply due_by_handles].
  apply (StronglySorted_merge_sort _).
Qed.

End TableFacts.

#[global] Instance table_host {C : Type} : TimerHost C (host C) := {|
  th_now := t_now;
  th_issued := t_next;
  th_view := t_table;
  th_wf := wf;
  th_init := init;
  th_delay := timerDelay;
  setTimeout := schedule;
  clearTimeout := cancel;
  advance := elapse;
  th_init_wf := t_init_wf;
  th_init_view := eq_refl;
  th_delay_nonneg := timerDelay_nonneg;
  th_delay_small := timerDelay_small;
  th_delay_nonpos := timerDelay_nonpos;
  th_delay_integer := timerDelay_integer;
  th_wf_issued := fun h id e Hwf Hl => wf_issued h Hwf id e Hl;
  th_wf_future := fun h id e Hwf Hl => wf_future h Hwf id e Hl;
  setTimeout_handle := fun _ _ _ => eq_refl;
  setTimeout_view := fun _ _ _ _ => eq_refl;
  setTimeout_issued := fun _ _ _ => eq_refl;
  setTimeout_now := fun _ _ _ => eq_refl;
  setTimeout_wf := schedule_wf;
  clearTimeout_view := fun _ _ _ => eq_refl;
  clearTimeout_issued := fun _ _ => eq_refl;
  clearTimeout_now := fun _ _ => eq_refl;
  clearTimeout_wf := cancel_wf;
  advance_now := fun _ _ => eq_refl;
  advance_issued := fun _ _ => eq_refl;
  advance_view := fun _ _ _ => eq_refl;
  advance_fired := fun dt h t _ => due_by_elem _ _ t;
  advance_order := fun dt h _ => due_by_order _ _;
  advance_wf := elapse_wf;
|}.

End TimerTable.
