(* ===== verification/Debounce.v ===== *)
(** * Debounce: [useDebounce] (src/src/useDebounce.ts)

    The hook memoises the caller's [effect] under the caller's [deps]
    ([useCallback]) and registers one effect whose dependencies are the
    memoised callback and the delay ([useEffect]).  Each run of the effect
    schedules a timer that calls the memoised callback; its cleanup cancels
    that timer.

    The file gives the hook as a render function over its two slots, the
    closures it creates as records of what they capture, and the component
    that uses the hook as a system driven by three events: the host renders
    the component, the host unmounts it, time passes.  The theorems are
    proved against the timer interface [TimerHost]. *)

From stdpp Require Import gmap strings.
From S2P Require Import Prelude JsNumber React Timers.

(** ** The closures the hook creates *)

(** [() => { callback(); }], the function handed to [setTimeout]. *)
Record TimerCallback : Type := {
  tc_callback : ref;
}.

(** [() => { clearTimeout(handler); }], the cleanup the effect returns. *)
Record Cleanup : Type := {
  cl_handler : nat;
}.

(** The effect function passed to [useEffect]; it captures the memoised
    callback and the delay of the render that created it. *)
Record Create : Type := {
  cr_callback : ref;
  cr_delay : number;
}.

#[export] Instance TimerCallback_eq_dec : EqDecision TimerCallback.
Proof. solve_decision. Defined.
#[export] Instance Cleanup_eq_dec : EqDecision Cleanup.
Proof. solve_decision. Defined.

(** ** The hook *)

(** The slots of the hook, in call order. *)
Record DebounceFiber : Type := {
  callbackHook : CallbackHook ref;
  effectHook : EffectHook Cleanup;
}.

(** The dependency array of the effect: [[callback, delay]]. *)
Definition effectDeps (callback : ref) (delay : number) : list val :=
  [VRef callback; VNum delay].
Arguments effectDeps : simpl never.

(** The render: what [useDebounce(effect, delay, deps)] computes from the
    slots of the previous render. *)
Definition useDebounce (prev : option DebounceFiber) (effect : ref) (delay : number) (deps : list val) : CallbackHook ref * Effect Create Cleanup :=
  let cbHook := useCallback (callbackHook <$> prev) effect deps in
  let callback := memoizedCallback cbHook in
  let eff :=
    useEffect (effectHook <$> prev)
      {| cr_callback := callback; cr_delay := delay |}
      (effectDeps callback delay) in
  (cbHook, eff).

Section Hook.
Context {H : Type} `{!TimerHost TimerCallback H}.

(** Running the cleanup. *)
Definition runCleanup (c : Cleanup) : State H unit :=
  clearTimeout (cl_handler c).

(** Running the effect function. *)
Definition runCreate (c : Create) : State H (option Cleanup) :=
  let* handler := setTimeout {| tc_callback := cr_callback c |} (cr_delay c) in
  st_ret (Some {| cl_handler := handler |}).

(** ** The component as a system *)

(** The host's timers, the slots of the hook while the component is
    mounted, and the calls made so far: at which time, which function. *)
Record System : Type := {
  host : H;
  fiber : option DebounceFiber;
  calls : list (Z * ref);
}.

Inductive event : Type :=
| Render (effect : ref) (delay : number) (deps : list val)
| Unmount
| Advance (dt : Z).

Definition initial : System :=
  {| host := th_init; fiber := None; calls := [] |}.

(** A render followed by its commit. *)
Definition render (effect : ref) (delay : number) (deps : list val) (s : System) : System :=
  let (cbHook, eff) := useDebounce (fiber s) effect delay deps in
  let (effHook, host') := commitEffect runCreate runCleanup eff (host s) in
  {| host := host';
     fiber := Some {| callbackHook := cbHook; effectHook := effHook |};
     calls := calls s |}.

(** Unmounting runs the cleanup and drops the slots. *)
Definition unmount (s : System) : System :=
  match fiber s with
  | None => s
  | Some f =>
      {| host := st_exec (unmountEffect runCleanup (effectHook f)) (host s);
         fiber := None;
         calls := calls s |}
  end.

(** What a timer of the hook does when it fires: it calls the callback it
    captured. *)
Definition invoke (t : timer TimerCallback) : Z * ref :=
  (timer_due t, tc_callback (timer_cb t)).

(** Time passes: the timers that come due fire in order. *)
Definition tick (dt : Z) (s : System) : System :=
  let (fired, host') := advance dt (host s) in
  {| host := host'; fiber := fiber s; calls := calls s ++ (invoke <$> fired) |}.

Definition step (s : System) (e : event) : System :=
  match e with
  | Render effect delay deps => render effect delay deps s
  | Unmount => unmount s
  | Advance dt => tick dt s
  end.

Definition run (s : System) (es : list event) : System :=
  foldl step s es.

(** The states the component can be in. *)
Definition reachable (s : System) : Prop :=
  exists es, s = run initial es.

(** ** Vocabulary of the specification *)

(** The callback a render returns from [useCallback], and whether the render
    makes the effect run again: the decision is the runtime's, from the
    dependency array [[callback, delay]]. *)
Definition nextCallback (prev : option DebounceFiber) (effect : ref) (deps : list val) : ref :=
  memoizedCallback (useCallback (callbackHook <$> prev) effect deps).

Definition rearms (prev : option DebounceFiber) (effect : ref) (delay : number) (deps : list val) : bool :=
  e_hasEffect (useDebounce prev effect delay deps).2.

(** The commit of a registration: cancel the timer of the previous one,
    schedule the next. *)
Definition register (prev : option Cleanup) (callback : ref) (delay : number) (h : H) : H :=
  (setTimeout {| tc_callback := callback |} delay
     (st_exec (commitHookEffectListUnmount runCleanup prev) h)).2.

(** The pending timers once the cleanup [prev] has run. *)
Definition cancelled (prev : option Cleanup) (m : gmap nat (Z * TimerCallback)) : gmap nat (Z * TimerCallback) :=
  match prev with
  | Some c => delete (cl_handler c) m
  | None => m
  end.

Definition isRender (e : event) : bool :=
  match e with
  | Render _ _ _ => true
  | _ => false
  end.

(** *** The invariant

    While the component is mounted its effect slot holds the dependencies
    [[callback, delay]] of the memoised callback and the cleanup of the
    timer [handler]; the host has no timer pending, or exactly that one,
    which calls the memoised callback and is due within the delay.  Once
    unmounted, no timer is pending. *)

Definition registered (f : DebounceFiber) (handler : nat) (delay : number) : Prop :=
  effectHook f =
    {| eff_deps := effectDeps (memoizedCallback (callbackHook f)) delay;
       eff_destroy := Some {| cl_handler := handler |} |}.

Definition pending_of (f : DebounceFiber) (handler : nat) (delay : number) (h : H) : Prop :=
  th_view h = ∅ \/
  exists due,
    th_view h = {[handler := (due, {| tc_callback := memoizedCallback (callbackHook f) |})]} /\
    due <= th_now h + th_delay delay.

Definition owned (f : DebounceFiber) (h : H) : Prop :=
  exists handler delay,
    registered f handler delay /\ (handler < th_issued h)%nat /\ pending_of f handler delay h.

Record Inv (s : System) : Prop := {
  inv_wf : th_wf (host s);
  inv_fiber :
    match fiber s with
    | None => th_view (host s) = ∅
    | Some f => owned f (host s)
    end;
}.

(** *** Bursts

    A burst is a sequence of registrations, each followed by a wait. *)

Record Registration : Type := {
  reg_effect : ref;
  reg_delay : number;
  reg_deps : list val;
  reg_wait : Z;
}.

Definition registers (r : Registration) : list event :=
  [Render (reg_effect r) (reg_delay r) (reg_deps r); Advance (reg_wait r)].

Definition burst (rs : list Registration) : list event :=
  rs ≫= registers.

(** Every registration of the burst re-arms the hook and is followed by
    less than its delay. *)
Fixpoint impatient (s : System) (rs : list Registration) : Prop :=
  match rs with
  | [] => True
  | r :: rs' =>
      rearms (fiber s) (reg_effect r) (reg_delay r) (reg_deps r) = true /\
      Z.max 0 (reg_wait r) < th_delay (reg_delay r) /\
      impatient (run s (registers r)) rs'
  end.

(** The time a burst takes. *)
Definition elapsed (rs : list Registration) : Z :=
  foldr (fun r acc => Z.max 0 (reg_wait r) + acc) 0 rs.

(** ** The render, case by case *)

Implicit Types (s : System) (f : DebounceFiber) (h : H).

Lemma effectDeps_equal cb d cb' d' :
  areHookInputsEqual (effectDeps cb' d') (effectDeps cb d) = bool_decide (cb' = cb /\ d' = d).
Proof.
  unfold effectDeps. rewrite bool_decide_and. cbn. unfold objectIs.
  rewrite andb_true_r. f_equal; apply bool_decide_ext; naive_solver.
Qed.

Lemma render_mount effect delay deps s :
  fiber s = None ->
  render effect delay deps s =
  {| host := register None effect delay (host s);
     fiber := Some {|
       callbackHook := {| memoizedCallback := effect; callbackDeps := deps |};
       effectHook := {| eff_deps := effectDeps effect delay;
                        eff_destroy := Some {| cl_handler := th_issued (host s) |} |} |};
     calls := calls s |}.
Proof.
  intros Hf. unfold render, useDebounce, register. rewrite Hf; simpl.
  unfold commitEffect, runCreate; simpl. st_unfold; simpl.
  rewrite <- (setTimeout_handle {| tc_callback := effect |} delay (host s)).
  by destruct (setTimeout _ _ _).
Qed.

Lemma render_update effect delay deps s f handler delay0 :
  fiber s = Some f ->
  registered f handler delay0 ->
  let cbHook := useCallback (Some (callbackHook f)) effect deps in
  let cb := memoizedCallback cbHook in
  render effect delay deps s =
  if decide (cb = memoizedCallback (callbackHook f) /\ delay = delay0) then
    {| host := host s;
       fiber := Some {| callbackHook := cbHook; effectHook := effectHook f |};
       calls := calls s |}
  else
    {| host := register (Some {| cl_handler := handler |}) cb delay (host s);
       fiber := Some {|
         callbackHook := cbHook;
         effectHook := {| eff_deps := effectDeps cb delay;
                          eff_destroy := Some {| cl_handler := th_issued (host s) |} |} |};
       calls := calls s |}.
Proof.
  intros Hf Hreg cbHook cb. unfold render, useDebounce, register. rewrite Hf.
  cbn [fmap option_fmap option_map]. fold cbHook. fold cb.
  unfold useEffect, commitEffect. rewrite Hreg. cbn [eff_deps eff_destroy e_hasEffect e_destroy e_create e_deps].
  rewrite effectDeps_equal. case_bool_decide as Hsame; cbn [negb].
  - rewrite decide_True by done. by destruct Hsame as [-> ->].
  - rewrite decide_False by done. unfold runCreate, runCleanup. st_unfold; simpl.
    destruct (clearTimeout handler (host s)) as [[] h1] eqn:E1; simpl.
    rewrite <- (clearTimeout_issued handler (host s)), E1; simpl.
    rewrite <- (setTimeout_handle {| tc_callback := cb |} delay h1).
    by destruct (setTimeout _ _ h1).
Qed.

Lemma unmount_hook_view prev h :
  th_wf h ->
  let h' := st_exec (commitHookEffectListUnmount runCleanup prev) h in
  th_wf h' /\ th_view h' = cancelled prev (th_view h) /\
  th_now h' = th_now h /\ th_issued h' = th_issued h.
Proof.
  intros Hwf. destruct prev as [c|]; simpl; [|done]. unfold st_exec, runCleanup.
  split_and!; [by apply clearTimeout_wf | by apply clearTimeout_view
              | apply clearTimeout_now | apply clearTimeout_issued].
Qed.

Lemma register_spec prev cb delay h :
  th_wf h ->
  let h' := register prev cb delay h in
  th_wf h' /\
  th_view h' = <[th_issued h := (th_now h + th_delay delay, {| tc_callback := cb |})]> (cancelled prev (th_view h)) /\
  th_now h' = th_now h /\ th_issued h' = S (th_issued h).
Proof.
  intros Hwf. unfold register.
  destruct (unmount_hook_view prev h Hwf) as (Hwf1 & Hv1 & Hn1 & Hi1).
  split_and!.
  - by apply setTimeout_wf.
  - by rewrite setTimeout_view, Hv1, Hn1, Hi1.
  - by rewrite setTimeout_now.
  - by rewrite setTimeout_issued, Hi1.
Qed.

Lemma cancelled_pending f handler delay h :
  pending_of f handler delay h -> cancelled (Some {| cl_handler := handler |}) (th_view h) = ∅.
Proof.
  intros [Hv|(due & Hv & _)]; simpl; rewrite Hv; [apply delete_empty|apply delete_singleton_eq].
Qed.

(** *** The invariant holds in every reachable state *)
Lemma owned_fresh cbHook delay h h' :
  th_view h' = {[th_issued h := (th_now h + th_delay delay, {| tc_callback := memoizedCallback cbHook |})]} ->
  th_now h' = th_now h ->
  th_issued h' = S (th_issued h) ->
  owned
    {| callbackHook := cbHook;
       effectHook := {| eff_deps := effectDeps (memoizedCallback cbHook) delay;
                        eff_destroy := Some {| cl_handler := th_issued h |} |} |} h'.
Proof.
  intros Hv Hn Hi. exists (th_issued h), delay. split_and!; [done | lia |].
  right. eexists. split; [exact Hv|]. simpl. lia.
Qed.

Lemma register_fresh prev cb delay h :
  th_wf h ->
  cancelled prev (th_view h) = ∅ ->
  let h' := register prev cb delay h in
  th_wf h' /\
  th_view h' = {[th_issued h := (th_now h + th_delay delay, {| tc_callback := cb |})]} /\
  th_now h' = th_now h /\ th_issued h' = S (th_issued h).
Proof.
  intros Hwf Hc. destruct (register_spec prev cb delay h Hwf) as (? & Hv & ? & ?).
  rewrite Hc, insert_empty in Hv. done.
Qed.

Lemma Inv_initial : Inv initial.
Proof. split; [apply th_init_wf | apply th_init_view]. Qed.

Lemma Inv_render effect delay deps s : Inv s -> Inv (render effect delay deps s).
Proof.
  intros [Hwf Hfib]. destruct (fiber s) as [f|] eqn:Hf.
  - destruct Hfib as (handler & delay0 & Hreg & Hlt & Hpend).
    rewrite (render_update _ _ _ _ _ _ _ Hf Hreg). case_decide as Hsame.
    + split; [done|]. cbn [fiber host]. destruct Hsame as [Hcb ->].
      exists handler, delay0. unfold registered, pending_of in *.
      cbn [callbackHook effectHook]. by rewrite Hcb.
    + destruct (register_fresh (Some {| cl_handler := handler |})
        (memoizedCallback (useCallback (Some (callbackHook f)) effect deps)) delay (host s) Hwf)
        as (? & ? & ? & ?); [by eapply cancelled_pending|].
      split; [done|]. by apply owned_fresh.
  - rewrite (render_mount _ _ _ _ Hf).
    destruct (register_fresh None effect delay (host s) Hwf) as (? & ? & ? & ?); [done|].
    split; [done|]. by apply (owned_fresh {| memoizedCallback := effect; callbackDeps := deps |}).
Qed.

Lemma Inv_unmount s : Inv s -> Inv (unmount s).
Proof.
  intros [Hwf Hfib]. unfold unmount. destruct (fiber s) as [f|] eqn:Hf; [|by split; [|rewrite Hf]].
  destruct Hfib as (handler & delay0 & Hreg & Hlt & Hpend). unfold unmountEffect.
  rewrite Hreg; cbn [eff_destroy].
  destruct (unmount_hook_view (Some {| cl_handler := handler |}) (host s) Hwf) as (? & Hv & _).
  split; [done|]. cbn [host fiber]. rewrite Hv. by eapply cancelled_pending.
Qed.

Lemma pending_of_advance f handler delay dt h :
  th_wf h -> pending_of f handler delay h -> pending_of f handler delay (advance dt h).2.
Proof.
  intros Hwf [Hv|(due & Hv & Hdue)].
  - left. by apply advance_view_none.
  - unfold pending_of. rewrite (advance_view_single dt h _ _ _ Hwf Hv), advance_now.
    case_decide; [by left|right]. exists due. split; [done|]. lia.
Qed.

Lemma Inv_tick dt s : Inv s -> Inv (tick dt s).
Proof.
  intros [Hwf Hfib]. unfold tick.
  pose proof (advance_wf dt (host s) Hwf) as Hwf'.
  pose proof (advance_issued dt (host s)) as Hi.
  destruct (fiber s) as [f|] eqn:Hf.
  - destruct Hfib as (handler & delay0 & Hreg & Hlt & Hpend).
    pose proof (pending_of_advance f handler delay0 dt (host s) Hwf Hpend) as Hp'.
    destruct (advance dt (host s)) as [fired h']; simpl in *.
    split; simpl; [done|]. exists handler, delay0. split_and!; [done|lia|done].
  - pose proof (advance_view_none dt (host s) Hwf Hfib) as Hv'.
    destruct (advance dt (host s)) as [fired h']; simpl in *.
    by split.
Qed.

Lemma Inv_step s e : Inv s -> Inv (step s e).
Proof. destruct e; simpl; [apply Inv_render | apply Inv_unmount | apply Inv_tick]. Qed.

Lemma Inv_run s es : Inv s -> Inv (run s es).
Proof. apply (foldl_invariant step Inv), Inv_step. Qed.

Lemma reachable_Inv s : reachable s -> Inv s.
Proof. intros [es ->]. apply Inv_run, Inv_initial. Qed.

Lemma Inv_single s : Inv s -> (size (th_view (host s)) <= 1)%nat.
Proof.
  intros [Hwf Hfib]. destruct (fiber s) as [f|].
  - destruct Hfib as (handler & delay & _ & _ & [Hv|(due & Hv & _)]); rewrite Hv.
    + rewrite map_size_empty. lia.
    + rewrite map_size_singleton. lia.
  - rewrite Hfib, map_size_empty. lia.
Qed.

(** C3: in every state the component can reach, the host holds at most one
    pending timer: a registration never leaves the timer of an earlier one
    outstanding. *)
Theorem single_timer s : reachable s -> (size (th_view (host s)) <= 1)%nat.
Proof. intros Hinv%reachable_Inv. by apply Inv_single. Qed.

(** C30: a timer that is pending belongs to the mounted component: its handle
    is the one the current cleanup cancels, it calls the callback that is
    memoised now, and it is due no earlier than now and no later than the
    registered delay from now. *)
Theorem pending_is_current s id due cb :
  reachable s ->
  th_view (host s) !! id = Some (due, cb) ->
  exists f delay,
    fiber s = Some f /\
    registered f id delay /\
    tc_callback cb = memoizedCallback (callbackHook f) /\
    th_now (host s) <= due <= th_now (host s) + th_delay delay.
Proof.
  intros [Hwf Hfib]%reachable_Inv Hl. pose proof (th_wf_future _ _ _ Hwf Hl) as Hfut.
  destruct (fiber s) as [f|]; [|by rewrite Hfib in Hl].
  destruct Hfib as (handler & delay & Hreg & _ & [Hv|(due' & Hv & Hdue)]); rewrite Hv in Hl; [done|].
  apply lookup_singleton_Some in Hl as [<- [= <- <-]]. by exists f, delay.
Qed.

(** *** Time passing *)
(** A render and an unmount make no call; time leaves the slots alone. *)
Lemma render_calls effect delay deps s : calls (render effect delay deps s) = calls s.
Proof.
  unfold render. destruct (useDebounce _ _ _ _) as [cbHook eff].
  by destruct (commitEffect _ _ _ _).
Qed.

Lemma unmount_calls s : calls (unmount s) = calls s.
Proof. unfold unmount. by destruct (fiber s). Qed.

Lemma tick_fiber dt s : fiber (tick dt s) = fiber s.
Proof. unfold tick. by destruct (advance dt (host s)). Qed.

Lemma tick_eq dt s :
  tick dt s =
  {| host := (advance dt (host s)).2; fiber := fiber s;
     calls := calls s ++ (invoke <$> (advance dt (host s)).1) |}.
Proof. unfold tick. by destruct (advance dt (host s)). Qed.

Lemma tick_idle dt s :
  th_wf (host s) -> th_view (host s) = ∅ ->
  calls (tick dt s) = calls s /\ th_view (host (tick dt s)) = ∅ /\ fiber (tick dt s) = fiber s.
Proof.
  intros Hwf Hv. unfold tick.
  pose proof (advance_none dt _ Hwf Hv) as Hfired. pose proof (advance_view_none dt _ Hwf Hv) as Hv'.
  destruct (advance dt (host s)) as [fired h']; simpl in *. subst fired. by rewrite app_nil_r.
Qed.

Lemma tick_armed dt s id due cb :
  th_wf (host s) -> th_view (host s) = {[id := (due, cb)]} ->
  tick dt s =
  if decide (due <= th_now (host s) + Z.max 0 dt) then
    {| host := (advance dt (host s)).2; fiber := fiber s; calls := calls s ++ [(due, tc_callback cb)] |}
  else
    {| host := (advance dt (host s)).2; fiber := fiber s; calls := calls s |}.
Proof.
  intros Hwf Hv. unfold tick. pose proof (advance_single dt _ _ _ _ Hwf Hv) as Hfired.
  destruct (advance dt (host s)) as [fired h']; simpl in *. subst fired.
  case_decide; simpl; [done|]. by rewrite app_nil_r.
Qed.

(** *** Disposal *)
Lemma unmount_spec s :
  Inv s -> fiber (unmount s) = None /\ th_view (host (unmount s)) = ∅ /\ calls (unmount s) = calls s.
Proof.
  intros Hinv. pose proof (Inv_unmount s Hinv) as [_ Hfib]. unfold unmount in *.
  destruct (fiber s) as [f|] eqn:Hf; simpl in *; [done|]. by rewrite Hf in *.
Qed.

Lemma disposed_run s es :
  Inv s -> fiber s = None -> Forall (fun e => isRender e = false) es ->
  calls (run s es) = calls s /\ fiber (run s es) = None.
Proof.
  revert s. induction es as [|e es IH]; intros s Hinv Hf Hes; [done|].
  apply Forall_cons in Hes as [He Hes]. simpl.
  destruct e as [| |dt]; [done| |]; simpl.
  - destruct (unmount_spec s Hinv) as (? & ? & Hc). rewrite <- Hc.
    apply IH; [by apply Inv_unmount|done..].
  - destruct Hinv as [Hwf Hfib]. pose proof Hfib as Hv. rewrite Hf in Hv.
    destruct (tick_idle dt s Hwf Hv) as (Hc & _ & Hf'). rewrite <- Hc.
    apply IH; [by apply Inv_tick|by rewrite Hf'|done].
Qed.

(** C1: once the component is unmounted the action is never called again:
    whatever time passes afterwards, the calls are those made before the
    unmount. *)
Theorem no_call_after_unmount s es :
  reachable s ->
  Forall (fun e => isRender e = false) es ->
  calls (run (unmount s) es) = calls s.
Proof.
  intros Hinv%reachable_Inv Hes. destruct (unmount_spec s Hinv) as (Hf & _ & Hc).
  rewrite <- Hc. apply disposed_run; [by apply Inv_unmount|done..].
Qed.

Lemma rearms_update f handler delay0 effect delay deps :
  registered f handler delay0 ->
  rearms (Some f) effect delay deps =
  negb (bool_decide (nextCallback (Some f) effect deps = memoizedCallback (callbackHook f) /\ delay = delay0)).
Proof.
  intros Hreg. unfold rearms, nextCallback, useDebounce, useEffect.
  cbn [fmap option_fmap option_map snd e_hasEffect]. rewrite Hreg. cbn [eff_deps].
  by rewrite effectDeps_equal.
Qed.

(** A render that re-arms (the first render, or one whose memoised callback
    or delay differs from the previous render's) leaves exactly one timer
    pending: a fresh one, due [delay] after now, that calls the callback
    memoised by this render.  No call is made by the render. *)
Lemma render_rearm effect delay deps s :
  Inv s ->
  rearms (fiber s) effect delay deps = true ->
  let s' := render effect delay deps s in
  th_view (host s') =
    {[th_issued (host s) :=
        (th_now (host s) + th_delay delay, {| tc_callback := nextCallback (fiber s) effect deps |})]} /\
  th_now (host s') = th_now (host s) /\ calls s' = calls s.
Proof.
  intros [Hwf Hfib] Hre. destruct (fiber s) as [f|] eqn:Hf.
  - destruct Hfib as (handler & delay0 & Hreg & Hlt & Hpend).
    rewrite (rearms_update _ _ _ _ _ _ Hreg) in Hre. apply negb_true_iff, bool_decide_eq_false in Hre.
    cbn zeta. rewrite (render_update _ _ _ _ _ _ _ Hf Hreg), decide_False by done.
    destruct (register_fresh (Some {| cl_handler := handler |})
      (nextCallback (Some f) effect deps) delay (host s) Hwf) as (? & ? & ? & ?);
      [by eapply cancelled_pending|done].
  - cbn zeta. rewrite (render_mount _ _ _ _ Hf).
    by destruct (register_fresh None effect delay (host s) Hwf) as (? & ? & ? & ?).
Qed.

(** C4: cancel, then schedule.  When a render re-arms while a timer is
    pending, that timer is gone after the commit and the timer of the new
    registration is pending under a fresh handle, due [delay] after now. *)
Theorem rearm_cancels_previous effect delay deps s id e :
  reachable s ->
  th_view (host s) !! id = Some e ->
  rearms (fiber s) effect delay deps = true ->
  let s' := render effect delay deps s in
  th_view (host s') !! id = None /\
  th_view (host s') !! th_issued (host s) =
    Some (th_now (host s) + th_delay delay, {| tc_callback := nextCallback (fiber s) effect deps |}).
Proof.
  intros Hinv%reachable_Inv Hl Hre. pose proof (th_wf_issued _ _ _ (inv_wf s Hinv) Hl) as Hlt.
  destruct (render_rearm effect delay deps s Hinv Hre) as (Hv & _). cbn zeta. rewrite Hv.
  split; [apply lookup_singleton_ne; lia | apply lookup_singleton_eq].
Qed.

Lemma render_idle effect delay deps s :
  Inv s ->
  rearms (fiber s) effect delay deps = false ->
  host (render effect delay deps s) = host s /\ calls (render effect delay deps s) = calls s.
Proof.
  intros [Hwf Hfib] Hre. destruct (fiber s) as [f|] eqn:Hf; [|done].
  destruct Hfib as (handler & delay0 & Hreg & _).
  rewrite (rearms_update _ _ _ _ _ _ Hreg) in Hre. apply negb_false_iff, bool_decide_eq_true in Hre.
  by rewrite (render_update _ _ _ _ _ _ _ Hf Hreg), decide_True.
Qed.

(** Passing the function that is already memoised keeps it memoised,
    whatever the keys, and with the delay of the previous render does not
    re-arm. *)
Lemma nextCallback_stable f deps :
  nextCallback (Some f) (memoizedCallback (callbackHook f)) deps = memoizedCallback (callbackHook f).
Proof. unfold nextCallback; simpl. by case_match. Qed.

Lemma rearms_stable f handler delay deps :
  registered f handler delay ->
  rearms (Some f) (memoizedCallback (callbackHook f)) delay deps = false.
Proof.
  intros Hreg. rewrite (rearms_update _ _ _ _ _ _ Hreg), nextCallback_stable.
  by rewrite bool_decide_eq_true_2.
Qed.

(** Keys that compare equal keep the function that is memoised, whatever
    function the render passes. *)
Lemma nextCallback_same_keys f effect deps :
  areHookInputsEqual deps (callbackDeps (callbackHook f)) = true ->
  nextCallback (Some f) effect deps = memoizedCallback (callbackHook f).
Proof. intros Hk. unfold nextCallback; simpl. by rewrite Hk. Qed.

(** C29: the same keys and the same delay do not postpone the call.  A
    render that passes keys equal to those of the previous render and the
    delay of the previous render leaves the timers and the calls alone,
    whatever function it passes, a function object created by that very
    render included: the pending call is not postponed, and the function it
    will call is the one memoised earlier, not the one passed now. *)
Theorem render_keep s f effect delay deps :
  fiber s = Some f ->
  areHookInputsEqual deps (callbackDeps (callbackHook f)) = true ->
  eff_deps (effectHook f) = effectDeps (memoizedCallback (callbackHook f)) delay ->
  let s' := render effect delay deps s in
  host s' = host s /\ calls s' = calls s /\
  nextCallback (fiber s) effect deps = memoizedCallback (callbackHook f).
Proof.
  intros Hf Hk Hdeps. cbn zeta. rewrite render_calls, Hf, (nextCallback_same_keys f effect deps Hk).
  split_and!; [|done..]. unfold render, useDebounce. rewrite Hf. cbn [fmap option_fmap option_map].
  rewrite commitEffect_skip; [done|]. cbn [e_hasEffect useEffect]. rewrite Hdeps.
  change (memoizedCallback (useCallback (Some (callbackHook f)) effect deps))
    with (nextCallback (Some f) effect deps).
  rewrite (nextCallback_same_keys f effect deps Hk), effectDeps_equal.
  by rewrite bool_decide_eq_true_2.
Qed.

(** C36: the keys alone do not re-arm.  When the caller passes the function
    object that is already memoised, with the delay of the previous render,
    the render leaves the timers alone whatever the new keys are: the
    effect depends on the callback's identity, not on the keys. *)
Theorem stable_effect_ignores_keys s f delay deps :
  reachable s ->
  fiber s = Some f ->
  eff_deps (effectHook f) = effectDeps (memoizedCallback (callbackHook f)) delay ->
  let s' := render (memoizedCallback (callbackHook f)) delay deps s in
  host s' = host s /\ calls s' = calls s /\
  nextCallback (fiber s) (memoizedCallback (callbackHook f)) deps = memoizedCallback (callbackHook f).
Proof.
  intros [Hwf Hfib]%reachable_Inv Hf Hdeps. rewrite Hf in Hfib.
  destruct Hfib as (handler & delay0 & Hreg & _).
  assert (delay0 = delay) as ->.
  { rewrite Hreg in Hdeps. unfold effectDeps in Hdeps. by simplify_eq/=. }
  pose proof (nextCallback_stable f deps) as Hcb.
  cbn zeta. rewrite (render_update _ _ _ _ _ _ _ Hf Hreg), Hf.
  unfold nextCallback in Hcb; simpl in Hcb. by rewrite decide_True.
Qed.

(** C23: new keys with a new function re-register.  A render that passes
    keys that differ from those of the previous render, with a function
    object other than the one memoised, cancels whatever was pending and
    leaves exactly one timer: a fresh one, due [delay] after now, that will
    call the function passed now.  No call is made by the render. *)
Theorem keys_change_rearms s f effect delay deps :
  reachable s ->
  fiber s = Some f ->
  areHookInputsEqual deps (callbackDeps (callbackHook f)) = false ->
  effect ≠ memoizedCallback (callbackHook f) ->
  let s' := render effect delay deps s in
  th_view (host s') =
    {[th_issued (host s) := (th_now (host s) + th_delay delay, {| tc_callback := effect |})]} /\
  calls s' = calls s.
Proof.
  intros Hinv%reachable_Inv Hf Hk Hne. pose proof Hinv as [_ Hfib]. rewrite Hf in Hfib.
  destruct Hfib as (handler & delay0 & Hreg & _).
  assert (nextCallback (fiber s) effect deps = effect) as Hcb.
  { rewrite Hf. unfold nextCallback; simpl. by rewrite Hk. }
  assert (rearms (fiber s) effect delay deps = true) as Hre.
  { rewrite <- Hcb in Hne. rewrite Hf in *. rewrite (rearms_update _ _ _ _ _ _ Hreg).
    apply negb_true_iff, bool_decide_eq_false. by intros [? _]. }
  destruct (render_rearm effect delay deps s Hinv Hre) as (Hv & _ & Hc). by rewrite Hcb in Hv.
Qed.

(** C35: the delay is compared as a number, not as the host reads it.  A render
    with a delay that is another number than the delay of the previous
    render re-arms, even when the host makes the same timeout of both
    ([0] and [-0], [100] and [100.5]): the pending call is postponed to
    [delay] after now. *)
Theorem delay_change_rearms s f delay0 effect delay deps :
  reachable s ->
  fiber s = Some f ->
  eff_deps (effectHook f) = effectDeps (memoizedCallback (callbackHook f)) delay0 ->
  delay ≠ delay0 ->
  rearms (fiber s) effect delay deps = true /\
  th_view (host (render effect delay deps s)) =
    {[th_issued (host s) :=
        (th_now (host s) + th_delay delay, {| tc_callback := nextCallback (fiber s) effect deps |})]}.
Proof.
  intros Hinv%reachable_Inv Hf Hdeps Hne. pose proof Hinv as [_ Hfib]. rewrite Hf in Hfib.
  destruct Hfib as (handler & delay0' & Hreg & _).
  assert (delay0' = delay0) as ->.
  { rewrite Hreg in Hdeps. unfold effectDeps in Hdeps. by simplify_eq/=. }
  assert (rearms (fiber s) effect delay deps = true) as Hre.
  { rewrite Hf, (rearms_update _ _ _ _ _ _ Hreg). apply negb_true_iff, bool_decide_eq_false.
    by intros [_ ?]. }
  split; [done|]. by destruct (render_rearm effect delay deps s Hinv Hre) as (-> & _).
Qed.

(** *** Debouncing *)
Lemma run_app s es1 es2 : run s (es1 ++ es2) = run (run s es1) es2.
Proof. apply foldl_app. Qed.

Lemma debounce_step effect delay deps dt s :
  Inv s ->
  rearms (fiber s) effect delay deps = true ->
  let s' := run s [Render effect delay deps; Advance dt] in
  th_now (host s') = th_now (host s) + Z.max 0 dt /\
  calls s' =
    if decide (th_delay delay <= Z.max 0 dt)
    then calls s ++ [(th_now (host s) + th_delay delay, nextCallback (fiber s) effect deps)]
    else calls s.
Proof.
  intros Hinv Hre. destruct (render_rearm effect delay deps s Hinv Hre) as (Hv & Hn & Hc).
  pose proof (Inv_render effect delay deps s Hinv) as [Hwf' _].
  cbn zeta. cbn [run foldl step]. rewrite (tick_armed dt _ _ _ _ Hwf' Hv), Hn.
  pose proof (advance_now dt (host (render effect delay deps s))) as Hn'. rewrite Hn in Hn'.
  repeat case_decide; try lia; simpl; rewrite Hc; by split.
Qed.

(** From any reachable state, a re-arming render followed by at least the
    delay makes exactly one call: the callback memoised by that render, at
    the time of the render plus the delay.  A timer pending from an earlier
    registration makes none. *)
Theorem debounce_fires effect delay deps dt s :
  reachable s ->
  rearms (fiber s) effect delay deps = true ->
  th_delay delay <= dt ->
  calls (run s [Render effect delay deps; Advance dt]) =
  calls s ++ [(th_now (host s) + th_delay delay, nextCallback (fiber s) effect deps)].
Proof.
  intros Hinv%reachable_Inv Hre Hdt. pose proof (th_delay_nonneg delay).
  destruct (debounce_step effect delay deps dt s Hinv Hre) as [_ ->].
  rewrite decide_True; [done|lia].
Qed.

(** As long as less than the delay has passed since a re-arming render,
    no call is made. *)
Theorem debounce_waits effect delay deps dt s :
  reachable s ->
  rearms (fiber s) effect delay deps = true ->
  Z.max 0 dt < th_delay delay ->
  calls (run s [Render effect delay deps; Advance dt]) = calls s.
Proof.
  intros Hinv%reachable_Inv Hre Hdt. pose proof (th_delay_nonneg delay).
  destruct (debounce_step effect delay deps dt s Hinv Hre) as [_ ->].
  rewrite decide_False; [done|lia].
Qed.

(** C32: a delay whose integer part is from [-2^31] to [0] makes the call at
    the next opportunity: the first time the host lets time pass, even by
    nothing.  Such are the negative delays down to [-2^31], the fractions
    of a millisecond, [NaN], and the infinities: the host takes the integer
    part of an infinity to be [0].  (Below [-2^31] a browser wraps the
    delay to a positive one: [debounce_negative_delay_wraps].) *)
Theorem debounce_nonpositive_delay effect delay deps s :
  reachable s ->
  rearms (fiber s) effect delay deps = true ->
  - 2 ^ 31 <= integerPart delay <= 0 ->
  calls (run s [Render effect delay deps; Advance 0]) =
  calls s ++ [(th_now (host s), nextCallback (fiber s) effect deps)].
Proof.
  intros Hinv%reachable_Inv Hre Hd.
  destruct (debounce_step effect delay deps 0 s Hinv Hre) as [_ ->].
  rewrite th_delay_integer, th_delay_nonpos by done.
  rewrite decide_True by (simpl; lia). by rewrite Z.add_0_r.
Qed.

Lemma reachable_run s es : reachable s -> reachable (run s es).
Proof. intros [es0 ->]. exists (es0 ++ es). by rewrite run_app. Qed.

Lemma burst_silent s rs :
  reachable s ->
  impatient s rs ->
  calls (run s (burst rs)) = calls s /\
  th_now (host (run s (burst rs))) = th_now (host s) + elapsed rs.
Proof.
  revert s. induction rs as [|r rs IH]; intros s Hs Himp; [simpl; split; [done|lia]|].
  destruct Himp as (Hre & Hwait & Himp). unfold burst. rewrite bind_cons, run_app. fold (burst rs).
  destruct (IH _ (reachable_run s (registers r) Hs) Himp) as [-> ->].
  destruct (debounce_step _ _ _ (reg_wait r) s (reachable_Inv s Hs) Hre) as [Hn Hc].
  unfold registers. rewrite Hn, Hc. rewrite decide_False by lia. split; [done|]. simpl. lia.
Qed.

(** C2: debouncing.  After a burst of registrations, each overtaken by the
    next before its delay has passed, and a last registration followed by at
    least its delay, exactly one call has been made: the callback of the
    last registration, at the time of the last registration plus its delay. *)
Theorem debounce_burst s rs effect delay deps dt :
  reachable s ->
  impatient s rs ->
  rearms (fiber (run s (burst rs))) effect delay deps = true ->
  th_delay delay <= dt ->
  calls (run s (burst rs ++ [Render effect delay deps; Advance dt])) =
  calls s ++
    [(th_now (host s) + elapsed rs + th_delay delay,
      nextCallback (fiber (run s (burst rs))) effect deps)].
Proof.
  intros Hs Himp Hre Hdt. rewrite run_app. pose proof (th_delay_nonneg delay).
  pose proof (reachable_Inv _ (reachable_run s (burst rs) Hs)) as Hinv.
  destruct (debounce_step effect delay deps dt _ Hinv Hre) as [_ ->].
  destruct (burst_silent s rs Hs Himp) as [-> ->]. rewrite decide_True; [done|lia].
Qed.

End Hook.

Arguments System : clear implicits.

#[export] Hint Resolve Inv_initial Inv_render Inv_unmount Inv_tick Inv_step Inv_run
  reachable_Inv reachable_run : hooks.

(** ** The theorems at work on the queue implementation *)

(** A component that registered [7] with a delay of 100 ms, 50 ms ago. *)
Definition armed_demo : System (TimerQueue.host TimerCallback) :=
  run initial [Render 7 100 [VNum 1]; Advance 50].

Lemma armed_demo_reachable : reachable armed_demo.
Proof. by exists [Render 7 100 [VNum 1]; Advance 50]. Defined.

Lemma no_call_after_unmount_witness :
  calls (run (unmount armed_demo) [Advance 1000; Unmount; Advance 5]) = calls armed_demo.
Proof.
  apply (no_call_after_unmount armed_demo [Advance 1000; Unmount; Advance 5]).
  - exact armed_demo_reachable.
  - by repeat constructor.
Defined.

Lemma debounce_burst_witness :
  calls (run armed_demo
    (burst [ {| reg_effect := 8; reg_delay := 100; reg_deps := [VNum 2]; reg_wait := 99 |};
             {| reg_effect := 9; reg_delay := 100; reg_deps := [VNum 3]; reg_wait := 10 |} ]
     ++ [Render 10 100 [VNum 4]; Advance 100])) =
  calls armed_demo ++ [(259, 10%nat)].
Proof.
  rewrite (debounce_burst armed_demo
    [ {| reg_effect := 8; reg_delay := 100; reg_deps := [VNum 2]; reg_wait := 99 |};
      {| reg_effect := 9; reg_delay := 100; reg_deps := [VNum 3]; reg_wait := 10 |} ]
    10%nat 100 [VNum 4] 100).
  - reflexivity.
  - exact armed_demo_reachable.
  - by vm_compute.
  - by vm_compute.
  - by vm_compute.
Defined.

(** The same component after a second registration, 50 ms into the first. *)
Definition rearmed_demo : System (TimerQueue.host TimerCallback) :=
  run initial [Render 7 100 [VNum 1]; Advance 50; Render 8 100 [VNum 2]].

Lemma rearmed_demo_reachable : reachable rearmed_demo.
Proof. by exists [Render 7 100 [VNum 1]; Advance 50; Render 8 100 [VNum 2]]. Defined.

Lemma single_timer_witness : (size (th_view (host rearmed_demo)) <= 1)%nat.
Proof. apply (single_timer rearmed_demo), rearmed_demo_reachable. Defined.

Lemma rearm_cancels_previous_witness :
  th_view (host (render 8 30 [VNum 2] armed_demo)) !! 1%nat = None /\
  th_view (host (render 8 30 [VNum 2] armed_demo)) !! 2%nat = Some (80, {| tc_callback := 8 |}).
Proof.
  exact (rearm_cancels_previous 8%nat 30 [VNum 2] armed_demo 1%nat (100, {| tc_callback := 7 |})
           armed_demo_reachable eq_refl eq_refl).
Defined.

Lemma pending_is_current_witness :
  exists f delay,
    fiber armed_demo = Some f /\
    registered f 1 delay /\
    tc_callback {| tc_callback := 7 |} = memoizedCallback (callbackHook f) /\
    th_now (host armed_demo) <= 100 <= th_now (host armed_demo) + timerDelay delay.
Proof.
  exact (pending_is_current armed_demo 1%nat 100 {| tc_callback := 7 |}
           armed_demo_reachable eq_refl).
Defined.

Lemma render_keep_witness :
  let s' := render 8 100 [VNum 1] armed_demo in
  host s' = host armed_demo /\ calls s' = calls armed_demo /\
  nextCallback (fiber armed_demo) 8 [VNum 1] = 7%nat.
Proof.
  exact (render_keep armed_demo
           {| callbackHook := {| memoizedCallback := 7%nat; callbackDeps := [VNum 1] |};
              effectHook := {| eff_deps := effectDeps 7%nat 100;
                               eff_destroy := Some {| cl_handler := 1 |} |} |}
           8%nat 100 [VNum 1] eq_refl eq_refl eq_refl).
Defined.

Lemma stable_effect_ignores_keys_witness :
  host (render 7 100 [VNum 2; VStr "new key"] armed_demo) = host armed_demo /\
  calls (render 7 100 [VNum 2; VStr "new key"] armed_demo) = calls armed_demo /\
  nextCallback (fiber armed_demo) 7 [VNum 2; VStr "new key"] = 7%nat.
Proof.
  exact (stable_effect_ignores_keys armed_demo
    {| callbackHook := {| memoizedCallback := 7%nat; callbackDeps := [VNum 1] |};
       effectHook := {| eff_deps := effectDeps 7 100; eff_destroy := Some {| cl_handler := 1 |} |} |}
    100 [VNum 2; VStr "new key"] armed_demo_reachable eq_refl eq_refl).
Defined.

Lemma debounce_fires_witness :
  calls (run armed_demo [Render 8 30 [VNum 2]; Advance 30]) = calls armed_demo ++ [(80, 8%nat)].
Proof.
  rewrite (debounce_fires 8%nat 30 [VNum 2] 30 armed_demo).
  - reflexivity.
  - exact armed_demo_reachable.
  - reflexivity.
  - by vm_compute.
Defined.

Lemma debounce_nonpositive_delay_witness :
  calls (run armed_demo [Render 8 (-5) [VNum 2]; Advance 0]) = calls armed_demo ++ [(50, 8%nat)].
Proof.
  rewrite (debounce_nonpositive_delay 8%nat (-5) [VNum 2] armed_demo).
  - reflexivity.
  - exact armed_demo_reachable.
  - reflexivity.
  - by vm_compute.
Defined.

(** C33: on a browser host the delay is read as a signed 32-bit integer: a
    delay from [2^31] to [2^32 - 1] milliseconds wraps to a negative number
    and the call is made at the next opportunity instead of weeks later. *)
Theorem debounce_delay_wraps effect delay deps (s : System (TimerQueue.host TimerCallback)) :
  reachable s ->
  rearms (fiber s) effect delay deps = true ->
  2 ^ 31 <= integerPart delay < 2 ^ 32 ->
  calls (run s [Render effect delay deps; Advance 0]) =
  calls s ++ [(th_now (host s), nextCallback (fiber s) effect deps)].
Proof.
  intros Hinv%reachable_Inv Hre Hd.
  destruct (debounce_step effect delay deps 0 s Hinv Hre) as [_ ->].
  change (th_delay delay) with (timerDelay delay).
  rewrite timerDelay_integer, timerDelay_wraps by done.
  rewrite decide_True by (simpl; lia). by rewrite Z.add_0_r.
Qed.

Lemma debounce_delay_wraps_witness :
  calls (run armed_demo [Render 8 2147483648 [VNum 2]; Advance 0]) = calls armed_demo ++ [(50, 8%nat)].
Proof.
  rewrite (debounce_delay_wraps 8%nat 2147483648 [VNum 2] armed_demo).
  - reflexivity.
  - exact armed_demo_reachable.
  - reflexivity.
  - by vm_compute.
Defined.

(** C34: and below [-2^31] the delay wraps the other way.  On a browser host
    a delay whose integer part is from [-2^32 + 1] to [-2^31 - 1] is read as
    that number plus [2^32], a positive number of milliseconds: the call is
    not made at the next opportunity, as it is for the negative delays
    above [-2^31], but when that much time has passed. *)
Theorem debounce_negative_delay_wraps effect delay deps dt (s : System (TimerQueue.host TimerCallback)) :
  reachable s ->
  rearms (fiber s) effect delay deps = true ->
  - 2 ^ 32 < integerPart delay < - 2 ^ 31 ->
  calls (run s [Render effect delay deps; Advance dt]) =
  if decide (integerPart delay + 2 ^ 32 <= Z.max 0 dt)
  then calls s ++ [(th_now (host s) + (integerPart delay + 2 ^ 32), nextCallback (fiber s) effect deps)]
  else calls s.
Proof.
  intros Hinv%reachable_Inv Hre Hd.
  destruct (debounce_step effect delay deps dt s Hinv Hre) as [_ ->].
  change (th_delay delay) with (timerDelay delay).
  by rewrite timerDelay_integer, timerDelay_wraps_neg.
Qed.

Lemma debounce_negative_delay_wraps_witness :
  calls (run armed_demo [Render 8 (-2147483649) [VNum 2]; Advance 86400000]) = calls armed_demo.
Proof.
  rewrite (debounce_negative_delay_wraps 8%nat (-2147483649) [VNum 2] 86400000 armed_demo).
  - reflexivity.
  - exact armed_demo_reachable.
  - reflexivity.
  - by vm_compute.
Defined.

(** ** Delays that are not integers *)

(** On [armed_demo] the call of [7] is due at 100.  A render with the same
    function and keys and the delay 100.5 postpones it to 150, although
    the host reads both delays as 100 ms. *)
Lemma keys_change_rearms_witness :
  let s' := render 8 100 [VNum 2] armed_demo in
  th_view (host s') = {[2%nat := (150, {| tc_callback := 8%nat |})]} /\ calls s' = calls armed_demo.
Proof.
  exact (keys_change_rearms armed_demo
           {| callbackHook := {| memoizedCallback := 7%nat; callbackDeps := [VNum 1] |};
              effectHook := {| eff_deps := effectDeps 7%nat 100;
                               eff_destroy := Some {| cl_handler := 1 |} |} |}
           8%nat 100 [VNum 2] armed_demo_reachable eq_refl eq_refl ltac:(discriminate)).
Defined.

Lemma delay_change_rearms_witness :
  rearms (fiber armed_demo) 7 (NFraction 100 1) [VNum 1] = true /\
  th_view (host (render 7 (NFraction 100 1) [VNum 1] armed_demo)) =
    {[2%nat := (150, {| tc_callback := 7%nat |})]}.
Proof.
  exact (delay_change_rearms armed_demo
           {| callbackHook := {| memoizedCallback := 7%nat; callbackDeps := [VNum 1] |};
              effectHook := {| eff_deps := effectDeps 7%nat 100;
                               eff_destroy := Some {| cl_handler := 1 |} |} |}
           100 7%nat (NFraction 100 1) [VNum 1] armed_demo_reachable eq_refl eq_refl
           ltac:(discriminate)).
Defined.

(** An infinite delay is no delay: the host reads it as 0. *)
Example infinite_delay_fires_at_once :
  calls (run armed_demo [Render 8 (NInfinity false) [VNum 2]; Advance 0]) =
  calls armed_demo ++ [(50, 8%nat)].
Proof. by vm_compute. Qed.

(** [NaN] is the delay it was: rendering again with [NaN] leaves the timer
    alone, where a comparison by [===] would re-arm on every render. *)
Example nan_delay_is_stable :
  let s := run armed_demo [Render 8 NNaN [VNum 2]; Render 8 NNaN [VNum 2]] in
  th_issued (host s) = 3%nat /\ strictEquals NNaN NNaN = false.
Proof. by vm_compute. Qed.

(** The zeros are two delays: going from [0] to [-0] re-arms. *)
Example signed_zero_rearms :
  let s := run armed_demo [Render 8 0 [VNum 2]; Render 8 NNegZero [VNum 2]] in
  th_issued (host s) = 4%nat /\ strictEquals 0 NNegZero = true.
Proof. by vm_compute. Qed.

Lemma debounce_waits_witness :
  calls (run armed_demo [Render 8 30 [VNum 2]; Advance 29]) = calls armed_demo.
Proof.
  apply (debounce_waits 8%nat 30 [VNum 2] 29 armed_demo).
  - exact armed_demo_reachable.
  - reflexivity.
  - by vm_compute.
Defined.
