(* ===== verification/Debouncer.v ===== *)
(** * Debouncer: what a debounced action promises

    The contract of [useDebounce] without React and without a timer table:
    a machine with a clock, at most one armed action with its due time, and
    the record of the calls made.  It is re-armed (which replaces whatever
    was armed), disposed of, and told that time has passed.

    [Debounce.v] is the implementation; [Refinement.v] proves that every
    step of the component is a step of this machine. *)

From S2P Require Import Prelude JsNumber React.

(** ** The machine *)

Record Debouncer : Type := {
  clock : Z;
  armed : option (Z * ref);
  fired : list (Z * ref);
}.

Inductive op : Type :=
| Rearm (action : ref) (delay : Z)
| Dispose
| Tick (dt : Z).

(** The machine at rest at the time [now]. *)
Definition idle (now : Z) : Debouncer :=
  {| clock := now; armed := None; fired := [] |}.

(** Arming replaces the armed action: the earlier one will not be called. *)
Definition rearm (action : ref) (delay : Z) (d : Debouncer) : Debouncer :=
  {| clock := clock d; armed := Some (clock d + Z.max 0 delay, action); fired := fired d |}.

Definition dispose (d : Debouncer) : Debouncer :=
  {| clock := clock d; armed := None; fired := fired d |}.

(** Time passes; the armed action is called if it comes due. *)
Definition elapse (dt : Z) (d : Debouncer) : Debouncer :=
  let now := clock d + Z.max 0 dt in
  match armed d with
  | Some (due, action) =>
      if decide (due <= now)
      then {| clock := now; armed := None; fired := fired d ++ [(due, action)] |}
      else {| clock := now; armed := armed d; fired := fired d |}
  | None => {| clock := now; armed := None; fired := fired d |}
  end.

Definition apply (d : Debouncer) (o : op) : Debouncer :=
  match o with
  | Rearm action delay => rearm action delay d
  | Dispose => dispose d
  | Tick dt => elapse dt d
  end.

Definition exec (d : Debouncer) (os : list op) : Debouncer :=
  foldl apply d os.

(** ** Vocabulary *)

Definition isRearm (o : op) : bool :=
  match o with
  | Rearm _ _ => true
  | _ => false
  end.

(** The number of times the machine is armed by [os]. *)
Definition rearms_in (os : list op) : nat :=
  countb isRearm os.

(** The calls still owed: one if an action is armed. *)
Definition owed (d : Debouncer) : nat :=
  match armed d with
  | Some _ => 1
  | None => 0
  end.

(** Nothing armed is overdue, and the calls made lie in the past, in the
    order of their times. *)
Record sound (d : Debouncer) : Prop := {
  sound_armed : forall due action, armed d = Some (due, action) -> clock d <= due;
  sound_past : Forall (fun c => c.1 <= clock d) (fired d);
  sound_order : StronglySorted (fun c1 c2 => c1.1 <= c2.1) (fired d);
}.

(** ** One operation at a time *)

Lemma elapse_fired dt d :
  fired (elapse dt d) =
  match armed d with
  | Some (due, action) =>
      if decide (due <= clock d + Z.max 0 dt) then fired d ++ [(due, action)] else fired d
  | None => fired d
  end.
Proof. unfold elapse. destruct (armed d) as [[due action]|]; [|done]. by case_decide. Qed.

Lemma elapse_clock dt d : clock (elapse dt d) = clock d + Z.max 0 dt.
Proof. unfold elapse. destruct (armed d) as [[due action]|]; [|done]. by case_decide. Qed.

(** A call pays what was owed. *)
Lemma apply_budget d o :
  (length (fired (apply d o)) + owed (apply d o) <=
   length (fired d) + owed d + (if isRearm o then 1 else 0))%nat.
Proof.
  destruct o as [action delay| |dt]; simpl; unfold owed; simpl.
  - destruct (armed d); lia.
  - destruct (armed d); lia.
  - unfold elapse. destruct (armed d) as [[due action]|] eqn:E; simpl; [|lia].
    case_decide; simpl; rewrite ?E, ?length_app; simpl; lia.
Qed.

Lemma sound_apply d o : sound d -> sound (apply d o).
Proof.
  intros [Ha Hp Ho]. destruct o as [action delay| |dt]; simpl.
  - split; simpl; [|done..]. intros due act [= <- <-]. lia.
  - by split.
  - assert (Forall (fun c => c.1 <= clock d + Z.max 0 dt) (fired d)) as Hp'.
    { eapply Forall_impl; [exact Hp|]. simpl. lia. }
    unfold elapse. destruct (armed d) as [[due action]|] eqn:E; [case_decide|]; split; simpl; try done.
    + apply Forall_app. split; [done|]. by repeat constructor.
    + apply StronglySorted_app_2; [|done|by repeat constructor].
      intros c1 c2 Hc1 ->%list_elem_of_singleton. simpl.
      rewrite Forall_forall in Hp. specialize (Hp _ Hc1). specialize (Ha _ _ eq_refl). lia.
    + intros due' act [= <- <-]. lia.
Qed.

(** ** Theorems on executions *)

Lemma exec_app d os1 os2 : exec d (os1 ++ os2) = exec (exec d os1) os2.
Proof. apply foldl_app. Qed.

Lemma exec_budget d os :
  (length (fired (exec d os)) + owed (exec d os) <= length (fired d) + owed d + rearms_in os)%nat.
Proof.
  unfold rearms_in. revert d. induction os as [|o os IH]; intros d; [simpl; lia|].
  rewrite countb_cons. simpl. etrans; [apply IH|]. pose proof (apply_budget d o). lia.
Qed.

Lemma sound_exec d os : sound d -> sound (exec d os).
Proof. revert d. induction os as [|o os IH]; intros d Hd; [done|]. apply IH. by apply sound_apply. Qed.

Lemma sound_idle now : sound (idle now).
Proof. split; simpl; [done|constructor..]. Qed.

(** The calls made only grow. *)
Lemma exec_fired_prefix d os : fired d `prefix_of` fired (exec d os).
Proof.
  revert d. induction os as [|o os IH]; intros d; [done|]. simpl.
  etrans; [|apply IH]. destruct o as [action delay| |dt]; simpl; [done..|].
  rewrite elapse_fired. destruct (armed d) as [[due action]|]; [case_decide|]; try done.
  by apply prefix_app_r.
Qed.

(** After a disposal, without a re-arm, no call is made. *)
Lemma exec_disposed d os :
  armed d = None -> rearms_in os = O -> fired (exec d os) = fired d /\ armed (exec d os) = None.
Proof.
  revert d. induction os as [|o os IH]; intros d Hd Hos; [done|].
  unfold rearms_in in *. rewrite countb_cons in Hos.
  destruct o as [action delay| |dt]; simpl in *; [done| |].
  - by apply (IH (dispose d)).
  - unfold elapse. rewrite Hd. by apply (IH {| clock := clock d + Z.max 0 dt; armed := None; fired := fired d |}).
Qed.
