(* ===== verification/Refinement.v ===== *)
(** * Refinement: the component implements the debouncer

    The abstraction forgets the slots of the hook and the handles of the
    timers: of a state of the component ([Debounce.System]) it keeps the
    host's clock, the one timer that may be pending, and the calls made.
    Every event of the component is then zero or one operation of the
    abstract machine ([Debouncer.v]); the theorems of the machine carry over
    to the component. *)

From stdpp Require Import gmap.
From S2P Require Import Prelude JsNumber React Timers Debounce Debouncer.

Section Refinement.
Context {H : Type} `{!TimerHost TimerCallback H}.

Implicit Types (s : System H) (e : event) (es : list event).

(** ** The abstraction *)

(** The pending timer as the machine sees it: its due time and the function
    it will call. *)
Definition the_timer (m : gmap nat (Z * TimerCallback)) : option (Z * ref) :=
  (fun kv => (kv.2.1, tc_callback kv.2.2)) <$> head (map_to_list m).

Definition abstraction s : Debouncer :=
  {| clock := th_now (host s); armed := the_timer (th_view (host s)); fired := calls s |}.

(** The operations an event amounts to: a render is a re-arm when the
    runtime runs the effect again and nothing otherwise. *)
Definition ops_of s e : list op :=
  match e with
  | Render effect delay deps =>
      if rearms (fiber s) effect delay deps
      then [Rearm (nextCallback (fiber s) effect deps) (th_delay delay)]
      else []
  | Unmount => [Dispose]
  | Advance dt => [Tick dt]
  end.

Fixpoint trace s es : list op :=
  match es with
  | [] => []
  | e :: es' => ops_of s e ++ trace (step s e) es'
  end.

(** The renders among the events. *)
Definition renders es : nat :=
  countb isRender es.

(** ** The abstraction of a timer table *)

Lemma the_timer_empty : the_timer ∅ = None.
Proof. unfold the_timer. by rewrite map_to_list_empty. Qed.

Lemma the_timer_singleton id due cb : the_timer {[id := (due, cb)]} = Some (due, tc_callback cb).
Proof. unfold the_timer. by rewrite map_to_list_singleton. Qed.

Lemma Inv_view s :
  Inv s -> th_view (host s) = ∅ \/ exists id due cb, th_view (host s) = {[id := (due, cb)]}.
Proof.
  intros [_ Hfib]. destruct (fiber s) as [f|]; [|by left].
  destruct Hfib as (handler & delay & _ & _ & [Hv|(due & Hv & _)]); [by left|right; eauto].
Qed.

(** ** One event at a time *)

Lemma render_refines effect delay deps s :
  Inv s ->
  abstraction (render effect delay deps s) = exec (abstraction s) (ops_of s (Render effect delay deps)).
Proof.
  intros Hinv. unfold ops_of. destruct (rearms _ _ _ _) eqn:Hre.
  - destruct (render_rearm effect delay deps s Hinv Hre) as (Hv & Hn & Hc).
    unfold abstraction. rewrite Hv, Hn, Hc, the_timer_singleton. simpl. unfold rearm; simpl.
    pose proof (th_delay_nonneg delay). by rewrite Z.max_r.
  - destruct (render_idle effect delay deps s Hinv Hre) as (Hh & Hc).
    unfold abstraction. by rewrite Hh, Hc.
Qed.

Lemma unmount_now s : Inv s -> th_now (host (unmount s)) = th_now (host s).
Proof.
  intros [Hwf _]. unfold unmount. destruct (fiber s) as [f|]; [|done]. unfold unmountEffect.
  by destruct (unmount_hook_view (eff_destroy (effectHook f)) (host s) Hwf) as (_ & _ & ? & _).
Qed.

Lemma unmount_refines s : Inv s -> abstraction (unmount s) = exec (abstraction s) [Dispose].
Proof.
  intros Hinv. destruct (unmount_spec s Hinv) as (_ & Hv & Hc).
  unfold abstraction. by rewrite Hv, Hc, unmount_now, the_timer_empty.
Qed.

Lemma tick_host dt s : host (tick dt s) = (advance dt (host s)).2.
Proof. unfold tick. by destruct (advance dt (host s)). Qed.

Lemma tick_refines dt s : Inv s -> abstraction (tick dt s) = exec (abstraction s) [Tick dt].
Proof.
  intros Hinv. pose proof (inv_wf s Hinv) as Hwf. unfold abstraction; simpl. unfold elapse; simpl.
  rewrite tick_host, advance_now. destruct (Inv_view s Hinv) as [Hv|(id & due & cb & Hv)].
  - destruct (tick_idle dt s Hwf Hv) as (-> & _ & _).
    by rewrite advance_view_none, Hv, the_timer_empty.
  - rewrite (tick_armed dt s id due cb Hwf Hv), (advance_view_single dt _ id due cb Hwf Hv).
    rewrite Hv, the_timer_singleton. case_decide; simpl; by rewrite ?the_timer_empty, ?the_timer_singleton.
Qed.

Lemma step_refines s e : Inv s -> abstraction (step s e) = exec (abstraction s) (ops_of s e).
Proof. destruct e; [apply render_refines | apply unmount_refines | apply tick_refines]. Qed.

(** ** Executions *)

Lemma run_refines s es : Inv s -> abstraction (run s es) = exec (abstraction s) (trace s es).
Proof.
  revert s. induction es as [|e es IH]; intros s Hinv; [done|].
  cbn [run foldl trace]. rewrite exec_app, <- step_refines by done.
  apply IH. auto with hooks.
Qed.

Lemma abstraction_initial : abstraction initial = idle (th_now th_init).
Proof. unfold abstraction, initial; simpl. by rewrite th_init_view, the_timer_empty. Qed.

Lemma trace_rearms s es : (rearms_in (trace s es) <= renders es)%nat.
Proof.
  unfold renders, rearms_in. revert s. induction es as [|e es IH]; intros s; [done|].
  cbn [trace]. autorewrite with hooks_rw. specialize (IH (step s e)).
  destruct e as [effect delay deps| |dt]; simpl in *; [|lia..].
  destruct (rearms _ _ _ _); autorewrite with hooks_rw; simpl; lia.
Qed.

(** ** Theorems *)

(** C5: the component refines the debouncer.  Whatever the host does with
    the component from its creation on, the clock, the pending call and the
    calls made are those of the abstract machine run on the operations the
    events amount to. *)
Theorem debouncer_simulation es :
  abstraction (run initial es) = exec (idle (th_now th_init)) (trace initial es).
Proof. rewrite <- abstraction_initial. apply run_refines. auto with hooks. Qed.

(** C12: at most one call per registration.  From a reachable state, the
    calls made by a run, with the one still owed at its end, are at most
    the call owed at its start and one per re-arming render of the run. *)
Theorem one_call_per_registration s es :
  reachable s ->
  (length (calls (run s es)) + owed (abstraction (run s es)) <=
   length (calls s) + owed (abstraction s) + rearms_in (trace s es))%nat.
Proof.
  intros Hinv%reachable_Inv.
  change (calls (run s es)) with (fired (abstraction (run s es))).
  rewrite (run_refines s es Hinv). apply (exec_budget (abstraction s)).
Qed.

(** From its creation on the component makes no more calls than it was
    rendered. *)
Theorem calls_bounded_by_renders es :
  (length (calls (run initial es)) <= renders es)%nat.
Proof.
  change (calls (run initial es)) with (fired (abstraction (run initial es))).
  rewrite run_refines, abstraction_initial by auto with hooks.
  pose proof (exec_budget (idle (th_now th_init)) (trace initial es)) as Hb.
  pose proof (trace_rearms initial es). unfold owed in Hb. simpl in Hb.
  destruct (armed _); lia.
Qed.

(** The record of calls is chronological: every call was made at a time
    that has passed, no call before an earlier one, and the pending call, if
    any, is not overdue. *)
Theorem calls_chronological s :
  reachable s -> sound (abstraction s).
Proof.
  intros [es ->]. rewrite run_refines, abstraction_initial by auto with hooks.
  apply sound_exec, sound_idle.
Qed.

End Refinement.

Arguments abstraction {H _} s.

(** ** The theorems at work on the queue implementation *)

Lemma one_call_per_registration_witness :
  (length (calls (run armed_demo [Render 8 30 [VNum 2]; Advance 30; Render 8 30 [VNum 3]; Advance 100])) +
   owed (abstraction (run armed_demo [Render 8 30 [VNum 2]; Advance 30; Render 8 30 [VNum 3]; Advance 100])) <=
   length (calls armed_demo) + owed (abstraction armed_demo) +
   rearms_in (trace armed_demo [Render 8 30 [VNum 2]; Advance 30; Render 8 30 [VNum 3]; Advance 100]))%nat.
Proof.
  exact (one_call_per_registration armed_demo
    [Render 8 30 [VNum 2]; Advance 30; Render 8 30 [VNum 3]; Advance 100] armed_demo_reachable).
Defined.

Lemma calls_chronological_witness : sound (abstraction rearmed_demo).
Proof. exact (calls_chronological rearmed_demo rearmed_demo_reachable). Defined.
