(* ===== verification/OpenPage.v ===== *)
(** * OpenPage: the debounced component on a page with other timers

    [Debounce.v] studies the component alone with the timer table.  On a
    real page the table is shared: other code schedules and cancels timers
    of its own between the events of the component.  This file puts the
    component of [Debounce.v] on such a page and shows that what it
    guarantees does not depend on having the table to itself.

    The page remembers which handles were issued to the hook; the rest of
    the page cancels only handles that were issued to it.  The calls
    recorded are those made by the hook's timers. *)

From stdpp Require Import gmap.
From S2P Require Import Prelude JsNumber React Timers Debounce.

Section OpenPage.
Context {T : Type} `{!TimerHost TimerCallback T}.

(** ** The page *)

(** The component and the handles [setTimeout] has returned to the hook. *)
Record Shared : Type := {
  component : System T;
  own : gset nat;
}.

Inductive page_event : Type :=
| Hook (e : event)
| OtherSet (cb : TimerCallback) (delay : number)
| OtherClear (id : nat).

Definition start : Shared :=
  {| component := initial; own := ∅ |}.

(** The handles issued to the hook once the event [e] is over: a render
    that runs the effect is issued the next handle. *)
Definition own_after (p : Shared) (e : event) : gset nat :=
  match e with
  | Render effect delay deps =>
      if rearms (fiber (component p)) effect delay deps
      then {[th_issued (host (component p))]} ∪ own p
      else own p
  | _ => own p
  end.

(** The calls the timers of the hook make among the timers that fire. *)
Definition own_calls (mine : gset nat) (fired : list (timer TimerCallback)) : list (Z * ref) :=
  invoke <$> filter (fun t => timer_id t ∈ mine) fired.

(** Time passes on the page: every due timer fires, the hook's and the
    others'. *)
Definition page_tick (dt : Z) (p : Shared) : Shared :=
  let (fired, host') := advance dt (host (component p)) in
  {| component :=
       {| host := host';
          fiber := fiber (component p);
          calls := calls (component p) ++ own_calls (own p) fired |};
     own := own p |}.

(** The rest of the page acts on the timer table. *)
Definition other (f : T -> T) (p : Shared) : Shared :=
  {| component :=
       {| host := f (host (component p));
          fiber := fiber (component p);
          calls := calls (component p) |};
     own := own p |}.

Definition page_step (p : Shared) (e : page_event) : Shared :=
  match e with
  | Hook (Advance dt) => page_tick dt p
  | Hook e' => {| component := step (component p) e'; own := own_after p e' |}
  | OtherSet cb delay => other (fun h => (setTimeout cb delay h).2) p
  | OtherClear id =>
      if decide (id ∈ own p) then p else other (fun h => (clearTimeout id h).2) p
  end.

Definition page_run (p : Shared) (es : list page_event) : Shared :=
  foldl page_step p es.

Definition page_reachable (p : Shared) : Prop :=
  exists es, p = page_run start es.

(** ** Vocabulary *)

Definition isHookRender (e : page_event) : bool :=
  match e with
  | Hook (Render _ _ _) => true
  | _ => false
  end.

Definition isHook (e : page_event) : bool :=
  match e with
  | Hook _ => true
  | _ => false
  end.

(** The timer table as far as the hook is concerned. *)
Definition own_view (p : Shared) : gmap nat (Z * TimerCallback) :=
  filter (fun kv => kv.1 ∈ own p) (th_view (host (component p))).

(** *** The invariant

    Every handle issued to the hook was issued by the host.  While the
    component is mounted, the cleanup in its effect slot cancels one of
    them, and no other handle of the hook is pending; if that one is
    pending, it calls the memoised callback and is due within the delay.
    Once unmounted, no handle of the hook is pending. *)
Definition current (f : DebounceFiber) (p : Shared) (handler : nat) (delay : number) : Prop :=
  registered f handler delay /\
  handler ∈ own p /\
  (forall id, id ∈ own p -> id ≠ handler -> th_view (host (component p)) !! id = None) /\
  (forall e, th_view (host (component p)) !! handler = Some e ->
     e.2 = {| tc_callback := memoizedCallback (callbackHook f) |} /\
     e.1 <= th_now (host (component p)) + th_delay delay).

Record OpenInv (p : Shared) : Prop := {
  oi_wf : th_wf (host (component p));
  oi_issued : forall id, id ∈ own p -> (id < th_issued (host (component p)))%nat;
  oi_fiber :
    match fiber (component p) with
    | Some f => exists handler delay, current f p handler delay
    | None => forall id, id ∈ own p -> th_view (host (component p)) !! id = None
    end;
}.

(** On a page with nothing but the component, every pending timer is the
    hook's. *)
Definition alone (p : Shared) : Prop :=
  dom (th_view (host (component p))) ⊆ own p.

(** The cleanup a commit or an unmount will run. *)
Definition cleanup_of (fib : option DebounceFiber) : option Cleanup :=
  fib ≫= fun f => eff_destroy (effectHook f).

Implicit Types (p : Shared) (s : System T) (f : DebounceFiber) (h : T).

(** ** The render on an arbitrary host *)

Lemma registered_cleanup f handler delay :
  registered f handler delay -> cleanup_of (Some f) = Some {| cl_handler := handler |}.
Proof. unfold registered, cleanup_of. simpl. by intros ->. Qed.

(** A render that runs the effect: the cleanup of the previous run, then a
    timer under the next handle. *)
Lemma render_rearm_open effect delay deps s :
  th_wf (host s) ->
  (forall f, fiber s = Some f -> exists handler delay0, registered f handler delay0) ->
  rearms (fiber s) effect delay deps = true ->
  let s' := render effect delay deps s in
  th_wf (host s') /\ th_now (host s') = th_now (host s) /\ calls s' = calls s /\
  th_issued (host s') = S (th_issued (host s)) /\
  th_view (host s') =
    <[th_issued (host s) :=
        (th_now (host s) + th_delay delay, {| tc_callback := nextCallback (fiber s) effect deps |})]>
      (cancelled (cleanup_of (fiber s)) (th_view (host s))) /\
  exists f', fiber s' = Some f' /\ registered f' (th_issued (host s)) delay /\
    memoizedCallback (callbackHook f') = nextCallback (fiber s) effect deps.
Proof.
  intros Hwf Hreg Hre. cbn zeta. destruct (fiber s) as [f|] eqn:Hf.
  - destruct (Hreg f eq_refl) as (handler & delay0 & Hr).
    rewrite (rearms_update _ _ _ _ _ _ Hr) in Hre. apply negb_true_iff, bool_decide_eq_false in Hre.
    rewrite (render_update _ _ _ _ _ _ _ Hf Hr), decide_False by done.
    rewrite (registered_cleanup f handler delay0 Hr). cbn [host fiber calls].
    destruct (register_spec (Some {| cl_handler := handler |}) (nextCallback (Some f) effect deps)
                delay (host s) Hwf) as (? & ? & ? & ?).
    split_and!; [done..|]. by eexists.
  - rewrite (render_mount _ _ _ _ Hf). cbn [host fiber calls cleanup_of mbind option_bind].
    destruct (register_spec None effect delay (host s) Hwf) as (? & ? & ? & ?).
    split_and!; [done..|]. by eexists.
Qed.

(** A render that does not run the effect leaves the host alone and keeps
    the registration. *)
Lemma render_keep_open effect delay deps s f handler delay0 :
  fiber s = Some f -> registered f handler delay0 ->
  rearms (fiber s) effect delay deps = false ->
  let s' := render effect delay deps s in
  host s' = host s /\ calls s' = calls s /\
  exists f', fiber s' = Some f' /\ registered f' handler delay0 /\
    memoizedCallback (callbackHook f') = memoizedCallback (callbackHook f).
Proof.
  intros Hf Hr Hre. cbn zeta. rewrite Hf in Hre.
  rewrite (rearms_update _ _ _ _ _ _ Hr) in Hre. apply negb_false_iff, bool_decide_eq_true in Hre.
  rewrite (render_update _ _ _ _ _ _ _ Hf Hr), decide_True by done. destruct Hre as [Hcb _].
  split_and!; [done..|]. eexists. split_and!; [done| |exact Hcb].
  unfold registered in *. cbn [effectHook callbackHook].
  change (memoizedCallback (useCallback _ effect deps)) with (nextCallback (Some f) effect deps).
  by rewrite Hcb.
Qed.

Lemma rearms_mount effect delay deps : rearms None effect delay deps = true.
Proof. reflexivity. Qed.

Lemma unmount_open s f handler delay :
  th_wf (host s) -> fiber s = Some f -> registered f handler delay ->
  th_wf (host (unmount s)) /\ fiber (unmount s) = None /\ calls (unmount s) = calls s /\
  th_now (host (unmount s)) = th_now (host s) /\
  th_issued (host (unmount s)) = th_issued (host s) /\
  th_view (host (unmount s)) = delete handler (th_view (host s)).
Proof.
  intros Hwf Hf Hr. unfold unmount. rewrite Hf. cbn [host fiber calls]. unfold unmountEffect.
  rewrite Hr. cbn [eff_destroy].
  by destruct (unmount_hook_view (Some {| cl_handler := handler |}) (host s) Hwf) as (? & ? & ? & ?).
Qed.

Lemma page_tick_eq dt p :
  page_tick dt p =
  {| component :=
       {| host := (advance dt (host (component p))).2;
          fiber := fiber (component p);
          calls := calls (component p) ++ own_calls (own p) (advance dt (host (component p))).1 |};
     own := own p |}.
Proof. unfold page_tick. by destruct (advance dt (host (component p))). Qed.

(** ** The invariant holds on every reachable page *)

Lemma OpenInv_start : OpenInv start.
Proof. split; [apply th_init_wf|set_solver..]. Qed.

(** Whatever happens to the table, as long as the host keeps what it has
    issued, time does not go back and the pending timers of the hook are
    kept or dropped, the invariant is kept. *)
Lemma OpenInv_host p h' cs :
  OpenInv p ->
  th_wf h' ->
  (th_issued (host (component p)) <= th_issued h')%nat ->
  th_now (host (component p)) <= th_now h' ->
  (forall id, id ∈ own p ->
     th_view h' !! id = None \/ th_view h' !! id = th_view (host (component p)) !! id) ->
  OpenInv {| component := {| host := h'; fiber := fiber (component p); calls := cs |}; own := own p |}.
Proof.
  intros [Hwf Hiss Hfib] Hwf' Hi Hn Hv. split; cbn [component host fiber own]; [done| |].
  - intros id Hid. specialize (Hiss id Hid). lia.
  - destruct (fiber (component p)) as [f|].
    + destruct Hfib as (handler & delay & Hr & Hown & Hothers & Hmine). exists handler, delay.
      split_and!; [done..| |]; cbn [component host fiber own].
      * intros id Hid Hne. destruct (Hv id Hid) as [->| ->]; [done|by apply Hothers].
      * intros e He. destruct (Hv handler Hown) as [Hx|Hx]; rewrite Hx in He; [done|].
        destruct (Hmine e He) as [? ?]. split; [done|lia].
    + intros id Hid. destruct (Hv id Hid) as [->| ->]; [done|by apply Hfib].
Qed.

Lemma OpenInv_tick dt p : OpenInv p -> OpenInv (page_tick dt p).
Proof.
  intros Hinv. pose proof (oi_wf p Hinv) as Hwf. rewrite page_tick_eq.
  apply OpenInv_host; [done|by apply advance_wf|by rewrite advance_issued| |].
  - rewrite advance_now. lia.
  - intros id _. rewrite advance_view by done.
    destruct (filter _ (th_view (host (component p))) !! id) as [e|] eqn:E; [|by left].
    right. by apply map_lookup_filter_Some in E as [-> _].
Qed.

Lemma OpenInv_other_set cb delay p :
  OpenInv p -> OpenInv (other (fun h => (setTimeout cb delay h).2) p).
Proof.
  intros Hinv. pose proof (oi_wf p Hinv) as Hwf. unfold other.
  apply OpenInv_host; [done|by apply setTimeout_wf|rewrite setTimeout_issued; lia| |].
  - by rewrite setTimeout_now.
  - intros id Hid. right. rewrite setTimeout_view by done. apply lookup_insert_ne.
    pose proof (oi_issued p Hinv id Hid). lia.
Qed.

Lemma OpenInv_other_clear id p :
  OpenInv p -> id ∉ own p -> OpenInv (other (fun h => (clearTimeout id h).2) p).
Proof.
  intros Hinv Hid. pose proof (oi_wf p Hinv) as Hwf. unfold other.
  apply OpenInv_host; [done|by apply clearTimeout_wf|by rewrite clearTimeout_issued| |].
  - by rewrite clearTimeout_now.
  - intros id' Hid'. right. rewrite clearTimeout_view by done. apply lookup_delete_ne.
    by intros ->.
Qed.

Lemma OpenInv_registered p f :
  OpenInv p -> fiber (component p) = Some f -> exists handler delay0, registered f handler delay0.
Proof.
  intros [_ _ Hfib] Hf. rewrite Hf in Hfib. destruct Hfib as (handler & delay & Hr & _). eauto.
Qed.

(** What the cleanup of the current registration leaves of the hook's
    timers: nothing. *)
Lemma cancelled_own p id :
  OpenInv p -> id ∈ own p ->
  cancelled (cleanup_of (fiber (component p))) (th_view (host (component p))) !! id = None.
Proof.
  intros [_ _ Hfib] Hid. destruct (fiber (component p)) as [f|]; [|by apply Hfib].
  destruct Hfib as (handler & delay & Hr & _ & Hothers & _).
  rewrite (registered_cleanup f handler delay Hr). cbn [cancelled cl_handler].
  destruct (decide (id = handler)) as [->|Hne]; [apply lookup_delete_eq|].
  rewrite lookup_delete_ne by done. by apply Hothers.
Qed.

(** The cleanup touches no timer but the hook's. *)
Lemma cancelled_other p id :
  OpenInv p -> id ∉ own p ->
  cancelled (cleanup_of (fiber (component p))) (th_view (host (component p))) !! id =
  th_view (host (component p)) !! id.
Proof.
  intros [_ _ Hfib] Hid. destruct (fiber (component p)) as [f|]; [|done].
  destruct Hfib as (handler & delay & Hr & Hown & _).
  rewrite (registered_cleanup f handler delay Hr). cbn [cancelled cl_handler].
  apply lookup_delete_ne. by intros ->.
Qed.

Lemma OpenInv_render effect delay deps p :
  OpenInv p -> OpenInv (page_step p (Hook (Render effect delay deps))).
Proof.
  intros Hinv. pose proof Hinv as [Hwf Hiss Hfib]. cbn [page_step own_after step].
  destruct (rearms (fiber (component p)) effect delay deps) eqn:Hre.
  - destruct (render_rearm_open effect delay deps (component p) Hwf
                (fun f => OpenInv_registered p f Hinv) Hre)
      as (Hwf' & Hn & _ & Hi & Hv & f' & Hf' & Hr' & Hcb).
    split; cbn [component own].
    + done.
    + intros id [->%elem_of_singleton|Hid]%elem_of_union; [lia|]. specialize (Hiss id Hid). lia.
    + rewrite Hf'. exists (th_issued (host (component p))), delay.
      split_and!; [done|set_solver| |]; cbn [component own]; rewrite Hv.
      * intros id [->%elem_of_singleton|Hid]%elem_of_union Hne; [done|].
        rewrite lookup_insert_ne by done. by apply cancelled_own.
      * rewrite lookup_insert_eq. intros e [= <-]. cbn [fst snd]. rewrite Hcb, Hn. split; [done|lia].
  - destruct (fiber (component p)) as [f|] eqn:Hf; [|by rewrite rearms_mount in Hre].
    destruct Hfib as (handler & delay0 & Hr & Hown & Hothers & Hmine).
    destruct (render_keep_open effect delay deps (component p) f handler delay0 Hf Hr)
      as (Hh & _ & f' & Hf' & Hr' & Hcb); [by rewrite Hf|].
    split; cbn [component own]; rewrite ?Hh; [done..|].
    rewrite Hf'. exists handler, delay0. split_and!; [done..| |]; cbn [component own]; rewrite Hh; [done|].
    by rewrite Hcb.
Qed.

Lemma OpenInv_unmount p : OpenInv p -> OpenInv (page_step p (Hook Unmount)).
Proof.
  intros Hinv. pose proof Hinv as [Hwf Hiss Hfib]. cbn [page_step own_after step].
  destruct (fiber (component p)) as [f|] eqn:Hf.
  - destruct Hfib as (handler & delay & Hr & Hown & Hothers & _).
    destruct (unmount_open (component p) f handler delay Hwf Hf Hr) as (Hwf' & Hf' & _ & _ & Hi & Hv).
    split; cbn [component own]; [done|by rewrite Hi|]. rewrite Hf', Hv. intros id Hid.
    destruct (decide (id = handler)) as [->|Hne]; [apply lookup_delete_eq|].
    rewrite lookup_delete_ne by done. by apply Hothers.
  - unfold unmount. rewrite Hf. split; cbn [component own]; [done..|]. by rewrite Hf.
Qed.

Lemma OpenInv_step p e : OpenInv p -> OpenInv (page_step p e).
Proof.
  intros Hinv. destruct e as [[effect delay deps| |dt]|cb delay|id].
  - by apply OpenInv_render.
  - by apply OpenInv_unmount.
  - by apply OpenInv_tick.
  - by apply OpenInv_other_set.
  - cbn [page_step]. case_decide; [done|]. by apply OpenInv_other_clear.
Qed.

Lemma OpenInv_run p es : OpenInv p -> OpenInv (page_run p es).
Proof. apply (foldl_invariant page_step OpenInv). intros q e. apply OpenInv_step. Qed.

Lemma page_reachable_OpenInv p : page_reachable p -> OpenInv p.
Proof. intros [es ->]. apply OpenInv_run, OpenInv_start. Qed.

(** ** Once disposed *)

(** While no handle of the hook is pending, the timers that fire make no
    call of the hook's. *)
Lemma own_calls_none dt p :
  OpenInv p ->
  (forall id, id ∈ own p -> th_view (host (component p)) !! id = None) ->
  own_calls (own p) (advance dt (host (component p))).1 = [].
Proof.
  intros Hinv Hnone. unfold own_calls. rewrite filter_none; [done|].
  apply Forall_forall. intros t [Ht _]%advance_fired Hid; [|by apply oi_wf].
  by rewrite (Hnone _ Hid) in Ht.
Qed.

Lemma disposed_page_run p es :
  OpenInv p -> fiber (component p) = None ->
  Forall (fun e => isHookRender e = false) es ->
  calls (component (page_run p es)) = calls (component p) /\ fiber (component (page_run p es)) = None.
Proof.
  revert p. induction es as [|e es IH]; intros p Hinv Hf Hes; [done|].
  apply Forall_cons in Hes as [He Hes]. cbn [page_run foldl].
  assert (calls (component (page_step p e)) = calls (component p) /\
          fiber (component (page_step p e)) = None) as [Hc Hf'].
  { destruct e as [[effect delay deps| |dt]|cb delay|id]; [done| | |done|].
    - cbn [page_step component step]. unfold unmount. by rewrite Hf.
    - cbn [page_step]. rewrite page_tick_eq. cbn [component calls fiber].
      pose proof (oi_fiber p Hinv) as Hnone. rewrite Hf in Hnone.
      by rewrite own_calls_none, app_nil_r.
    - cbn [page_step]. by case_decide. }
  rewrite <- Hc. apply IH; [by apply OpenInv_step|done..].
Qed.

(** ** The hook's part of the table *)

Lemma own_view_lookup p id e :
  own_view p !! id = Some e <-> th_view (host (component p)) !! id = Some e /\ id ∈ own p.
Proof. unfold own_view. by rewrite map_lookup_filter_Some. Qed.

Lemma own_view_cases p :
  OpenInv p -> own_view p = ∅ \/ exists handler e, own_view p = {[handler := e]}.
Proof.
  intros [_ _ Hfib]. destruct (fiber (component p)) as [f|].
  - destruct Hfib as (handler & delay & _ & Hown & Hothers & _).
    destruct (th_view (host (component p)) !! handler) as [e|] eqn:He; [right|left].
    + exists handler, e. apply map_eq. intros id. destruct (decide (id = handler)) as [->|Hne].
      * rewrite lookup_singleton_eq. by apply own_view_lookup.
      * rewrite lookup_singleton_ne by done. apply eq_None_not_Some. intros [e' [He' Hid]%own_view_lookup].
        by rewrite (Hothers id Hid Hne) in He'.
    + apply map_empty. intros id. apply eq_None_not_Some. intros [e' [He' Hid]%own_view_lookup].
      destruct (decide (id = handler)) as [->|Hne]; [by rewrite He in He'|].
      by rewrite (Hothers id Hid Hne) in He'.
  - left. apply map_empty. intros id. apply eq_None_not_Some. intros [e' [He' Hid]%own_view_lookup].
    by rewrite (Hfib id Hid) in He'.
Qed.

(** ** Alone on the page *)

Lemma alone_start : alone start.
Proof. unfold alone, start. cbn [component initial host]. rewrite th_init_view. set_solver. Qed.

Lemma alone_cancelled p :
  alone p -> dom (cancelled (cleanup_of (fiber (component p))) (th_view (host (component p)))) ⊆ own p.
Proof.
  unfold alone. intros Ha. destruct (cleanup_of (fiber (component p))) as [c|]; [|done].
  cbn [cancelled]. rewrite dom_delete. intros id [Hid _]%elem_of_difference. by apply Ha.
Qed.

Lemma own_calls_alone dt p :
  OpenInv p -> alone p ->
  own_calls (own p) (advance dt (host (component p))).1 = invoke <$> (advance dt (host (component p))).1.
Proof.
  intros Hinv Ha. unfold own_calls. rewrite filter_all; [done|].
  apply Forall_forall. intros t [Ht _]%advance_fired; [|by apply oi_wf].
  apply Ha. by eapply elem_of_dom_2.
Qed.

(** Alone on the page, an event of the component does to the component
    what it does in [Debounce.v], and the page stays the component's. *)
Lemma alone_step p e :
  OpenInv p -> alone p ->
  component (page_step p (Hook e)) = step (component p) e /\ alone (page_step p (Hook e)).
Proof.
  intros Hinv Ha. pose proof (oi_wf p Hinv) as Hwf. destruct e as [effect delay deps| |dt].
  - split; [done|]. unfold alone. cbn [page_step own_after step component own].
    destruct (rearms (fiber (component p)) effect delay deps) eqn:Hre.
    + destruct (render_rearm_open effect delay deps (component p) Hwf
                  (fun f => OpenInv_registered p f Hinv) Hre) as (_ & _ & _ & _ & -> & _).
      rewrite dom_insert. by apply union_mono_l, alone_cancelled.
    + destruct (fiber (component p)) as [f|] eqn:Hf; [|by rewrite rearms_mount in Hre].
      destruct (OpenInv_registered p f Hinv Hf) as (handler & delay0 & Hr).
      by destruct (render_keep_open effect delay deps (component p) f handler delay0 Hf Hr)
        as (-> & _); [by rewrite Hf|].
  - split; [done|]. unfold alone. cbn [page_step own_after step component own].
    destruct (fiber (component p)) as [f|] eqn:Hf; [|by unfold unmount; rewrite Hf].
    destruct (OpenInv_registered p f Hinv Hf) as (handler & delay & Hr).
    destruct (unmount_open (component p) f handler delay Hwf Hf Hr) as (_ & _ & _ & _ & _ & ->).
    rewrite dom_delete. intros id [Hid _]%elem_of_difference. by apply Ha.
  - cbn [page_step step]. rewrite page_tick_eq. cbn [component]. split.
    + rewrite own_calls_alone by done. unfold tick. by destruct (advance dt (host (component p))).
    + unfold alone. cbn [component host own]. rewrite advance_view by done.
      etrans; [apply dom_filter_subseteq|done].
Qed.

Lemma alone_run p es :
  OpenInv p -> alone p -> component (page_run p (Hook <$> es)) = run (component p) es.
Proof.
  revert p. induction es as [|e es IH]; intros p Hinv Ha; [done|].
  cbn [fmap list_fmap page_run foldl run]. destruct (alone_step p e Hinv Ha) as [<- Ha'].
  by apply IH; [apply OpenInv_step|].
Qed.

(** ** The frame of the hook's own events *)

(** The handles of the hook after an event are those before it and, at
    most, the one the host issues next. *)
Lemma own_after_fresh p e id :
  id ∈ own_after p e -> id ∈ own p \/ id = th_issued (host (component p)).
Proof.
  destruct e as [effect delay deps| |dt]; cbn [own_after]; [|by left..].
  destruct (rearms _ _ _ _); [|by left].
  intros [->%elem_of_singleton|?]%elem_of_union; [by right|by left].
Qed.

(** A render or an unmount of the component does not move the clock, does
    not take back a handle, and leaves every timer that is not the hook's
    as it was. *)
Lemma hook_frame p e :
  OpenInv p ->
  (forall dt, e ≠ Advance dt) ->
  let h' := host (component (page_step p (Hook e))) in
  th_now h' = th_now (host (component p)) /\
  (th_issued (host (component p)) <= th_issued h')%nat /\
  forall id, id ∉ own_after p e -> th_view h' !! id = th_view (host (component p)) !! id.
Proof.
  intros Hinv He. pose proof (oi_wf p Hinv) as Hwf. cbn zeta.
  destruct e as [effect delay deps| |dt]; [| |by destruct (He dt)]; cbn [page_step step component own_after] in *.
  - destruct (rearms (fiber (component p)) effect delay deps) eqn:Hre.
    + destruct (render_rearm_open effect delay deps (component p) Hwf
                  (fun f => OpenInv_registered p f Hinv) Hre) as (_ & -> & _ & -> & -> & _).
      split_and!; [done|lia|]. intros id Hid.
      rewrite lookup_insert_ne by set_solver. apply cancelled_other; [done|set_solver].
    + destruct (fiber (component p)) as [f|] eqn:Hf; [|by rewrite rearms_mount in Hre].
      destruct (OpenInv_registered p f Hinv Hf) as (handler & delay0 & Hr).
      by destruct (render_keep_open effect delay deps (component p) f handler delay0 Hf Hr)
        as (-> & _); [by rewrite Hf|].
  - destruct (fiber (component p)) as [f|] eqn:Hf; [|by unfold unmount; rewrite Hf].
    destruct (OpenInv_registered p f Hinv Hf) as (handler & delay & Hr).
    destruct (unmount_open (component p) f handler delay Hwf Hf Hr) as (_ & _ & _ & -> & -> & ->).
    split_and!; [done..|]. intros id Hid. pose proof (cancelled_other p id Hinv Hid) as Hc.
    rewrite Hf in Hc. by rewrite (registered_cleanup f handler delay Hr) in Hc.
Qed.

(** ** Theorems *)

(** C13: on a shared page too, at most one timer of the hook is pending,
    whatever the rest of the page schedules and cancels in between. *)
Theorem shared_single_timer p :
  page_reachable p -> (size (own_view p) <= 1)%nat.
Proof.
  intros Hinv%page_reachable_OpenInv. destruct (own_view_cases p Hinv) as [->|(handler & e & ->)].
  - by rewrite map_size_empty; lia.
  - by rewrite map_size_singleton.
Qed.

(** C14: on a shared page too, once the component is unmounted the timers of
    the hook make no call, whatever time passes and whatever the rest of
    the page does with its own timers. *)
Theorem shared_no_call_after_unmount p es :
  page_reachable p ->
  Forall (fun e => isHookRender e = false) es ->
  calls (component (page_run (page_step p (Hook Unmount)) es)) = calls (component p).
Proof.
  intros Hinv%page_reachable_OpenInv Hes.
  assert (fiber (component (page_step p (Hook Unmount))) = None /\
          calls (component (page_step p (Hook Unmount))) = calls (component p)) as [Hf <-].
  { cbn [page_step component step]. unfold unmount. by destruct (fiber (component p)) eqn:Hf. }
  by apply disposed_page_run; [apply OpenInv_step|..].
Qed.

(** C15: the frame.  A render or an unmount of the component leaves every
    timer that is not the hook's as it was: the hook cancels and schedules
    under its own handles only. *)
Theorem hook_leaves_other_timers p e id :
  page_reachable p ->
  (forall dt, e ≠ Advance dt) ->
  id ∉ own_after p e ->
  th_view (host (component (page_step p (Hook e)))) !! id = th_view (host (component p)) !! id.
Proof.
  intros Hinv%page_reachable_OpenInv He Hid.
  by destruct (hook_frame p e Hinv He) as (_ & _ & Hv); apply Hv.
Qed.

Lemma unissued_not_pending h : th_wf h -> th_view h !! th_issued h = None.
Proof.
  intros Hwf. apply eq_None_not_Some. intros [e He].
  pose proof (th_wf_issued _ _ _ Hwf He). lia.
Qed.

(** C25: round trip.  Mounting the component and unmounting it again, with
    no time in between, leaves the timer table of the page, the clock and
    the calls as they were: the timer that the mount scheduled is the one
    the unmount cancels, and nothing else is touched. *)
Theorem mount_unmount_roundtrip effect delay deps p :
  page_reachable p ->
  fiber (component p) = None ->
  let p' := page_run p [Hook (Render effect delay deps); Hook Unmount] in
  th_view (host (component p')) = th_view (host (component p)) /\
  th_now (host (component p')) = th_now (host (component p)) /\
  calls (component p') = calls (component p) /\
  fiber (component p') = None.
Proof.
  intros Hinv%page_reachable_OpenInv Hf. pose proof (oi_wf p Hinv) as Hwf. cbn zeta.
  cbn [page_run foldl page_step component step].
  destruct (render_rearm_open effect delay deps (component p) Hwf
              (fun f => OpenInv_registered p f Hinv)) as (Hwf1 & Hn1 & Hc1 & _ & Hv1 & f1 & Hf1 & Hr1 & _).
  { by rewrite Hf. }
  destruct (unmount_open _ f1 _ delay Hwf1 Hf1 Hr1) as (_ & -> & -> & -> & _ & ->).
  rewrite Hv1, Hf. cbn [cleanup_of mbind option_bind cancelled].
  by rewrite delete_insert_id by by apply unissued_not_pending.
Qed.

(** The component alone on the page is the component of [Debounce.v]:
    with no other event than its own, the shared page runs it exactly as
    the closed system does. *)
Theorem alone_is_closed es :
  component (page_run start (Hook <$> es)) = run initial es.
Proof. apply alone_run; [apply OpenInv_start|apply alone_start]. Qed.

End OpenPage.

Arguments Shared T : clear implicits.

(** ** The theorems at work on the queue implementation *)

(** A page on which other code keeps a timer of its own (handle 1, due at
    500), the component registers [7] and then [8], and other code
    schedules and cancels around it. *)
Definition busy_page : Shared (TimerQueue.host TimerCallback) :=
  page_run start
    [OtherSet {| tc_callback := 99 |} 500; Hook (Render 7 100 [VNum 1]);
     OtherSet {| tc_callback := 98 |} 10; Hook (Advance 50);
     Hook (Render 8 100 [VNum 2]); OtherClear 2].

Lemma busy_page_reachable : page_reachable busy_page.
Proof. by eexists. Defined.

Lemma shared_single_timer_witness : (size (own_view busy_page) <= 1)%nat.
Proof. apply (shared_single_timer busy_page), busy_page_reachable. Defined.

Lemma shared_no_call_after_unmount_witness :
  calls (component (page_run (page_step busy_page (Hook Unmount))
    [OtherSet {| tc_callback := 97 |} 5; Hook (Advance 1000)])) = calls (component busy_page).
Proof.
  apply (shared_no_call_after_unmount busy_page [OtherSet {| tc_callback := 97 |} 5; Hook (Advance 1000)]).
  - exact busy_page_reachable.
  - by repeat constructor.
Defined.

Lemma hook_leaves_other_timers_witness :
  th_view (host (component (page_step busy_page (Hook Unmount)))) !! 1%nat =
  th_view (host (component busy_page)) !! 1%nat.
Proof.
  apply (hook_leaves_other_timers busy_page Unmount 1%nat).
  - exact busy_page_reachable.
  - done.
  - by vm_compute.
Defined.

Lemma mount_unmount_roundtrip_witness :
  let p := page_step busy_page (Hook Unmount) in
  let p' := page_run p [Hook (Render 9 250 [VNum 3]); Hook Unmount] in
  th_view (host (component p')) = th_view (host (component p)) /\
  th_now (host (component p')) = th_now (host (component p)) /\
  calls (component p') = calls (component p) /\
  fiber (component p') = None.
Proof.
  apply (mount_unmount_roundtrip 9%nat 250 [VNum 3] (page_step busy_page (Hook Unmount))).
  - by exists [OtherSet {| tc_callback := 99 |} 500; Hook (Render 7 100 [VNum 1]);
               OtherSet {| tc_callback := 98 |} 10; Hook (Advance 50);
               Hook (Render 8 100 [VNum 2]); OtherClear 2; Hook Unmount].
  - reflexivity.
Defined.
