(* ===== verification/Phases.v ===== *)
(** * Phases: the effects of a render run later

    In [Debounce.v] a render and the commit of its effect are one event.
    React runs the effects of [useEffect] after the render has been
    committed, at a time of its choosing, and at the latest before the next
    render; the cleanup of an unmounted component is deferred in the same
    way.  Time may pass, and timers may fire, between a render and its
    effects.

    This file gives the component with that freedom: a render computes the
    slots and leaves a task, a flush runs the task.  The main theorem is
    that deferring changes nothing but the time at which the render counts:
    every execution is the execution of [Debounce.v] in which each render
    and each unmount happens when its task is flushed. *)

From stdpp Require Import gmap.
From S2P Require Import Prelude JsNumber React Timers Debounce.

(** What a render or an unmount leaves to be done. *)
Inductive Task : Type :=
| Passive (cbHook : CallbackHook ref) (eff : Effect Create Cleanup)
| Teardown (hook : option (EffectHook Cleanup)).

Inductive phase_event : Type :=
| PRender (effect : ref) (delay : number) (deps : list val)
| PUnmount
| PFlush
| PAdvance (dt : Z).

Section Phases.
Context {T : Type} `{!TimerHost TimerCallback T}.

(** ** The component with deferred effects *)

Record Phased : Type := {
  sys : System T;
  todo : option Task;
}.

Definition pstart : Phased :=
  {| sys := initial; todo := None |}.

(** Running the task: the commit of the effect, or the cleanup of the
    unmounted component. *)
Definition pflush (ps : Phased) : Phased :=
  match todo ps with
  | None => ps
  | Some (Passive cbHook eff) =>
      let (effHook, host') := commitEffect runCreate runCleanup eff (host (sys ps)) in
      {| sys := {| host := host';
                   fiber := Some {| callbackHook := cbHook; effectHook := effHook |};
                   calls := calls (sys ps) |};
         todo := None |}
  | Some (Teardown hook) =>
      {| sys := {| host := st_exec (commitHookEffectListUnmount runCleanup (hook ≫= eff_destroy))
                                   (host (sys ps));
                   fiber := None;
                   calls := calls (sys ps) |};
         todo := None |}
  end.

(** A render: what is left of the previous render runs first; the slots
    are those the render computed, the cleanup in the effect slot still the
    previous one. *)
Definition prender (effect : ref) (delay : number) (deps : list val) (ps : Phased) : Phased :=
  let ps := pflush ps in
  let (cbHook, eff) := useDebounce (fiber (sys ps)) effect delay deps in
  {| sys := {| host := host (sys ps);
               fiber := Some {| callbackHook := cbHook;
                                effectHook := {| eff_deps := e_deps eff; eff_destroy := e_destroy eff |} |};
               calls := calls (sys ps) |};
     todo := Some (Passive cbHook eff) |}.

Definition punmount (ps : Phased) : Phased :=
  let ps := pflush ps in
  {| sys := {| host := host (sys ps); fiber := None; calls := calls (sys ps) |};
     todo := Some (Teardown (effectHook <$> fiber (sys ps))) |}.

Definition ptick (dt : Z) (ps : Phased) : Phased :=
  {| sys := tick dt (sys ps); todo := todo ps |}.

Definition pstep (ps : Phased) (e : phase_event) : Phased :=
  match e with
  | PRender effect delay deps => prender effect delay deps ps
  | PUnmount => punmount ps
  | PFlush => pflush ps
  | PAdvance dt => ptick dt ps
  end.

Definition prun (ps : Phased) (es : list phase_event) : Phased :=
  foldl pstep ps es.

Definition preachable (ps : Phased) : Prop :=
  exists es, ps = prun pstart es.

(** ** The execution of [Debounce.v] that an execution amounts to *)

Definition owed_event (o : option event) : list event :=
  match o with
  | Some e => [e]
  | None => []
  end.

(** The events in the order in which they take effect: a render or an
    unmount when it is flushed.  [o] is the event whose task is open. *)
Fixpoint linearise (o : option event) (es : list phase_event) : list event :=
  match es with
  | [] => []
  | PRender effect delay deps :: es' => owed_event o ++ linearise (Some (Render effect delay deps)) es'
  | PUnmount :: es' => owed_event o ++ linearise (Some Unmount) es'
  | PFlush :: es' => owed_event o ++ linearise None es'
  | PAdvance dt :: es' => Advance dt :: linearise o es'
  end.

(** The event whose task is open after [es]. *)
Definition open_after (o : option event) (es : list phase_event) : option event :=
  foldl (fun o e =>
    match e with
    | PRender effect delay deps => Some (Render effect delay deps)
    | PUnmount => Some Unmount
    | PFlush => None
    | PAdvance _ => o
    end) o es.

Definition isPRender (e : phase_event) : bool :=
  match e with
  | PRender _ _ _ => true
  | _ => false
  end.

(** *** The simulation relation

    [sim ps s o]: the component with deferred effects is in state [ps]
    where the component of [Debounce.v] is in state [s] and has the event
    [o] still to come. *)
Inductive sim : Phased -> System T -> option event -> Prop :=
| sim_idle s :
    sim {| sys := s; todo := None |} s None
| sim_passive s effect delay deps :
    sim {| sys := {| host := host s;
                     fiber := Some {|
                       callbackHook := (useDebounce (fiber s) effect delay deps).1;
                       effectHook := {|
                         eff_deps := e_deps (useDebounce (fiber s) effect delay deps).2;
                         eff_destroy := e_destroy (useDebounce (fiber s) effect delay deps).2 |} |};
                     calls := calls s |};
           todo := Some (Passive (useDebounce (fiber s) effect delay deps).1
                                 (useDebounce (fiber s) effect delay deps).2) |}
        s (Some (Render effect delay deps))
| sim_teardown s :
    sim {| sys := {| host := host s; fiber := None; calls := calls s |};
           todo := Some (Teardown (effectHook <$> fiber s)) |}
        s (Some Unmount).

Definition catch_up (s : System T) (o : option event) : System T :=
  run s (owed_event o).

Implicit Types (ps : Phased) (s : System T) (o : option event) (es : list phase_event).

(** ** One event at a time *)

Lemma sim_observe ps s o : sim ps s o -> host (sys ps) = host s /\ calls (sys ps) = calls s.
Proof. by destruct 1. Qed.

Lemma sim_flush ps s o : sim ps s o -> sim (pflush ps) (catch_up s o) None.
Proof.
  destruct 1 as [s|s effect delay deps|s]; unfold pflush, catch_up; cbn [todo sys host calls run foldl owed_event step].
  - apply sim_idle.
  - unfold render. destruct (useDebounce (fiber s) effect delay deps) as [cbHook eff]. cbn [fst snd].
    destruct (commitEffect runCreate runCleanup eff (host s)). apply sim_idle.
  - destruct s as [h [f|] cs]; unfold unmount; cbn [fiber host calls]; apply sim_idle.
Qed.

Lemma sim_tick dt ps s o : sim ps s o -> sim (ptick dt ps) (tick dt s) o.
Proof.
  destruct 1 as [s|s effect delay deps|s]; unfold ptick; cbn [todo sys]; [apply sim_idle|..];
    destruct s as [h fib cs]; unfold tick; cbn [host fiber calls];
    destruct (advance dt h) as [fired h'].
  - apply (sim_passive {| host := h'; fiber := fib; calls := cs ++ (invoke <$> fired) |}).
  - apply (sim_teardown {| host := h'; fiber := fib; calls := cs ++ (invoke <$> fired) |}).
Qed.

Lemma sim_render effect delay deps ps s o :
  sim ps s o -> sim (prender effect delay deps ps) (catch_up s o) (Some (Render effect delay deps)).
Proof.
  intros Hs%sim_flush. unfold prender. inversion Hs as [s' Hps Hs'| |]; subst. cbn [sys].
  pose proof (sim_passive (catch_up s o) effect delay deps) as Hp.
  by destruct (useDebounce (fiber (catch_up s o)) effect delay deps).
Qed.

Lemma sim_unmount ps s o : sim ps s o -> sim (punmount ps) (catch_up s o) (Some Unmount).
Proof.
  intros Hs%sim_flush. unfold punmount. inversion Hs as [s' Hps Hs'| |]; subst. cbn [sys].
  apply sim_teardown.
Qed.

(** ** Executions *)

Lemma sim_run es ps s o :
  sim ps s o -> sim (prun ps es) (run s (linearise o es)) (open_after o es).
Proof.
  revert ps s o. induction es as [|e es IH]; intros ps s o Hs; [done|].
  destruct e as [effect delay deps| | |dt]; cbn [prun foldl pstep linearise open_after].
  - rewrite run_app. by apply IH, sim_render.
  - rewrite run_app. by apply IH, sim_unmount.
  - rewrite run_app. by apply IH, sim_flush.
  - by apply IH, sim_tick.
Qed.

Lemma linearise_app o es1 es2 :
  linearise o (es1 ++ es2) = linearise o es1 ++ linearise (open_after o es1) es2.
Proof.
  revert o. induction es1 as [|e es1 IH]; intros o; [done|].
  destruct e; cbn [app linearise open_after foldl]; rewrite IH; by rewrite <- ?app_assoc.
Qed.

Lemma open_after_app o es1 es2 : open_after o (es1 ++ es2) = open_after (open_after o es1) es2.
Proof. apply foldl_app. Qed.

(** Without a render among the events and none open, the events that take
    effect hold no render. *)
Lemma linearise_no_render o es :
  Forall (fun e => isRender e = false) (owed_event o) ->
  Forall (fun e => isPRender e = false) es ->
  Forall (fun e => isRender e = false) (linearise o es).
Proof.
  revert o. induction es as [|e es IH]; intros o Ho Hes; [constructor|].
  apply Forall_cons in Hes as [He Hes].
  destruct e as [effect delay deps| | |dt]; [done|..]; cbn [linearise].
  - apply Forall_app. split; [done|]. apply IH; [by repeat constructor|done].
  - apply Forall_app. split; [done|]. apply IH; [constructor|done].
  - constructor; [done|]. by apply IH.
Qed.

Lemma preachable_sim ps :
  preachable ps -> exists s o, reachable s /\ sim ps s o.
Proof.
  intros [es ->]. exists (run initial (linearise None es)), (open_after None es).
  split; [by eexists|]. apply sim_run, sim_idle.
Qed.

Lemma sim_catch_up_calls ps s o : sim ps s o -> calls (catch_up s o) = calls s.
Proof.
  destruct 1; unfold catch_up; cbn [owed_event run foldl step];
    [done|apply render_calls|apply unmount_calls].
Qed.

(** ** Theorems *)

(** Deferring the effects changes nothing but the time at which a
    render counts.  Every execution of the component with deferred effects
    has, at each point, the host and the calls of the execution of
    [Debounce.v] in which each render and each unmount takes place when its
    task is flushed; what is still open is the last render or unmount. *)
Theorem deferred_is_late es :
  sim (prun pstart es) (run initial (linearise None es)) (open_after None es).
Proof. apply sim_run, sim_idle. Qed.

(** C16: with deferred effects too, at most one timer is pending at any
    time, between a render and its effects included. *)
Theorem deferred_single_timer ps :
  preachable ps -> (size (th_view (host (sys ps))) <= 1)%nat.
Proof.
  intros (s & o & Hs%reachable_Inv & [-> _]%sim_observe)%preachable_sim. by apply Inv_single.
Qed.

(** C18: once the cleanup of the unmounted component has run, the action is
    never called again, whatever time passes and however the host flushes. *)
Theorem no_call_after_cleanup ps es :
  preachable ps ->
  Forall (fun e => isPRender e = false) es ->
  calls (sys (prun (pflush (punmount ps)) es)) = calls (sys ps).
Proof.
  intros (s & o & Hr & Hs)%preachable_sim Hes.
  pose proof (sim_flush _ _ _ (sim_unmount _ _ _ Hs)) as Hs1.
  pose proof (reachable_run s (owed_event o) Hr) as Hr1.
  pose proof (reachable_Inv _ (reachable_run _ [Unmount] Hr1)) as Hinv.
  destruct (sim_observe _ _ _ (sim_run es _ _ _ Hs1)) as [_ ->].
  destruct (sim_observe _ _ _ Hs) as [_ ->]. rewrite <- (sim_catch_up_calls _ _ _ Hs).
  rewrite <- (unmount_calls (catch_up s o)).
  apply disposed_run; [done| |by apply linearise_no_render; [constructor|]].
  by apply (unmount_spec (catch_up s o)), reachable_Inv.
Qed.

(** A render cancels nothing until its effects are flushed: when time
    passes right after a render, the calls made are those that would have
    been made without the render. *)
Theorem unflushed_render_cancels_nothing effect delay deps dt ps :
  calls (sys (ptick dt (prender effect delay deps ps))) = calls (tick dt (sys (pflush ps))).
Proof.
  unfold prender, ptick. cbn [sys]. destruct (useDebounce _ _ _ _) as [cbHook eff]. cbn [sys].
  unfold tick. cbn [host calls]. by destruct (advance dt (host (sys (pflush ps)))).
Qed.

End Phases.

Arguments Phased T : clear implicits.

(** ** The theorems at work on the queue implementation *)

(** A second registration, 99 ms into the first, whose effects have not
    run when the first timer comes due. *)
Definition late_demo : Phased (TimerQueue.host TimerCallback) :=
  prun pstart [PRender 7 100 [VNum 1]; PFlush; PAdvance 99; PRender 8 100 [VNum 2]; PAdvance 1].

Lemma late_demo_reachable : preachable late_demo.
Proof. by eexists. Defined.

Lemma deferred_single_timer_witness : (size (th_view (host (sys late_demo))) <= 1)%nat.
Proof. apply (deferred_single_timer late_demo), late_demo_reachable. Defined.

Lemma no_call_after_cleanup_witness :
  calls (sys (prun (pflush (punmount late_demo)) [PAdvance 1000; PFlush; PUnmount; PAdvance 5])) =
  calls (sys late_demo).
Proof.
  apply (no_call_after_cleanup late_demo [PAdvance 1000; PFlush; PUnmount; PAdvance 5]).
  - exact late_demo_reachable.
  - by repeat constructor.
Defined.

(** The first registration was overtaken after 99 ms of its 100, and its
    action is called all the same: the render that overtook it had not run
    its effects when the timer came due. *)
Example late_flush_fires_previous :
  calls (sys late_demo) = [(100, 7%nat)] /\
  calls (run (initial : System (TimerQueue.host TimerCallback))
           [Render 7 100 [VNum 1]; Advance 99; Render 8 100 [VNum 2]; Advance 1]) = [].
Proof. by vm_compute. Qed.
