(* ===== verification/Liveness.v ===== *)
(** * Liveness: a registration that is left alone fires

    The theorems of [Debounce.v] on firing consider one passage of time
    after a render.  The host lets time pass in as many steps as it likes;
    this file shows that only the total matters: a registration that is
    followed by nothing but the passing of time makes its call, once, when
    the time passed reaches the delay, at its due time, and never before.

    The measure of the argument is the time left until the timer is due:
    every passage of time takes its length off it, and the call is made by
    the step that takes it to zero. *)

From stdpp Require Import gmap.
From S2P Require Import Prelude JsNumber React Timers Debounce.

Section Liveness.
Context {T : Type} `{!TimerHost TimerCallback T}.

Implicit Types (s : System T) (es : list event).

(** ** Vocabulary *)

Definition isAdvance (e : event) : bool :=
  match e with
  | Advance _ => true
  | _ => false
  end.

(** Nothing happens to the component but the passing of time. *)
Definition quiet es : Prop :=
  Forall (fun e => isAdvance e = true) es.

(** The time that passes during [es]. *)
Definition passed es : Z :=
  foldr (fun e acc => match e with Advance dt => Z.max 0 dt + acc | _ => acc end) 0 es.

(** The time left until the pending timer, if any, is due. *)
Definition time_left s : option Z :=
  (fun kv => kv.2.1 - th_now (host s)) <$> head (map_to_list (th_view (host s))).

(** ** Time passing in steps *)

Lemma passed_nonneg es : 0 <= passed es.
Proof. induction es as [|[| |dt] es IH]; simpl; lia. Qed.

Lemma passed_app es1 es2 : passed (es1 ++ es2) = passed es1 + passed es2.
Proof. induction es1 as [|[| |dt] es1 IH]; simpl; lia. Qed.

Lemma tick_now dt s : th_now (host (tick dt s)) = th_now (host s) + Z.max 0 dt.
Proof. unfold tick. rewrite <- advance_now. by destruct (advance dt (host s)). Qed.

Lemma tick_wf dt s : th_wf (host s) -> th_wf (host (tick dt s)).
Proof. intros Hwf. unfold tick. pose proof (advance_wf dt _ Hwf). by destruct (advance dt (host s)). Qed.

(** With no timer pending, time passes without a call. *)
Lemma quiet_idle es s :
  th_wf (host s) -> th_view (host s) = ∅ -> quiet es ->
  calls (run s es) = calls s /\ th_now (host (run s es)) = th_now (host s) + passed es.
Proof.
  revert s. induction es as [|e es IH]; intros s Hwf Hv Hq; [simpl; split; [done|lia]|].
  apply Forall_cons in Hq as [He Hq]. destruct e as [| |dt]; [done..|].
  change (run s (Advance dt :: es)) with (run (tick dt s) es).
  change (passed (Advance dt :: es)) with (Z.max 0 dt + passed es).
  destruct (tick_idle dt s Hwf Hv) as (Hc & Hv' & _).
  destruct (IH (tick dt s) (tick_wf dt s Hwf) Hv' Hq) as [-> ->].
  rewrite Hc, tick_now. split; [done|lia].
Qed.

(** With one timer pending, the call is made by the step that reaches its
    due time, and by no other. *)
Lemma quiet_armed es s id due cb :
  th_wf (host s) -> th_view (host s) = {[id := (due, cb)]} -> quiet es ->
  calls (run s es) =
    (if decide (due <= th_now (host s) + passed es /\ es ≠ [])
     then calls s ++ [(due, tc_callback cb)] else calls s) /\
  th_now (host (run s es)) = th_now (host s) + passed es.
Proof.
  revert s. induction es as [|e es IH]; intros s Hwf Hv Hq.
  { simpl. rewrite decide_False by (by intros [_ ?]). split; [done|lia]. }
  apply Forall_cons in Hq as [He Hq]. destruct e as [| |dt]; [done..|].
  change (run s (Advance dt :: es)) with (run (tick dt s) es).
  change (passed (Advance dt :: es)) with (Z.max 0 dt + passed es).
  pose proof (passed_nonneg es) as Hp.
  pose proof (tick_wf dt s Hwf) as Hwf'. pose proof (tick_now dt s) as Hn.
  pose proof (advance_view_single dt (host s) id due cb Hwf Hv) as Hv'.
  rewrite (tick_armed dt s id due cb Hwf Hv) in *. case_decide as Hdue.
  - destruct (quiet_idle es _ Hwf' Hv' Hq) as [-> ->]. cbn [calls] in *.
    rewrite decide_True by (split; [lia|done]). split; [done|]. cbn [host] in *. lia.
  - destruct (IH _ Hwf' Hv' Hq) as [-> ->]. cbn [calls host] in *. split; [|lia].
    rewrite Hn. destruct es as [|e' es'].
    + rewrite !decide_False; [done|simpl; lia|by intros [_ ?]].
    + apply decide_ext. split; (intros [? _]; split; [lia|done]).
Qed.

(** A measure of what is left to wait: a step of time takes its length off
    it. *)
Lemma time_left_tick dt s id due cb :
  th_wf (host s) -> th_view (host s) = {[id := (due, cb)]} ->
  time_left s = Some (due - th_now (host s)) /\
  time_left (tick dt s) =
    if decide (due <= th_now (host s) + Z.max 0 dt) then None
    else Some (due - th_now (host s) - Z.max 0 dt).
Proof.
  intros Hwf Hv. unfold time_left. rewrite tick_now.
  replace (th_view (host (tick dt s))) with (th_view (advance dt (host s)).2)
    by (unfold tick; by destruct (advance dt (host s))).
  rewrite (advance_view_single dt _ id due cb Hwf Hv), Hv, map_to_list_singleton.
  split; [done|]. case_decide; [by rewrite map_to_list_empty|].
  rewrite map_to_list_singleton. simpl. f_equal. lia.
Qed.

(** ** Theorems *)

Lemma registration_quiet effect delay deps es s :
  Inv s -> rearms (fiber s) effect delay deps = true -> quiet es ->
  calls (run s (Render effect delay deps :: es)) =
    if decide (th_delay delay <= passed es /\ es ≠ [])
    then calls s ++ [(th_now (host s) + th_delay delay, nextCallback (fiber s) effect deps)]
    else calls s.
Proof.
  intros Hinv Hre Hq. destruct (render_rearm effect delay deps s Hinv Hre) as (Hv & Hn & Hc).
  pose proof (Inv_render effect delay deps s Hinv) as [Hwf' _].
  change (run s (Render effect delay deps :: es)) with (run (render effect delay deps s) es).
  destruct (quiet_armed es _ _ _ _ Hwf' Hv Hq) as [-> _].
  rewrite Hn, Hc. apply decide_ext. split; (intros [? ?]; split; [lia|done]).
Qed.

(** C19: liveness.  A registration that is followed by nothing but the
    passing of time makes its call as soon as the time passed reaches the
    delay, however the host cuts that time into steps: the callback
    memoised by the render is called, once, at the time of the render plus
    the delay. *)
Theorem registration_eventually_fires effect delay deps es s :
  reachable s ->
  rearms (fiber s) effect delay deps = true ->
  quiet es -> es ≠ [] ->
  th_delay delay <= passed es ->
  calls (run s (Render effect delay deps :: es)) =
  calls s ++ [(th_now (host s) + th_delay delay, nextCallback (fiber s) effect deps)].
Proof.
  intros Hinv%reachable_Inv Hre Hq Hne Hp.
  by rewrite (registration_quiet _ _ _ _ _ Hinv Hre Hq), decide_True.
Qed.

(** C37: the debounced action never runs early.  After a registration that
    is followed by nothing but the passing of time, no call is made while
    the time passed is short of the delay, however the host cuts that time
    into steps. *)
Theorem registration_not_before effect delay deps es s :
  reachable s ->
  rearms (fiber s) effect delay deps = true ->
  quiet es ->
  passed es < th_delay delay ->
  calls (run s (Render effect delay deps :: es)) = calls s.
Proof.
  intros Hinv%reachable_Inv Hre Hq Hp.
  rewrite (registration_quiet _ _ _ _ _ Hinv Hre Hq), decide_False; [done|]. intros [? _]. lia.
Qed.

End Liveness.

(** ** The theorems at work on the queue implementation *)

Lemma registration_eventually_fires_witness :
  calls (run armed_demo (Render 8 30 [VNum 2] :: [Advance 10; Advance (-5); Advance 10; Advance 15])) =
  calls armed_demo ++ [(80, 8%nat)].
Proof.
  rewrite (registration_eventually_fires 8%nat 30 [VNum 2]
             [Advance 10; Advance (-5); Advance 10; Advance 15] armed_demo).
  - reflexivity.
  - exact armed_demo_reachable.
  - reflexivity.
  - by repeat constructor.
  - done.
  - by vm_compute.
Defined.

Lemma registration_not_before_witness :
  calls (run armed_demo (Render 8 30 [VNum 2] :: [Advance 10; Advance (-5); Advance 19])) =
  calls armed_demo.
Proof.
  apply (registration_not_before 8%nat 30 [VNum 2] [Advance 10; Advance (-5); Advance 19] armed_demo).
  - exact armed_demo_reachable.
  - reflexivity.
  - by repeat constructor.
  - by vm_compute.
Defined.
