(* ===== verification/Hosts.v ===== *)
(** * Hosts: what the component does is decided by the timer interface

    [Debounce.v] proves its theorems for an arbitrary host that satisfies
    [TimerHost].  This file shows that the interface leaves nothing open
    that the component could observe: on any two hosts that satisfy it,
    read delays alike and start their clocks at the same time, the same
    events make the same calls at the same times.  The hosts may issue
    different handles and keep their timers as they like.

    The first part is about hosts alone: two hosts that satisfy the
    interface and are [alike] answer every sequence of operations alike
    ([interface_determines_host]), so the sorted queue of [Timers.v]
    implements the table of [TimerTable.v].  The second part is about the
    component, and does not ask the hosts to issue the same handles.

    Its proof is a simulation.  [twin] relates two components that agree on
    everything but the handles: the calls made, the clock, the timers
    pending (without their handles) and the slots of the hook up to the
    handle the cleanup holds.  Every event keeps twins twins. *)

From stdpp Require Import gmap.
From S2P Require Import Prelude JsNumber React Timers TimerTable Debounce Refinement Liveness.

(** ** The interface determines the host

    Two hosts that satisfy the interface and agree on the pending timers,
    the clock and the next handle answer every operation alike and agree
    again afterwards: the laws leave no freedom that a client could
    observe.  In particular the order in which timers fire is fixed. *)

Lemma fires_before_NoDup {C : Type} (l : list (timer C)) :
  StronglySorted fires_before l -> NoDup l.
Proof.
  induction 1 as [|t l _ IH Hall]; constructor; [|done].
  intros Hin. rewrite Forall_forall in Hall. by apply (fires_before_irrefl t), Hall.
Qed.

(** Two lists of the same timers in firing order are the same list. *)
Lemma fired_unique {C : Type} (l1 l2 : list (timer C)) :
  StronglySorted fires_before l1 -> StronglySorted fires_before l2 ->
  (forall t, t ∈ l1 <-> t ∈ l2) -> l1 = l2.
Proof.
  intros Hs1 Hs2 Hin. apply (StronglySorted_unique_strong fires_before); [|done..|].
  - unfold fires_before. intros t u _ _ ? ?. lia.
  - by apply NoDup_Permutation; [apply fires_before_NoDup..|].
Qed.

(** What a client may ask of a host, and what it is answered. *)
Inductive host_op (C : Type) : Type :=
  | SetTimeout (cb : C) (timeout : number)
  | ClearTimeout (id : nat)
  | Elapse (dt : Z).
Arguments SetTimeout {C} _ _.
Arguments ClearTimeout {C} _.
Arguments Elapse {C} _.

Inductive host_answer (C : Type) : Type :=
  | Issued (id : nat)
  | Cleared
  | Fired (ts : list (timer C)).
Arguments Issued {C} _.
Arguments Cleared {C}.
Arguments Fired {C} _.

Section Determined.
Context {C H1 H2 : Type} `{!TimerHost C H1} `{!TimerHost C H2}.
Hypothesis same_delay : forall d, th_delay (H := H1) d = th_delay (H := H2) d.

Definition host_do {H : Type} `{!TimerHost C H} (op : host_op C) : State H (host_answer C) :=
  match op with
  | SetTimeout cb timeout => let* id := setTimeout cb timeout in st_ret (Issued id)
  | ClearTimeout id => let* _ := clearTimeout id in st_ret Cleared
  | Elapse dt => let* ts := advance dt in st_ret (Fired ts)
  end.

Fixpoint host_trace {H : Type} `{!TimerHost C H} (ops : list (host_op C)) (h : H) : list (host_answer C) :=
  match ops with
  | [] => []
  | op :: ops' => let (a, h') := host_do op h in a :: host_trace ops' h'
  end.

Record alike (h1 : H1) (h2 : H2) : Prop := {
  alike_left : th_wf h1;
  alike_right : th_wf h2;
  alike_view : th_view h1 = th_view h2;
  alike_now : th_now h1 = th_now h2;
  alike_issued : th_issued h1 = th_issued h2;
}.

Lemma alike_setTimeout cb d h1 h2 :
  alike h1 h2 ->
  (setTimeout cb d h1).1 = (setTimeout cb d h2).1 /\
  alike (setTimeout cb d h1).2 (setTimeout cb d h2).2.
Proof.
  intros [Hw1 Hw2 Hv Hn Hi]. split; [by rewrite !setTimeout_handle|].
  split; [by apply setTimeout_wf..| | |].
  - by rewrite !setTimeout_view, Hv, Hn, Hi, same_delay.
  - by rewrite !setTimeout_now.
  - by rewrite !setTimeout_issued, Hi.
Qed.

Lemma alike_clearTimeout id h1 h2 :
  alike h1 h2 -> alike (clearTimeout id h1).2 (clearTimeout id h2).2.
Proof.
  intros [Hw1 Hw2 Hv Hn Hi]. split; [by apply clearTimeout_wf..| | |].
  - by rewrite !clearTimeout_view, Hv.
  - by rewrite !clearTimeout_now.
  - by rewrite !clearTimeout_issued.
Qed.

Lemma alike_advance dt h1 h2 :
  alike h1 h2 ->
  (advance dt h1).1 = (advance dt h2).1 /\ alike (advance dt h1).2 (advance dt h2).2.
Proof.
  intros [Hw1 Hw2 Hv Hn Hi]. split.
  - apply fired_unique; [by apply advance_order..|].
    intros t. by rewrite !advance_fired, Hv, Hn.
  - split; [by apply advance_wf..| | |].
    + by rewrite !advance_view, Hv, Hn.
    + by rewrite !advance_now, Hn.
    + by rewrite !advance_issued.
Qed.

Lemma alike_do op h1 h2 :
  alike h1 h2 ->
  (host_do op h1).1 = (host_do op h2).1 /\ alike (host_do op h1).2 (host_do op h2).2.
Proof.
  intros Hal. destruct op as [cb d|id|dt]; unfold host_do; st_unfold.
  - destruct (alike_setTimeout cb d h1 h2 Hal) as [Ha Hal'].
    destruct (setTimeout cb d h1), (setTimeout cb d h2); simpl in *. by subst.
  - pose proof (alike_clearTimeout id h1 h2 Hal) as Hal'.
    by destruct (clearTimeout id h1) as [[] ?], (clearTimeout id h2) as [[] ?].
  - destruct (alike_advance dt h1 h2 Hal) as [Ha Hal'].
    destruct (advance dt h1), (advance dt h2); simpl in *. by subst.
Qed.

(** Hosts that are alike answer every sequence of operations alike. *)
Theorem interface_determines_host ops h1 h2 :
  alike h1 h2 -> host_trace ops h1 = host_trace ops h2.
Proof.
  revert h1 h2. induction ops as [|op ops IH]; intros h1 h2 Hal; [done|].
  destruct (alike_do op h1 h2 Hal) as [Ha Hal']. simpl.
  destruct (host_do op h1), (host_do op h2); simpl in *. subst. f_equal. by apply IH.
Qed.

End Determined.

(** The queue and the table are alike when fresh, and so answer alike
    for ever: the queue, which keeps its timers sorted, implements the
    table, which sorts them when they fire. *)
Corollary queue_implements_table {C : Type} (ops : list (host_op C)) :
  host_trace ops (th_init (H := TimerQueue.host C)) =
  host_trace ops (th_init (H := TimerTable.host C)).
Proof.
  apply interface_determines_host; [done|].
  split; [apply th_init_wf..|done|done|done].
Qed.

Example queue_and_table_fire_in_order :
  host_trace [SetTimeout 7%nat 30; SetTimeout 8%nat 10; SetTimeout 9%nat 10; ClearTimeout 1; Elapse 10]
    (th_init (H := TimerTable.host nat)) =
  [Issued 1; Issued 2; Issued 3; Cleared; Fired [Timer 2 10 8%nat; Timer 3 10 9%nat]].
Proof. by vm_compute. Qed.

(** ** The slots up to the handle *)

Definition same_slots (f1 f2 : DebounceFiber) : Prop :=
  callbackHook f1 = callbackHook f2 /\
  eff_deps (effectHook f1) = eff_deps (effectHook f2).

(** What a render leaves in the slots, as far as it does not depend on the
    host. *)
Definition rendered_slots (prev : option DebounceFiber) (effect : ref) (delay : number) (deps : list val) (f' : DebounceFiber) : Prop :=
  callbackHook f' = useCallback (callbackHook <$> prev) effect deps /\
  eff_deps (effectHook f') = effectDeps (nextCallback prev effect deps) delay.

#[export] Instance same_slots_equiv : Equivalence same_slots.
Proof.
  split; [by intros f|by intros f1 f2 []|intros f1 f2 f3 [] []; split; congruence].
Qed.

(** The decision to re-arm and the callback memoised depend on the slots up
    to the handle only. *)
Lemma same_slots_rearms prev1 prev2 effect delay deps :
  option_Forall2 same_slots prev1 prev2 ->
  rearms prev1 effect delay deps = rearms prev2 effect delay deps /\
  nextCallback prev1 effect deps = nextCallback prev2 effect deps.
Proof.
  intros [[cb1 [d1 c1]] [cb2 [d2 c2]] [Hcb Hd]|]; [|done]. by simplify_eq/=.
Qed.

Lemma rendered_slots_same prev1 prev2 effect delay deps f1' f2' :
  option_Forall2 same_slots prev1 prev2 ->
  rendered_slots prev1 effect delay deps f1' ->
  rendered_slots prev2 effect delay deps f2' ->
  same_slots f1' f2'.
Proof.
  intros Hprev [Hcb1 Hd1] [Hcb2 Hd2]. split; rewrite ?Hcb1, ?Hcb2, ?Hd1, ?Hd2.
  - destruct Hprev as [f1 f2 [Hcb _]|]; simpl; by rewrite ?Hcb.
  - by destruct (same_slots_rearms prev1 prev2 effect delay deps Hprev) as [_ ->].
Qed.

(** ** One host *)

Section OneHost.
Context {T : Type} `{!TimerHost TimerCallback T}.

Implicit Types (s : System T) (h : T).

(** The timers pending, without their handles. *)
Definition pending_timers h : list (Z * TimerCallback) :=
  (map_to_list (th_view h)).*2.

Lemma pending_timers_empty h : th_view h = ∅ -> pending_timers h = [].
Proof. intros Hv. unfold pending_timers. by rewrite Hv, map_to_list_empty. Qed.

Lemma pending_timers_singleton h id x : th_view h = {[id := x]} -> pending_timers h = [x].
Proof. intros Hv. unfold pending_timers. by rewrite Hv, map_to_list_singleton. Qed.

Lemma render_slots effect delay deps s :
  exists f', fiber (render effect delay deps s) = Some f' /\
    rendered_slots (fiber s) effect delay deps f'.
Proof.
  unfold render, useDebounce, rendered_slots, nextCallback, commitEffect.
  destruct (e_hasEffect _); st_unfold; simpl.
  - destruct (commitHookEffectListUnmount _ _ _) as [[] h1].
    destruct (runCreate _ h1) as [d h2]. eexists. split_and!; [done..|]. apply useEffect_deps.
  - eexists. split_and!; [done..|]. apply useEffect_deps.
Qed.

End OneHost.

(** ** Two hosts *)

Section TwoHosts.
Context {T1 T2 : Type} `{!TimerHost TimerCallback T1} `{!TimerHost TimerCallback T2}.

(** The two hosts read every delay alike. *)
Definition same_delays : Prop :=
  forall d, th_delay (H := T1) d = th_delay (H := T2) d.

(** Two components that differ in the handles they were issued. *)
Record twin (s1 : System T1) (s2 : System T2) : Prop := {
  twin_left : Inv s1;
  twin_right : Inv s2;
  twin_calls : calls s1 = calls s2;
  twin_now : th_now (host s1) = th_now (host s2);
  twin_pending : pending_timers (host s1) = pending_timers (host s2);
  twin_fiber : option_Forall2 same_slots (fiber s1) (fiber s2);
}.

Lemma twin_views (s1 : System T1) (s2 : System T2) :
  twin s1 s2 ->
  (th_view (host s1) = ∅ /\ th_view (host s2) = ∅) \/
  exists id1 id2 x, th_view (host s1) = {[id1 := x]} /\ th_view (host s2) = {[id2 := x]}.
Proof.
  intros [H1 H2 _ _ Hp _].
  destruct (Inv_view s1 H1) as [Hv1|(id1 & d1 & c1 & Hv1)], (Inv_view s2 H2) as [Hv2|(id2 & d2 & c2 & Hv2)].
  - by left.
  - by rewrite (pending_timers_empty _ Hv1), (pending_timers_singleton _ _ _ Hv2) in Hp.
  - by rewrite (pending_timers_empty _ Hv2), (pending_timers_singleton _ _ _ Hv1) in Hp.
  - rewrite (pending_timers_singleton _ _ _ Hv1), (pending_timers_singleton _ _ _ Hv2) in Hp.
    simplify_eq. right. eauto.
Qed.

Lemma twin_tick dt (s1 : System T1) (s2 : System T2) : twin s1 s2 -> twin (tick dt s1) (tick dt s2).
Proof.
  intros Htw. pose proof Htw as [H1 H2 Hc Hn Hp Hf].
  pose proof (inv_wf _ H1) as Hwf1. pose proof (inv_wf _ H2) as Hwf2.
  split; [by apply Inv_tick..| | | |].
  - destruct (twin_views _ _ Htw) as [[Hv1 Hv2]|(id1 & id2 & [due cb] & Hv1 & Hv2)].
    + destruct (tick_idle dt s1 Hwf1 Hv1) as (-> & _), (tick_idle dt s2 Hwf2 Hv2) as (-> & _). done.
    + rewrite (tick_armed dt s1 _ _ _ Hwf1 Hv1), (tick_armed dt s2 _ _ _ Hwf2 Hv2), Hn.
      case_decide; simpl; by rewrite Hc.
  - by rewrite !tick_now, Hn.
  - rewrite !tick_host. unfold pending_timers.
    destruct (twin_views _ _ Htw) as [[Hv1 Hv2]|(id1 & id2 & [due cb] & Hv1 & Hv2)].
    + by rewrite !advance_view_none.
    + rewrite (advance_view_single dt _ _ _ _ Hwf1 Hv1), (advance_view_single dt _ _ _ _ Hwf2 Hv2), Hn.
      case_decide; [done|]. by rewrite !map_to_list_singleton.
  - unfold tick. by destruct (advance dt (host s1)), (advance dt (host s2)).
Qed.

Lemma twin_unmount (s1 : System T1) (s2 : System T2) : twin s1 s2 -> twin (unmount s1) (unmount s2).
Proof.
  intros [H1 H2 Hc Hn Hp Hf].
  destruct (unmount_spec s1 H1) as (Hf1 & Hv1 & Hc1), (unmount_spec s2 H2) as (Hf2 & Hv2 & Hc2).
  split; [by apply Inv_unmount..| | | |].
  - by rewrite Hc1, Hc2.
  - by rewrite !unmount_now.
  - by rewrite !pending_timers_empty.
  - rewrite Hf1, Hf2. constructor.
Qed.

Lemma twin_update effect delay deps (s1 : System T1) (s2 : System T2) :
  same_delays -> twin s1 s2 -> twin (render effect delay deps s1) (render effect delay deps s2).
Proof.
  intros Hdelay Htw. pose proof Htw as [H1 H2 Hc Hn Hp Hf].
  destruct (same_slots_rearms _ _ effect delay deps Hf) as [Hre Hcb].
  assert (option_Forall2 same_slots (fiber (render effect delay deps s1))
            (fiber (render effect delay deps s2))) as Hf'.
  { destruct (render_slots effect delay deps s1) as (f1' & -> & Hs1).
    destruct (render_slots effect delay deps s2) as (f2' & -> & Hs2).
    constructor. by eapply rendered_slots_same. }
  destruct (rearms (fiber s2) effect delay deps) eqn:E.
  - destruct (render_rearm effect delay deps s1 H1 Hre) as (Hv1 & Hn1 & Hc1).
    destruct (render_rearm effect delay deps s2 H2 E) as (Hv2 & Hn2 & Hc2).
    split; [by apply Inv_render..| | | |done].
    + by rewrite Hc1, Hc2.
    + by rewrite Hn1, Hn2.
    + rewrite (pending_timers_singleton _ _ _ Hv1), (pending_timers_singleton _ _ _ Hv2).
      by rewrite Hn, Hcb, Hdelay.
  - destruct (render_idle effect delay deps s1 H1 Hre) as (Hh1 & Hc1).
    destruct (render_idle effect delay deps s2 H2 E) as (Hh2 & Hc2).
    split; [by apply Inv_render..| | | |done]; by rewrite ?Hh1, ?Hh2, ?Hc1, ?Hc2.
Qed.

Lemma twin_step_hosts e (s1 : System T1) (s2 : System T2) : same_delays -> twin s1 s2 -> twin (step s1 e) (step s2 e).
Proof.
  intros Hdelay Htw. destruct e; simpl;
    [by apply twin_update | by apply twin_unmount | by apply twin_tick].
Qed.

Lemma twin_run_hosts es (s1 : System T1) (s2 : System T2) : same_delays -> twin s1 s2 -> twin (run s1 es) (run s2 es).
Proof.
  intros Hdelay. apply (foldl_simulation step step twin). intros t1 t2 e. by apply twin_step_hosts.
Qed.

Lemma twin_initial :
  th_now (th_init (H := T1)) = th_now (th_init (H := T2)) -> twin initial initial.
Proof.
  intros Hnow. split; [apply Inv_initial..|done|done| |constructor].
  by rewrite !pending_timers_empty by apply th_init_view.
Qed.

(** ** Theorems *)

(** The interface decides what the component does.  On two hosts that
    satisfy the laws of the timer interface, read every delay alike and
    start at the same time, the same renders, unmounts and passages of
    time make the same calls at the same times and leave the same timers
    pending, whatever handles the hosts issue and however they keep their
    timers. *)
Theorem host_independence (es : list event) :
  same_delays ->
  th_now (th_init (H := T1)) = th_now (th_init (H := T2)) ->
  calls (run (initial (H := T1)) es) = calls (run (initial (H := T2)) es) /\
  pending_timers (host (run (initial (H := T1)) es)) =
    pending_timers (host (run (initial (H := T2)) es)) /\
  th_now (host (run (initial (H := T1)) es)) = th_now (host (run (initial (H := T2)) es)).
Proof.
  intros Hdelay Hnow.
  destruct (twin_run_hosts es _ _ Hdelay (twin_initial Hnow)) as [_ _ ? ? ? _]. done.
Qed.

End TwoHosts.

(** ** On the queue and on the table *)

Lemma host_independence_witness :
  let es := [Render 4 100 [VNum 1]; Advance 40; Render 5 250 [VNum 2]; Advance 100;
             Render 5 250 [VNum 2]; Advance 150; Unmount] in
  let s1 := run (initial (H := TimerQueue.host TimerCallback)) es in
  let s2 := run (initial (H := TimerTable.host TimerCallback)) es in
  calls s1 = calls s2 /\
  pending_timers (host s1) = pending_timers (host s2) /\
  th_now (host s1) = th_now (host s2).
Proof.
  exact (host_independence (T1 := TimerQueue.host TimerCallback) (T2 := TimerTable.host TimerCallback)
           _ (fun _ => eq_refl) eq_refl).
Defined.

Example component_on_table :
  calls (run (initial (H := TimerTable.host TimerCallback))
           [Render 4 100 [VNum 1]; Advance 40; Render 5 250 [VNum 2]; Advance 100;
            Render 5 250 [VNum 2]; Advance 150; Unmount]) = [(290, 5%nat)].
Proof. by vm_compute. Qed.
