(* ===== verification/StrictMode.v ===== *)
(** * StrictMode: the effect invoked twice on mount

    In development builds React's StrictMode mounts a component and at once
    simulates an unmount and a second mount: the cleanup of every effect
    runs, then the effect functions run again, with the closures of the
    render that has just been committed.  (The render itself is also run
    twice; it is a function of the slots, so the second run computes what
    the first did.)  A hook survives this when its cleanup undoes what its
    effect did.

    For [useDebounce] the mount then schedules a timer, cancels it and
    schedules another.  This file shows that nothing of it can be observed:
    the component mounted this way makes the calls of the component mounted
    once, at the same times, and holds the same timer under another handle.
    The relation [twin] of [Hosts.v], here between two components on one
    host, carries the proof. *)

From stdpp Require Import gmap.
From S2P Require Import Prelude JsNumber React Timers Debounce Refinement Liveness Hosts.

Section Strict.
Context {T : Type} `{!TimerHost TimerCallback T}.

Implicit Types (s : System T) (f : DebounceFiber) (h : T) (es : list event).

(** ** The component under StrictMode *)

(** The mount: render, commit, and the second invocation of the effect. *)
Definition strictMount (effect : ref) (delay : number) (deps : list val) s : System T :=
  let (cbHook, eff) := useDebounce None effect delay deps in
  let (effHook, h1) := commitEffect runCreate runCleanup eff (host s) in
  let (effHook', h2) := remountEffect runCreate runCleanup (e_create eff) effHook h1 in
  {| host := h2;
     fiber := Some {| callbackHook := cbHook; effectHook := effHook' |};
     calls := calls s |}.

(** Only the mount is doubled; an update commits once. *)
Definition strictRender (effect : ref) (delay : number) (deps : list val) s : System T :=
  match fiber s with
  | None => strictMount effect delay deps s
  | Some _ => render effect delay deps s
  end.

Definition strictStep s (e : event) : System T :=
  match e with
  | Render effect delay deps => strictRender effect delay deps s
  | _ => step s e
  end.

Definition strictRun s es : System T :=
  foldl strictStep s es.

(** ** The doubled mount *)

Lemma strictMount_spec effect delay deps s :
  strictMount effect delay deps s =
  {| host := register (Some {| cl_handler := th_issued (host s) |}) effect delay
               (register None effect delay (host s));
     fiber := Some {|
       callbackHook := {| memoizedCallback := effect; callbackDeps := deps |};
       effectHook := {| eff_deps := effectDeps effect delay;
                        eff_destroy := Some {| cl_handler := S (th_issued (host s)) |} |} |};
     calls := calls s |}.
Proof.
  unfold strictMount, useDebounce, register, remountEffect, commitEffect, runCreate, runCleanup.
  simpl. st_unfold; simpl.
  pose proof (setTimeout_handle {| tc_callback := effect |} delay (host s)) as Hh.
  pose proof (setTimeout_issued {| tc_callback := effect |} delay (host s)) as Hi.
  destruct (setTimeout _ delay (host s)) as [h0 h1]; simpl in *. subst h0.
  pose proof (clearTimeout_issued (th_issued (host s)) h1) as Hi'.
  destruct (clearTimeout _ h1) as [[] h2]; simpl in *.
  pose proof (setTimeout_handle {| tc_callback := effect |} delay h2) as Hh'.
  destruct (setTimeout _ delay h2) as [h3 h4]; simpl in *. by rewrite Hh', Hi', Hi.
Qed.

(** After the doubled mount one timer is pending: the second, due [delay]
    after now.  The first is cancelled. *)
Lemma strictMount_view effect delay deps s :
  Inv s -> fiber s = None ->
  let s' := strictMount effect delay deps s in
  th_wf (host s') /\
  th_view (host s') =
    {[S (th_issued (host s)) := (th_now (host s) + th_delay delay, {| tc_callback := effect |})]} /\
  th_now (host s') = th_now (host s) /\
  th_issued (host s') = S (S (th_issued (host s))).
Proof.
  intros [Hwf Hfib] Hf. rewrite Hf in Hfib. cbn zeta. rewrite strictMount_spec. cbn [host].
  destruct (register_fresh None effect delay (host s) Hwf) as (Hwf1 & Hv1 & Hn1 & Hi1); [done|].
  destruct (register_fresh (Some {| cl_handler := th_issued (host s) |}) effect delay _ Hwf1)
    as (? & Hv2 & Hn2 & Hi2); [simpl; rewrite Hv1; apply delete_singleton_eq|].
  rewrite Hv2, Hn2, Hi2, Hi1, Hn1. done.
Qed.

Lemma Inv_strictMount effect delay deps s :
  Inv s -> fiber s = None -> Inv (strictMount effect delay deps s).
Proof.
  intros Hinv Hf. destruct (strictMount_view effect delay deps s Hinv Hf) as (Hwf & Hv & Hn & Hi).
  split; [done|]. rewrite strictMount_spec in *. cbn [host fiber] in *.
  exists (S (th_issued (host s))), delay. split_and!; [done|lia|].
  right. eexists. split; [exact Hv|]. simpl. lia.
Qed.

(** ** Twins stay twins *)

Lemma twin_refl s : Inv s -> twin s s.
Proof. intros Hinv. by split. Qed.

Lemma twin_mount effect delay deps s1 s2 :
  twin s1 s2 -> fiber s1 = None ->
  twin (strictMount effect delay deps s1) (render effect delay deps s2).
Proof.
  intros Htw Hf1. pose proof Htw as [H1 H2 Hc Hn Hp Hf].
  assert (fiber s2 = None) as Hf2 by (rewrite Hf1 in Hf; by inversion Hf).
  destruct (strictMount_view effect delay deps s1 H1 Hf1) as (_ & Hv1 & Hn1 & _).
  destruct (render_rearm effect delay deps s2 H2) as (Hv2 & Hn2 & Hc2); [by rewrite Hf2|].
  split; [by apply Inv_strictMount|by apply Inv_render| | | |].
  - rewrite Hc2, strictMount_spec. done.
  - by rewrite Hn1, Hn2.
  - rewrite (pending_timers_singleton _ _ _ Hv1), (pending_timers_singleton _ _ _ Hv2).
    by rewrite Hn, Hf2.
  - rewrite strictMount_spec. destruct (render_slots effect delay deps s2) as (f2' & -> & Hs2).
    constructor. eapply rendered_slots_same; [exact Hf|by rewrite Hf1|exact Hs2].
Qed.

(** The relation is a partial equivalence, reflexive on the states of the
    invariant, and the events of the component respect it: what the
    component does never depends on which handles the host issues. *)
#[export] Instance twin_symmetric : Symmetric (twin (T1 := T) (T2 := T)).
Proof. intros s1 s2 [? ? ? ? ? ?]. by split. Qed.

#[export] Instance twin_transitive : Transitive (twin (T1 := T) (T2 := T)).
Proof. intros s1 s2 s3 [? ? ? ? ? ?] [? ? ? ? ? ?]. split; try congruence. by etrans. Qed.

#[export] Instance step_twin : Proper (twin ==> eq ==> twin) step.
Proof.
  intros s1 s2 Htw e ? <-. by apply twin_step_hosts.
Qed.

#[export] Instance run_twin : Proper (twin ==> eq ==> twin) run.
Proof.
  intros s1 s2 Htw es ? <-. by apply twin_run_hosts.
Qed.

#[export] Instance calls_twin : Proper (twin ==> eq) calls.
Proof. by intros s1 s2 [_ _ ? _ _ _]. Qed.

Lemma twin_step s1 s2 e : twin s1 s2 -> twin (strictStep s1 e) (step s2 e).
Proof.
  intros Htw. destruct e as [effect delay deps| |dt]; simpl.
  - unfold strictRender. destruct (fiber s1) eqn:Hf1; [by apply twin_update|by apply twin_mount].
  - by apply twin_unmount.
  - by apply twin_tick.
Qed.

Lemma twin_run es s1 s2 : twin s1 s2 -> twin (strictRun s1 es) (run s2 es).
Proof. apply (foldl_simulation strictStep step twin). intros t1 t2 e. apply twin_step. Qed.

(** ** Theorems *)

(** C20: StrictMode cannot be observed.  Whatever the host does, the
    component whose mounts are doubled makes the calls of the component
    whose mounts are not, at the same times, and has the same timers
    pending (under other handles) at the same clock value. *)
Theorem strict_mode_unobservable es :
  calls (strictRun initial es) = calls (run initial es) /\
  pending_timers (host (strictRun initial es)) = pending_timers (host (run initial es)) /\
  th_now (host (strictRun initial es)) = th_now (host (run initial es)).
Proof.
  destruct (twin_run es initial initial (twin_refl _ Inv_initial)) as [_ _ ? ? ? _]. done.
Qed.

(** Handles do not matter: two components that differ only in the handles
    they hold make the same calls under the same events. *)
Theorem handles_do_not_matter s1 s2 es :
  twin s1 s2 -> calls (run s1 es) = calls (run s2 es).
Proof. intros Htw. by rewrite Htw. Qed.

(** The doubled mount cancels the timer it scheduled first: the handle of
    the first invocation is not pending, the handle of the second is, due
    [delay] after the mount. *)
Theorem strict_mount_cancels_first effect delay deps s :
  reachable s -> fiber s = None ->
  let s' := strictMount effect delay deps s in
  th_view (host s') !! th_issued (host s) = None /\
  th_view (host s') !! S (th_issued (host s)) =
    Some (th_now (host s) + th_delay delay, {| tc_callback := effect |}) /\
  (size (th_view (host s')) <= 1)%nat.
Proof.
  intros Hinv%reachable_Inv Hf.
  destruct (strictMount_view effect delay deps s Hinv Hf) as (_ & Hv & _). cbn zeta. rewrite Hv.
  split_and!; [apply lookup_singleton_ne; lia | apply lookup_singleton_eq |].
  rewrite map_size_singleton. lia.
Qed.

End Strict.

(** ** On the queue implementation *)

Example strict_mount_on_queue :
  let s := strictRun (initial (H := TimerQueue.host TimerCallback))
             [Render 4 100 [VNum 1]; Advance 40; Render 5 100 [VNum 2]; Advance 100] in
  calls s = [(140, 5%nat)] /\ th_issued (host s) = 4%nat.
Proof. by vm_compute. Qed.

Lemma strict_mount_cancels_first_witness :
  let s' := strictMount (T := TimerQueue.host TimerCallback) 4 100 [VNum 1] initial in
  th_view (host s') !! 1%nat = None /\
  th_view (host s') !! 2%nat = Some (100, {| tc_callback := 4%nat |}) /\
  (size (th_view (host s')) <= 1)%nat.
Proof.
  exact (strict_mount_cancels_first (T := TimerQueue.host TimerCallback) 4%nat 100 [VNum 1] initial
           (ex_intro _ [] eq_refl) eq_refl).
Defined.
