(* ===== verification/Interference.v ===== *)
(** * Interference: the rest of the page cannot stop or delay the call

    [Liveness.v] shows that a registration left alone fires when the time
    passed reaches the delay.  On a page whose other code shares the timer
    table ([OpenPage.v]) the registration is not alone: between the passages
    of time other code schedules timers of its own and cancels handles it
    was issued.  This file shows that none of it matters to the component:
    the call is made when the time passed reaches the delay, at its due
    time, once, and not before.

    The argument follows the hook's part of the table ([own_view]): events
    of the rest of the page leave it as it is, and a passage of time fires
    from it what is due. *)

From stdpp Require Import gmap.
From S2P Require Import Prelude JsNumber React Timers Debounce OpenPage.

Section Interference.
Context {T : Type} `{!TimerHost TimerCallback T}.

Implicit Types (p : Shared T) (es : list page_event).

(** ** Vocabulary *)

(** The events that are not the component's own: time passing and the rest
    of the page. *)
Definition isBackground (e : page_event) : bool :=
  match e with
  | Hook (Render _ _ _) | Hook Unmount => false
  | _ => true
  end.

Definition background es : Prop :=
  Forall (fun e => isBackground e = true) es.

Definition isPageTick (e : page_event) : bool :=
  match e with
  | Hook (Advance _) => true
  | _ => false
  end.

(** The time that passes during [es]. *)
Definition page_passed es : Z :=
  foldr (fun e acc => match e with Hook (Advance dt) => Z.max 0 dt + acc | _ => acc end) 0 es.

Definition page_now p : Z :=
  th_now (host (component p)).

Definition page_calls p : list (Z * ref) :=
  calls (component p).

(** ** The hook's part of the table, event by event *)

Lemma page_passed_nonneg es : 0 <= page_passed es.
Proof. induction es as [|[[| |dt]| |] es IH]; simpl; lia. Qed.

Lemma own_view_empty p :
  own_view p = ∅ -> forall id, id ∈ own p -> th_view (host (component p)) !! id = None.
Proof.
  intros Hv id Hid. apply eq_None_not_Some. intros [e He].
  assert (own_view p !! id = Some e) as Hl by by apply own_view_lookup.
  by rewrite Hv in Hl.
Qed.

(** Other code scheduling a timer, or cancelling one of its own, leaves the
    hook's timers, the clock and the calls as they are. *)
Lemma other_set_frame cb delay p :
  OpenInv p ->
  let p' := page_step p (OtherSet cb delay) in
  own_view p' = own_view p /\ page_now p' = page_now p /\ page_calls p' = page_calls p.
Proof.
  intros Hinv. pose proof (oi_wf p Hinv) as Hwf. cbn zeta.
  unfold own_view, page_now, page_calls. cbn [page_step other component host own calls].
  rewrite setTimeout_view, setTimeout_now by done. split_and!; [|done..].
  apply map_filter_insert_not. intros y Hid. cbn [fst] in Hid.
  pose proof (oi_issued p Hinv _ Hid). lia.
Qed.

Lemma other_clear_frame id p :
  OpenInv p ->
  let p' := page_step p (OtherClear id) in
  own_view p' = own_view p /\ page_now p' = page_now p /\ page_calls p' = page_calls p.
Proof.
  intros Hinv. pose proof (oi_wf p Hinv) as Hwf. cbn zeta. cbn [page_step].
  case_decide as Hid; [done|].
  unfold own_view, page_now, page_calls. cbn [other component host own calls].
  rewrite clearTimeout_view, clearTimeout_now by done. split_and!; [|done..].
  rewrite map_filter_delete. apply delete_id, map_lookup_filter_None. right.
  intros e _ Hin. by apply Hid.
Qed.

(** What a passage of time does to the hook's part of the table. *)
Lemma page_tick_view dt p :
  OpenInv p ->
  own_view (page_tick dt p) = filter (fun kv => page_now p + Z.max 0 dt < kv.2.1) (own_view p) /\
  page_now (page_tick dt p) = page_now p + Z.max 0 dt.
Proof.
  intros Hinv. pose proof (oi_wf p Hinv) as Hwf. rewrite page_tick_eq.
  unfold own_view, page_now. cbn [component host own].
  rewrite advance_view, advance_now by done. split; [|done]. apply map_filter_comm.
Qed.

(** The timers of the hook among those that fire: the one pending, if it
    is due. *)
Lemma own_calls_single dt p id due cb :
  OpenInv p -> own_view p = {[id := (due, cb)]} ->
  own_calls (own p) (advance dt (host (component p))).1 =
  if decide (due <= page_now p + Z.max 0 dt) then [(due, tc_callback cb)] else [].
Proof.
  intros Hinv Hv. pose proof (oi_wf p Hinv) as Hwf. unfold own_calls, page_now.
  set (fired := (advance dt (host (component p))).1).
  set (mine := filter (fun t => timer_id t ∈ own p) fired).
  assert (forall u, u ∈ mine <-> u = Timer id due cb /\ due <= th_now (host (component p)) + Z.max 0 dt)
    as Hmine.
  { intros [i d c]. unfold mine, fired. rewrite list_elem_of_filter, advance_fired by done.
    cbn [timer_id timer_due timer_cb]. split.
    - intros (Hi & Hl & Hle). assert (own_view p !! i = Some (d, c)) as Hx by by apply own_view_lookup.
      rewrite Hv in Hx. by apply lookup_singleton_Some in Hx as [<- [= <- <-]].
    - intros [[= -> -> ->] Hle].
      assert (own_view p !! id = Some (due, cb)) as [? ?]%own_view_lookup
        by (rewrite Hv; apply lookup_singleton_eq). done. }
  destruct (fired_all_same mine (Timer id due cb)) as [E|E].
  - apply StronglySorted_filter. by apply advance_order.
  - intros u Hu. by apply Hmine in Hu as [-> _].
  - rewrite E. case_decide as Hdue; [|done].
    assert (Timer id due cb ∈ mine) as Hin by by apply Hmine. by rewrite E in Hin; inversion Hin.
  - rewrite E. assert (Timer id due cb ∈ mine) as [_ Hdue]%Hmine by (rewrite E; by left).
    by rewrite decide_True.
Qed.

Lemma page_tick_idle dt p :
  OpenInv p -> own_view p = ∅ ->
  own_view (page_tick dt p) = ∅ /\ page_calls (page_tick dt p) = page_calls p.
Proof.
  intros Hinv Hv. destruct (page_tick_view dt p Hinv) as [-> _]. rewrite Hv.
  split; [apply map_filter_empty|]. rewrite page_tick_eq. unfold page_calls. cbn [component calls].
  rewrite own_calls_none, app_nil_r; [done..|by apply own_view_empty].
Qed.

Lemma page_tick_armed dt p id due cb :
  OpenInv p -> own_view p = {[id := (due, cb)]} ->
  let p' := page_tick dt p in
  if decide (due <= page_now p + Z.max 0 dt)
  then own_view p' = ∅ /\ page_calls p' = page_calls p ++ [(due, tc_callback cb)]
  else own_view p' = {[id := (due, cb)]} /\ page_calls p' = page_calls p.
Proof.
  intros Hinv Hv. cbn zeta. destruct (page_tick_view dt p Hinv) as [-> _]. rewrite Hv.
  rewrite page_tick_eq. unfold page_calls. cbn [component calls].
  rewrite (own_calls_single dt p id due cb Hinv Hv). case_decide.
  - split; [|done]. apply map_filter_singleton_False. simpl. lia.
  - rewrite app_nil_r. split; [|done]. apply map_filter_singleton_True. simpl. lia.
Qed.

(** ** Runs of background events *)

(** With no timer of the hook pending, nothing the background does makes a
    call of the hook's. *)
Lemma background_idle es p :
  OpenInv p -> own_view p = ∅ -> background es ->
  page_calls (page_run p es) = page_calls p.
Proof.
  revert p. induction es as [|e es IH]; intros p Hinv Hv Hbg; [done|].
  apply Forall_cons in Hbg as [He Hbg]. cbn [page_run foldl].
  assert (own_view (page_step p e) = ∅ /\ page_calls (page_step p e) = page_calls p) as [Hv' <-].
  { destruct e as [[| |dt]|cb delay|id]; [done..| | |].
    - by apply page_tick_idle.
    - destruct (other_set_frame cb delay p Hinv) as (-> & _ & ->). done.
    - destruct (other_clear_frame id p Hinv) as (-> & _ & ->). done. }
  apply IH; [by apply OpenInv_step|done..].
Qed.

(** With the hook's timer pending, the call is made by the passage of time
    that reaches its due time, whatever the rest of the page does around
    it. *)
Lemma background_armed es p id due cb :
  OpenInv p -> own_view p = {[id := (due, cb)]} -> background es ->
  page_calls (page_run p es) =
  if decide (due <= page_now p + page_passed es /\ existsb isPageTick es = true)
  then page_calls p ++ [(due, tc_callback cb)] else page_calls p.
Proof.
  revert p. induction es as [|e es IH]; intros p Hinv Hv Hbg.
  { simpl. by rewrite decide_False by (by intros [_ ?]). }
  apply Forall_cons in Hbg as [He Hbg].
  change (page_run p (e :: es)) with (page_run (page_step p e) es).
  pose proof (OpenInv_step p e Hinv) as Hinv'. pose proof (page_passed_nonneg es) as Hp.
  destruct e as [[| |dt]|cb' delay|id']; [done..| | |].
  - change (page_step p (Hook (Advance dt))) with (page_tick dt p) in *.
    pose proof (page_tick_armed dt p id due cb Hinv Hv) as Ht.
    destruct (page_tick_view dt p Hinv) as [_ Hn]. cbn zeta in Ht.
    change (page_passed (Hook (Advance dt) :: es)) with (Z.max 0 dt + page_passed es).
    cbn [existsb isPageTick orb]. case_decide as Hdue.
    + destruct Ht as [Hv' Hc]. rewrite (background_idle es _ Hinv' Hv' Hbg), Hc.
      by rewrite decide_True by (split; [lia|done]).
    + destruct Ht as [Hv' Hc]. rewrite (IH _ Hinv' Hv' Hbg), Hc, Hn.
      destruct (existsb isPageTick es) eqn:Ex.
      * apply decide_ext. split; (intros [? _]; split; [lia|done]).
      * rewrite !decide_False; [done|intros [? _]|by intros [_ ?]].
        assert (page_passed es = 0) as Hz; [|lia].
        clear -Ex. induction es as [|[[| |dt']| |] es IH]; simpl in *; try done; by apply IH.
  - destruct (other_set_frame cb' delay p Hinv) as (Hv' & Hn & Hc). cbn zeta in *.
    rewrite (IH _ Hinv'), Hn, Hc by (by rewrite ?Hv'). done.
  - destruct (other_clear_frame id' p Hinv) as (Hv' & Hn & Hc). cbn zeta in *.
    rewrite (IH _ Hinv'), Hn, Hc by (by rewrite ?Hv'). done.
Qed.

(** After a render that re-arms, the hook's part of the table is the timer
    of that render. *)
Lemma render_own_view effect delay deps p :
  OpenInv p -> rearms (fiber (component p)) effect delay deps = true ->
  let p' := page_step p (Hook (Render effect delay deps)) in
  own_view p' =
    {[th_issued (host (component p)) :=
        (page_now p + th_delay delay, {| tc_callback := nextCallback (fiber (component p)) effect deps |})]} /\
  page_calls p' = page_calls p.
Proof.
  intros Hinv Hre. pose proof (oi_wf p Hinv) as Hwf. cbn zeta.
  unfold own_view, page_calls, page_now. cbn [page_step own_after step component own]. rewrite Hre.
  destruct (render_rearm_open effect delay deps (component p) Hwf
              (fun f => OpenInv_registered p f Hinv) Hre) as (_ & _ & -> & _ & -> & _).
  split; [|done]. apply map_eq. intros id. apply option_eq. intros e.
  rewrite map_lookup_filter_Some, lookup_singleton_Some. cbn [fst].
  destruct (decide (id = th_issued (host (component p)))) as [->|Hne].
  - rewrite lookup_insert_eq. split; [by intros [[= <-] _]|intros [_ <-]]. split; [done|set_solver].
  - rewrite lookup_insert_ne by done. split; [|by intros [? _]].
    intros [Hl [?%elem_of_singleton|Hid]%elem_of_union]; [done|].
    by rewrite cancelled_own in Hl.
Qed.

(** The whole of it: the calls after a registration and a run of the
    background. *)
Lemma shared_registration es effect delay deps p :
  OpenInv p -> rearms (fiber (component p)) effect delay deps = true -> background es ->
  page_calls (page_run p (Hook (Render effect delay deps) :: es)) =
  if decide (th_delay delay <= page_passed es /\ existsb isPageTick es = true)
  then page_calls p ++
         [(page_now p + th_delay delay, nextCallback (fiber (component p)) effect deps)]
  else page_calls p.
Proof.
  intros Hinv Hre Hbg.
  change (page_run p (?e :: es)) with (page_run (page_step p e) es).
  destruct (render_own_view effect delay deps p Hinv Hre) as [Hv Hc].
  pose proof (OpenInv_step p (Hook (Render effect delay deps)) Hinv) as Hinv'.
  rewrite (background_armed es _ _ _ _ Hinv' Hv Hbg), Hc.
  assert (page_now (page_step p (Hook (Render effect delay deps))) = page_now p) as ->.
  { unfold page_now. cbn [page_step step component].
    by destruct (render_rearm_open effect delay deps (component p) (oi_wf p Hinv)
                   (fun f => OpenInv_registered p f Hinv) Hre) as (_ & -> & _). }
  apply decide_ext. split; (intros [? ?]; split; [lia|done]).
Qed.

(** ** Theorems *)

(** C27: no interference.  On a page whose other code schedules and cancels
    timers of its own, a registration followed by the rest of the page's
    activity and the passing of time makes its call once the time passed
    reaches the delay: the memoised callback is called once, at the time of
    the render plus the delay. *)
Theorem shared_registration_fires es effect delay deps p :
  page_reachable p ->
  rearms (fiber (component p)) effect delay deps = true ->
  background es ->
  existsb isPageTick es = true ->
  th_delay delay <= page_passed es ->
  page_calls (page_run p (Hook (Render effect delay deps) :: es)) =
  page_calls p ++ [(page_now p + th_delay delay, nextCallback (fiber (component p)) effect deps)].
Proof.
  intros Hinv%page_reachable_OpenInv Hre Hbg Htick Hp.
  by rewrite (shared_registration es _ _ _ p Hinv Hre Hbg), decide_True.
Qed.

(** And not before: while the time passed is short of the delay no call is
    made, whatever timers the rest of the page lets fire meanwhile. *)
Theorem shared_registration_waits es effect delay deps p :
  page_reachable p ->
  rearms (fiber (component p)) effect delay deps = true ->
  background es ->
  page_passed es < th_delay delay ->
  page_calls (page_run p (Hook (Render effect delay deps) :: es)) = page_calls p.
Proof.
  intros Hinv%page_reachable_OpenInv Hre Hbg Hp.
  rewrite (shared_registration es _ _ _ p Hinv Hre Hbg), decide_False; [done|]. intros [? _]. lia.
Qed.

End Interference.

(** ** The theorems at work on the queue implementation *)

(** On [busy_page] (clock 50, the registration of [8] pending, a timer of
    other code due at 500) the component registers [9] for 60 ms; other
    code schedules a timer that fires in between and tries to cancel the
    hook's handle. *)
Lemma shared_registration_fires_witness :
  page_calls (page_run busy_page
    (Hook (Render 9 60 [VNum 3]) ::
     [OtherSet {| tc_callback := 97 |} 20; Hook (Advance 30); OtherClear 5; Hook (Advance 30)])) =
  page_calls busy_page ++ [(110, 9%nat)].
Proof.
  exact (shared_registration_fires
           [OtherSet {| tc_callback := 97 |} 20; Hook (Advance 30); OtherClear 5; Hook (Advance 30)]
           9%nat 60 [VNum 3] busy_page busy_page_reachable eq_refl
           ltac:(by repeat constructor) eq_refl ltac:(by vm_compute)).
Defined.

Lemma shared_registration_waits_witness :
  page_calls (page_run busy_page
    (Hook (Render 9 60 [VNum 3]) :: [OtherSet {| tc_callback := 97 |} 20; Hook (Advance 59)])) =
  page_calls busy_page.
Proof.
  exact (shared_registration_waits [OtherSet {| tc_callback := 97 |} 20; Hook (Advance 59)]
           9%nat 60 [VNum 3] busy_page busy_page_reachable eq_refl
           ltac:(by repeat constructor) ltac:(by vm_compute)).
Defined.
