(* ===== verification/Isolation.v ===== *)
(** * Isolation: the rest of the page cannot change what the hook does

    [OpenPage.v] lets other code schedule timers and cancel the handles it
    was issued, between the events of the component.  This file shows that
    none of it can be observed in the calls of the hook: the component on
    the shared page makes the calls of the component alone on a host of its
    own, at the same times.  The other timers take handles, so the handles
    the hook is issued differ; the relation [isolated] compares the two
    components up to handles, as [twin] of [Hosts.v] does. *)

From stdpp Require Import gmap.
From S2P Require Import Prelude JsNumber React Timers Debounce Refinement Liveness Hosts OpenPage Interference.

Section Isolation.
Context {T : Type} `{!TimerHost TimerCallback T}.

Implicit Types (p : Shared T) (s : System T) (es : list page_event).

(** ** Vocabulary *)

(** The events of the component among the events of the page. *)
Definition hook_event (e : page_event) : option event :=
  match e with
  | Hook e' => Some e'
  | _ => None
  end.

Definition hook_events es : list event :=
  omap hook_event es.

(** The timers of the hook that are pending, without their handles. *)
Definition own_pending p : list (Z * TimerCallback) :=
  (map_to_list (own_view p)).*2.

(** The component on the page and the component alone. *)
Record isolated p s : Prop := {
  iso_page : OpenInv p;
  iso_alone : Inv s;
  iso_calls : page_calls p = calls s;
  iso_now : page_now p = th_now (host s);
  iso_pending : own_pending p = pending_timers (host s);
  iso_fiber : option_Forall2 same_slots (fiber (component p)) (fiber s);
}.

(** ** The two tables *)

Lemma own_pending_empty p : own_view p = ∅ -> own_pending p = [].
Proof. intros Hv. unfold own_pending. by rewrite Hv, map_to_list_empty. Qed.

Lemma own_pending_singleton p id x : own_view p = {[id := x]} -> own_pending p = [x].
Proof. intros Hv. unfold own_pending. by rewrite Hv, map_to_list_singleton. Qed.

Lemma isolated_views p s :
  isolated p s ->
  (own_view p = ∅ /\ th_view (host s) = ∅) \/
  exists id1 id2 x, own_view p = {[id1 := x]} /\ th_view (host s) = {[id2 := x]}.
Proof.
  intros [H1 H2 _ _ Hp _].
  destruct (own_view_cases p H1) as [Hv1|(id1 & x1 & Hv1)], (Inv_view s H2) as [Hv2|(id2 & d2 & c2 & Hv2)].
  - by left.
  - by rewrite (own_pending_empty _ Hv1), (pending_timers_singleton _ _ _ Hv2) in Hp.
  - by rewrite (pending_timers_empty _ Hv2), (own_pending_singleton _ _ _ Hv1) in Hp.
  - rewrite (own_pending_singleton _ _ _ Hv1), (pending_timers_singleton _ _ _ Hv2) in Hp.
    simplify_eq. right. eauto.
Qed.

(** ** Event by event *)

(** What the rest of the page does is not an event of the component. *)
Lemma isolated_other p s e :
  hook_event e = None -> isolated p s -> isolated (page_step p e) s.
Proof.
  intros He [H1 H2 Hc Hn Hp Hf].
  assert (own_view (page_step p e) = own_view p /\ page_now (page_step p e) = page_now p /\
          page_calls (page_step p e) = page_calls p /\
          fiber (component (page_step p e)) = fiber (component p)) as (Hv' & Hn' & Hc' & Hf').
  { destruct e as [e'|cb delay|id]; [done| |].
    - by destruct (other_set_frame cb delay p H1) as (? & ? & ?).
    - destruct (other_clear_frame id p H1) as (? & ? & ?). split_and!; [done..|].
      cbn [page_step]. by case_decide. }
  split; [by apply OpenInv_step|done|congruence|congruence| |by rewrite Hf'].
  unfold own_pending. by rewrite Hv'.
Qed.

(** What happens to the table beside the hook's timers, while the clock
    stands still, is not seen. *)
Lemma isolated_host p s h' :
  isolated p s ->
  th_wf h' ->
  (th_issued (host (component p)) <= th_issued h')%nat ->
  th_now h' = th_now (host (component p)) ->
  (forall id, id ∈ own p -> th_view h' !! id = th_view (host (component p)) !! id) ->
  isolated {| component := {| host := h'; fiber := fiber (component p); calls := calls (component p) |};
              own := own p |} s.
Proof.
  intros [H1 H2 Hc Hn Hp Hf] Hwf Hi Hnow Hv.
  split; [apply OpenInv_host; [done..|lia|by right; apply Hv]|done|done| | |done].
  - unfold page_now in *. cbn [component host]. by rewrite Hnow.
  - rewrite <- Hp. unfold own_pending, own_view. cbn [component host own]. do 2 f_equal.
    apply map_eq. intros id. apply option_eq. intros e. rewrite !map_lookup_filter_Some. cbn [fst].
    split; intros [Hl Hid]; (split; [|done]); by rewrite ?Hv in *.
Qed.

Lemma isolated_tick dt p s : isolated p s -> isolated (page_tick dt p) (tick dt s).
Proof.
  intros Hiso. pose proof Hiso as [H1 H2 Hc Hn Hp Hf]. pose proof (inv_wf _ H2) as Hwf.
  destruct (page_tick_view dt p H1) as [_ Hn'].
  assert (fiber (component (page_tick dt p)) = fiber (component p)) as Hf1
    by by rewrite page_tick_eq.
  assert (fiber (tick dt s) = fiber s) as Hf2 by (unfold tick; by destruct (advance dt (host s))).
  split; [apply (OpenInv_step p (Hook (Advance dt)) H1)|by apply Inv_tick| |
          by rewrite Hn', tick_now, Hn| |by rewrite Hf1, Hf2].
  - destruct (isolated_views _ _ Hiso) as [[Hv1 Hv2]|(id1 & id2 & [due cb] & Hv1 & Hv2)].
    + destruct (page_tick_idle dt p H1 Hv1) as [_ ->], (tick_idle dt s Hwf Hv2) as (-> & _). done.
    + pose proof (page_tick_armed dt p id1 due cb H1 Hv1) as Hp1. cbn zeta in Hp1.
      rewrite (tick_armed dt s _ _ _ Hwf Hv2), <- Hn.
      case_decide; destruct Hp1 as [_ ->]; simpl; by rewrite Hc.
  - rewrite tick_host.
    destruct (isolated_views _ _ Hiso) as [[Hv1 Hv2]|(id1 & id2 & [due cb] & Hv1 & Hv2)].
    + destruct (page_tick_idle dt p H1 Hv1) as [Hv1' _].
      by rewrite (own_pending_empty _ Hv1'), (pending_timers_empty _ (advance_view_none dt _ Hwf Hv2)).
    + pose proof (page_tick_armed dt p id1 due cb H1 Hv1) as Hp1. cbn zeta in Hp1.
      pose proof (advance_view_single dt _ _ _ _ Hwf Hv2) as Hv2'. rewrite <- Hn in Hv2'.
      case_decide; destruct Hp1 as [Hv1' _].
      * by rewrite (own_pending_empty _ Hv1'), (pending_timers_empty _ Hv2').
      * by rewrite (own_pending_singleton _ _ _ Hv1'), (pending_timers_singleton _ _ _ Hv2').
Qed.

(** A render of the component on the page, as far as the hook can tell. *)
Lemma page_render_rearm effect delay deps p :
  OpenInv p -> rearms (fiber (component p)) effect delay deps = true ->
  let p' := page_step p (Hook (Render effect delay deps)) in
  own_pending p' =
    [(page_now p + th_delay delay, {| tc_callback := nextCallback (fiber (component p)) effect deps |})] /\
  page_calls p' = page_calls p /\ page_now p' = page_now p.
Proof.
  intros Hinv Hre. cbn zeta. destruct (render_own_view effect delay deps p Hinv Hre) as [Hv Hc].
  split_and!; [by apply (own_pending_singleton _ _ _ Hv)|done|].
  by destruct (render_rearm_open effect delay deps (component p) (oi_wf p Hinv)
                 (fun f => OpenInv_registered p f Hinv) Hre) as (_ & ? & _).
Qed.

Lemma page_render_keep effect delay deps p :
  OpenInv p -> rearms (fiber (component p)) effect delay deps = false ->
  let p' := page_step p (Hook (Render effect delay deps)) in
  own_pending p' = own_pending p /\ page_calls p' = page_calls p /\ page_now p' = page_now p.
Proof.
  intros Hinv Hre. cbn zeta.
  destruct (fiber (component p)) as [f|] eqn:Hf; [|by rewrite rearms_mount in Hre].
  destruct (OpenInv_registered p f Hinv Hf) as (handler & delay0 & Hr).
  destruct (render_keep_open effect delay deps (component p) f handler delay0 Hf Hr)
    as (Hh & Hc & _); [by rewrite Hf|].
  unfold own_pending, own_view, page_calls, page_now.
  cbn [page_step own_after step component own]. by rewrite Hf, Hre, Hh, Hc.
Qed.

Lemma page_unmount p :
  OpenInv p ->
  let p' := page_step p (Hook Unmount) in
  own_pending p' = [] /\ page_calls p' = page_calls p /\ page_now p' = page_now p /\
  fiber (component p') = None.
Proof.
  intros Hinv. cbn zeta. pose proof (OpenInv_step p (Hook Unmount) Hinv) as Hinv'.
  assert (fiber (component (page_step p (Hook Unmount))) = None /\
          page_calls (page_step p (Hook Unmount)) = page_calls p /\
          page_now (page_step p (Hook Unmount)) = page_now p) as (Hf' & Hc' & Hn').
  { unfold page_calls, page_now. cbn [page_step step component].
    destruct (fiber (component p)) as [f|] eqn:Hf; [|by unfold unmount; rewrite Hf].
    destruct (OpenInv_registered p f Hinv Hf) as (handler & delay & Hr).
    by destruct (unmount_open (component p) f handler delay (oi_wf p Hinv) Hf Hr)
      as (_ & ? & ? & ? & _). }
  split_and!; [|done..]. apply own_pending_empty, map_empty. intros id.
  apply eq_None_not_Some. intros [e [He Hid]%own_view_lookup].
  pose proof (oi_fiber _ Hinv') as Hnone. rewrite Hf' in Hnone. by rewrite (Hnone id Hid) in He.
Qed.

Lemma isolated_render effect delay deps p s :
  isolated p s ->
  isolated (page_step p (Hook (Render effect delay deps))) (render effect delay deps s).
Proof.
  intros Hiso. pose proof Hiso as [H1 H2 Hc Hn Hp Hf].
  destruct (same_slots_rearms _ _ effect delay deps Hf) as [Hre Hcb].
  assert (option_Forall2 same_slots (fiber (component (page_step p (Hook (Render effect delay deps)))))
            (fiber (render effect delay deps s))) as Hf'.
  { cbn [page_step component step].
    destruct (render_slots effect delay deps (component p)) as (f1' & -> & Hs1).
    destruct (render_slots effect delay deps s) as (f2' & -> & Hs2).
    constructor. by eapply rendered_slots_same. }
  destruct (rearms (fiber s) effect delay deps) eqn:E.
  - destruct (page_render_rearm effect delay deps p H1 Hre) as (Hp1 & Hc1 & Hn1).
    destruct (render_rearm effect delay deps s H2 E) as (Hv2 & Hn2 & Hc2).
    split; [by apply OpenInv_step|by apply Inv_render|congruence|congruence| |done].
    by rewrite Hp1, (pending_timers_singleton _ _ _ Hv2), Hn, Hcb.
  - destruct (page_render_keep effect delay deps p H1 Hre) as (Hp1 & Hc1 & Hn1).
    destruct (render_idle effect delay deps s H2 E) as (Hh2 & Hc2).
    split; [by apply OpenInv_step|by apply Inv_render|congruence| | |done]; by rewrite ?Hp1, ?Hn1, Hh2.
Qed.

Lemma isolated_unmount p s : isolated p s -> isolated (page_step p (Hook Unmount)) (unmount s).
Proof.
  intros [H1 H2 Hc Hn Hp Hf]. destruct (page_unmount p H1) as (Hp1 & Hc1 & Hn1 & Hf1).
  destruct (unmount_spec s H2) as (Hf2 & Hv2 & Hc2).
  split; [by apply OpenInv_step|by apply Inv_unmount|congruence| | |].
  - by rewrite Hn1, unmount_now.
  - by rewrite Hp1, pending_timers_empty.
  - rewrite Hf1, Hf2. constructor.
Qed.

Lemma isolated_step p s e :
  isolated p s -> isolated (page_step p e) (run s (option_list (hook_event e))).
Proof.
  intros Hiso. destruct e as [[effect delay deps| |dt]|cb delay|id].
  - by apply isolated_render.
  - by apply isolated_unmount.
  - by apply isolated_tick.
  - by apply isolated_other.
  - by apply isolated_other.
Qed.

Lemma hook_events_cons e es : hook_events (e :: es) = option_list (hook_event e) ++ hook_events es.
Proof. unfold hook_events. simpl. by destruct (hook_event e). Qed.

Lemma isolated_run es p s : isolated p s -> isolated (page_run p es) (run s (hook_events es)).
Proof.
  revert p s. induction es as [|e es IH]; intros p s Hiso; [done|].
  rewrite hook_events_cons. unfold run. rewrite foldl_app. by apply IH, isolated_step.
Qed.

Lemma isolated_start : isolated start initial.
Proof.
  split; [apply OpenInv_start|apply Inv_initial|done|done| |constructor].
  rewrite pending_timers_empty by apply th_init_view.
  apply own_pending_empty. unfold own_view, start. cbn [component initial host].
  rewrite th_init_view. apply map_filter_empty.
Qed.

(** ** Theorems *)

(** C21: the rest of the page cannot change what the hook does.  Whatever
    timers other code schedules and whichever of its handles it cancels,
    between the events of the component, the component makes the calls it
    makes alone on a host of its own under its own events, at the same
    times, and has the same timer pending at the same clock value. *)
Theorem page_isolation es :
  page_calls (page_run start es) = calls (run initial (hook_events es)) /\
  own_pending (page_run start es) = pending_timers (host (run initial (hook_events es))) /\
  page_now (page_run start es) = th_now (host (run initial (hook_events es))).
Proof.
  destruct (isolated_run es start initial isolated_start) as [_ _ ? ? ? _]. done.
Qed.

End Isolation.

(** ** On the queue implementation *)

Example isolation_on_queue :
  let es := [OtherSet {| tc_callback := 9%nat |} 10; Hook (Render 4 100 [VNum 1]);
             OtherSet {| tc_callback := 8%nat |} 70; Hook (Advance 40); OtherClear 1;
             Hook (Render 5 100 [VNum 2]); Hook (Advance 100)] in
  page_calls (page_run (start (T := TimerQueue.host TimerCallback)) es) = [(140, 5%nat)] /\
  hook_events es = [Render 4 100 [VNum 1]; Advance 40; Render 5 100 [VNum 2]; Advance 100] /\
  th_issued (host (component (page_run (start (T := TimerQueue.host TimerCallback)) es))) = 5%nat /\
  th_issued (host (run (initial (H := TimerQueue.host TimerCallback)) (hook_events es))) = 3%nat.
Proof. by vm_compute. Qed.
