(* ===== verification/Instances.v ===== *)
(** * Instances: any number of components that use the hook on one page

    A page seldom holds one debounced effect.  Here any number of
    components call [useDebounce], each with its own slots, and share the
    timer table of the page: the handles they are issued come from one
    counter, and when time passes the timers of all of them fire, in
    firing order.  To each component the others are part of "the rest of
    the page" of [OpenPage.v].

    The theorem of this file is that they do not interfere: each makes the
    calls it makes alone on a host of its own, under its own renders and
    unmounts and the same passing of time. *)

From stdpp Require Import gmap.
From S2P Require Import Prelude JsNumber React Timers Debounce Refinement Liveness Hosts OpenPage Interference Isolation.

(** ** The page *)

(** What the page holds for one component: its slots, the calls its
    action has received and the handles it was issued. *)
Record Slot : Type := {
  slot_fiber : option DebounceFiber;
  slot_calls : list (Z * ref);
  slot_own : gset nat;
}.

(** A component that has not been rendered yet. *)
Definition no_slot : Slot :=
  {| slot_fiber := None; slot_calls := []; slot_own := ∅ |}.

(** The components are numbered; an event of a component names it. *)
Inductive instance_event : Type :=
| RenderOf (i : nat) (effect : ref) (delay : number) (deps : list val)
| UnmountOf (i : nat)
| Pass (dt : Z).

Section Instances.
Context {T : Type} `{!TimerHost TimerCallback T}.

Record Components : Type := {
  shared : T;
  slots : gmap nat Slot;
}.

Definition slot (i : nat) (cs : Components) : Slot :=
  default no_slot (slots cs !! i).

(** The page as the component [i] sees it. *)
Definition page_of (i : nat) (cs : Components) : Shared T :=
  {| component :=
       {| host := shared cs; fiber := slot_fiber (slot i cs); calls := slot_calls (slot i cs) |};
     own := slot_own (slot i cs) |}.

Definition slot_of (p : Shared T) : Slot :=
  {| slot_fiber := fiber (component p); slot_calls := calls (component p); slot_own := own p |}.

(** The component [i] has acted: the table is the one it leaves. *)
Definition put (i : nat) (p : Shared T) (cs : Components) : Components :=
  {| shared := host (component p); slots := <[i := slot_of p]> (slots cs) |}.

(** The timers that fire call the action of the component they belong to. *)
Definition heard (fired : list (timer TimerCallback)) (sl : Slot) : Slot :=
  {| slot_fiber := slot_fiber sl;
     slot_calls := slot_calls sl ++ own_calls (slot_own sl) fired;
     slot_own := slot_own sl |}.

Definition instance_step (cs : Components) (e : instance_event) : Components :=
  match e with
  | RenderOf i effect delay deps =>
      put i (page_step (page_of i cs) (Hook (Render effect delay deps))) cs
  | UnmountOf i =>
      put i (page_step (page_of i cs) (Hook Unmount)) cs
  | Pass dt =>
      let (fired, host') := advance dt (shared cs) in
      {| shared := host'; slots := heard fired <$> slots cs |}
  end.

Definition instance_run (cs : Components) (es : list instance_event) : Components :=
  foldl instance_step cs es.

Definition no_components : Components :=
  {| shared := th_init; slots := ∅ |}.

(** ** Vocabulary *)

(** The events of the component [i] among the events of the page: its
    renders, its unmount, and the passing of time. *)
Definition own_event (i : nat) (e : instance_event) : option event :=
  match e with
  | RenderOf j effect delay deps => if decide (j = i) then Some (Render effect delay deps) else None
  | UnmountOf j => if decide (j = i) then Some Unmount else None
  | Pass dt => Some (Advance dt)
  end.

Definition own_events (i : nat) (es : list instance_event) : list event :=
  omap (own_event i) es.

(** The component [i] alone after an event of the page. *)
Definition after (alone : nat -> System T) (e : instance_event) (i : nat) : System T :=
  run (alone i) (option_list (own_event i e)).

(** Each component is isolated in the sense of [Isolation.v], and no
    handle was issued to two of them. *)
Record InstancesInv (cs : Components) (alone : nat -> System T) : Prop := {
  ii_isolated : forall i, isolated (page_of i cs) (alone i);
  ii_disjoint : forall i j, i ≠ j -> slot_own (slot i cs) ## slot_own (slot j cs);
}.

Implicit Types (cs : Components) (p : Shared T) (i j : nat) (alone : nat -> System T).

(** ** The views of the components *)

Lemma slot_put i p cs : slot i (put i p cs) = slot_of p.
Proof. unfold slot, put. cbn [slots]. by rewrite lookup_insert_eq. Qed.

Lemma slot_put_ne i j p cs : i ≠ j -> slot j (put i p cs) = slot j cs.
Proof. intros Hne. unfold slot, put. cbn [slots]. by rewrite lookup_insert_ne. Qed.

Lemma page_of_put i p cs : page_of i (put i p cs) = p.
Proof. unfold page_of. rewrite slot_put. by destruct p as [[h f c] o]. Qed.

Lemma page_of_put_ne i j p cs :
  i ≠ j ->
  page_of j (put i p cs) =
  {| component :=
       {| host := host (component p);
          fiber := fiber (component (page_of j cs));
          calls := calls (component (page_of j cs)) |};
     own := own (page_of j cs) |}.
Proof. intros Hne. unfold page_of. by rewrite slot_put_ne. Qed.

Lemma own_calls_nobody (fired : list (timer TimerCallback)) : own_calls ∅ fired = [].
Proof. unfold own_calls. rewrite filter_none; [done|]. apply Forall_forall. set_solver. Qed.

Lemma slot_pass i dt cs :
  slot i (instance_step cs (Pass dt)) = heard (advance dt (shared cs)).1 (slot i cs).
Proof.
  unfold slot, instance_step. destruct (advance dt (shared cs)) as [fired host']. cbn [slots fst].
  rewrite lookup_fmap. destruct (slots cs !! i) as [sl|]; [done|].
  unfold heard, no_slot. cbn. by rewrite own_calls_nobody.
Qed.

Lemma page_of_pass i dt cs : page_of i (instance_step cs (Pass dt)) = page_tick dt (page_of i cs).
Proof.
  rewrite page_tick_eq. unfold page_of at 1. rewrite slot_pass. cbn [page_of component host heard].
  unfold instance_step. by destruct (advance dt (shared cs)).
Qed.

(** ** Event by event *)

(** The act of one component, as another sees it. *)
Lemma isolated_beside i j e cs s s' :
  i ≠ j -> (forall dt, e ≠ Advance dt) ->
  isolated (page_of i cs) s -> isolated (page_of j cs) s' ->
  slot_own (slot i cs) ## slot_own (slot j cs) ->
  isolated (page_of j (put i (page_step (page_of i cs) (Hook e)) cs)) s'.
Proof.
  intros Hne He Hact Hsee Hdis. rewrite page_of_put_ne by done.
  pose proof (iso_page _ _ Hact) as Hinv. pose proof (iso_page _ _ Hsee) as Hinv'.
  destruct (hook_frame (page_of i cs) e Hinv He) as (Hn & Hi & Hv).
  apply isolated_host; [done|apply (oi_wf _ (OpenInv_step _ (Hook e) Hinv))|done|done|].
  intros id Hid. apply Hv. intros [Hown| ->]%own_after_fresh.
  - by apply (Hdis id).
  - pose proof (oi_issued _ Hinv' _ Hid) as Hlt. unfold page_of in Hlt. simpl in Hlt. lia.
Qed.

(** The handles a component holds after its act are still its own. *)
Lemma act_disjoint i j e cs s' :
  i ≠ j -> isolated (page_of j cs) s' ->
  slot_own (slot i cs) ## slot_own (slot j cs) ->
  own (page_step (page_of i cs) (Hook e)) ## slot_own (slot j cs).
Proof.
  intros Hne Hsee Hdis id Hid Hid'.
  pose proof (oi_issued _ (iso_page _ _ Hsee) _ Hid') as Hlt. unfold page_of in Hlt. simpl in Hlt.
  assert (id ∈ own_after (page_of i cs) e) as [Hown| ->]%own_after_fresh.
  { destruct e; [done..|]. cbn [page_step] in Hid. by rewrite page_tick_eq in Hid. }
  - by apply (Hdis id).
  - unfold page_of in Hlt. simpl in Hlt. lia.
Qed.

Lemma InstancesInv_act i e cs alone :
  (forall dt, e ≠ Advance dt) ->
  InstancesInv cs alone ->
  InstancesInv (put i (page_step (page_of i cs) (Hook e)) cs)
    (fun j => if decide (i = j) then step (alone j) e else alone j).
Proof.
  intros He [Hiso Hdis]. split.
  - intros j. case_decide as Hj.
    + subst j. rewrite page_of_put. apply (isolated_step _ _ (Hook e)), Hiso.
    + by apply (isolated_beside i j e cs (alone i)); [..|apply Hdis].
  - intros j k Hjk. destruct (decide (i = j)) as [<-|Hij], (decide (i = k)) as [<-|Hik]; [done|..].
    + rewrite slot_put, slot_put_ne by done. by eapply act_disjoint; [..|apply Hdis].
    + rewrite slot_put, slot_put_ne by done. symmetry. by eapply act_disjoint; [..|apply Hdis].
    + rewrite !slot_put_ne by done. by apply Hdis.
Qed.

Lemma InstancesInv_ext cs alone alone' :
  (forall i, alone i = alone' i) -> InstancesInv cs alone -> InstancesInv cs alone'.
Proof. intros Heq [Hiso Hdis]. split; [|done]. intros i. rewrite <- Heq. apply Hiso. Qed.

Lemma InstancesInv_step e cs alone :
  InstancesInv cs alone -> InstancesInv (instance_step cs e) (after alone e).
Proof.
  intros Hinv. destruct e as [i effect delay deps|i|dt].
  - eapply InstancesInv_ext; [|by apply (InstancesInv_act i (Render effect delay deps))].
    intros j. unfold after. cbn [own_event]. by case_decide.
  - eapply InstancesInv_ext; [|by apply (InstancesInv_act i Unmount)].
    intros j. unfold after. cbn [own_event]. by case_decide.
  - destruct Hinv as [Hiso Hdis]. split.
    + intros i. rewrite page_of_pass. apply isolated_tick, Hiso.
    + intros i j Hij. rewrite !slot_pass. by apply Hdis.
Qed.

Lemma own_events_cons i e es :
  own_events i (e :: es) = option_list (own_event i e) ++ own_events i es.
Proof. unfold own_events. simpl. by destruct (own_event i e). Qed.

Lemma InstancesInv_run es cs alone :
  InstancesInv cs alone ->
  InstancesInv (instance_run cs es) (fun i => run (alone i) (own_events i es)).
Proof.
  revert cs alone. induction es as [|e es IH]; intros cs alone Hinv; [by destruct Hinv|].
  eapply InstancesInv_ext; [|apply IH, (InstancesInv_step e), Hinv].
  intros i. unfold after, run. by rewrite own_events_cons, foldl_app.
Qed.

Lemma InstancesInv_start : InstancesInv no_components (fun _ => initial).
Proof.
  split.
  - intros i. replace (page_of i no_components) with (start (T := T)); [apply isolated_start|].
    unfold page_of, slot, no_components. cbn [slots]. by rewrite lookup_empty.
  - intros i j _. unfold slot, no_components. cbn [slots]. rewrite !lookup_empty. set_solver.
Qed.

(** ** Theorems *)

(** C22: the components that use the hook on one page do not interfere.
    However many they are, whatever they do and in whatever order, each
    makes the calls it makes alone on a host of its own under its own
    renders, its own unmount and the same passing of time, at the same
    times; and at most one timer of each is pending. *)
Theorem instances_independent i es :
  slot_calls (slot i (instance_run no_components es)) = calls (run initial (own_events i es)) /\
  (size (own_view (page_of i (instance_run no_components es))) <= 1)%nat.
Proof.
  destruct (InstancesInv_run es _ _ InstancesInv_start) as [Hiso _].
  destruct (Hiso i) as [Hinv _ Hc _ _ _]. split; [exact Hc|].
  destruct (own_view_cases _ Hinv) as [->|(handler & e & ->)];
    [rewrite map_size_empty; lia|by rewrite map_size_singleton].
Qed.

End Instances.

(** ** On the queue implementation *)

Example three_instances_on_queue :
  let es := [RenderOf 0 4 100 [VNum 1]; Pass 30; RenderOf 1 7 50 []; RenderOf 2 9 50 []; Pass 30;
             RenderOf 0 5 100 [VNum 2]; Pass 40; UnmountOf 2; Pass 100] in
  let cs := instance_run (no_components (T := TimerQueue.host TimerCallback)) es in
  slot_calls (slot 0 cs) = [(160, 5%nat)] /\ slot_calls (slot 1 cs) = [(80, 7%nat)] /\
  slot_calls (slot 2 cs) = [(80, 9%nat)] /\
  own_events 0 es = [Render 4 100 [VNum 1]; Advance 30; Advance 30; Render 5 100 [VNum 2];
                     Advance 40; Advance 100].
Proof. by vm_compute. Qed.
