(* ===== verification/JsString.v ===== *)
(** * JsString: [String.prototype.match] for the patterns of [getDevice]

    [getDevice] tests its argument against five regular-expression literals,
    each an alternation of literal character sequences with the [i] flag
    ([/Android/i], [/iPhone|iPad|iPod/i], ...), and converts the result of
    [match] with [Boolean].  This file models that fragment: patterns as
    lists of alternatives, the search for the leftmost match, the result
    ([null] or a match with its index), and [Boolean].

    Strings are sequences of 8-bit characters.  Case folding is modelled on
    the letters [a]-[z]: a letter and its capital are the same, every other
    character only matches itself.  For the patterns of [getDevice], whose
    characters are ASCII, that is the folding of the [i] flag: the flag
    also folds characters beyond ASCII among themselves (à and À, for
    instance), but never one of them to an ASCII character, so against an
    ASCII pattern nothing changes.  It is not
    [String.prototype.toUpperCase], which turns ß into SS: nothing here is
    stated of that method beyond strings of ASCII characters. *)

From Stdlib Require Import Ascii.
From stdpp Require Import strings.
From S2P Require Import Prelude.

#[local] Open Scope string_scope.

(** ** Characters *)

Definition isLowerAlpha (ch : ascii) : bool :=
  let n := N_of_ascii ch in
  ((97 <=? n) && (n <=? 122))%N.

(** The capital of a letter [a]-[z]; every other character is left alone. *)
Definition toUpperCase (ch : ascii) : ascii :=
  if isLowerAlpha ch then ascii_of_N (N_of_ascii ch - 32) else ch.

(** The small letter of a letter [A]-[Z], on one character and on a
    string; every other character is left alone. *)
Definition toLowerCase (ch : ascii) : ascii :=
  let n := N_of_ascii ch in
  if ((65 <=? n) && (n <=? 90))%N then ascii_of_N (n + 32) else ch.

Fixpoint lowerCase (s : string) : string :=
  match s with
  | "" => ""
  | String ch s' => String (toLowerCase ch) (lowerCase s')
  end.

(** The [Canonicalize] operation of a pattern: with the [i] flag characters
    are compared after upper-casing. *)
Definition canonicalize (ignoreCase : bool) (ch : ascii) : ascii :=
  if ignoreCase then toUpperCase ch else ch.

(** Canonicalisation of every character of a string. *)
Fixpoint canon (ignoreCase : bool) (s : string) : string :=
  match s with
  | "" => ""
  | String ch s' => String (canonicalize ignoreCase ch) (canon ignoreCase s')
  end.

(** Two strings with the same canonical form. *)
Definition sameFold (ic : bool) : relation string :=
  fun s1 s2 => canon ic s1 = canon ic s2.

(** ** Patterns and matches *)

(** A pattern [/a1|a2|...|an/] with or without the [i] flag. *)
Record RegExp : Type := {
  source : list string;
  ignoreCase : bool;
}.

(** A successful match: where it starts and the text it covers. *)
Record MatchResult : Type := {
  index : nat;
  matched : string;
}.

#[export] Instance MatchResult_eq_dec : EqDecision MatchResult.
Proof. solve_decision. Defined.

(** Match the literal [pat] at the start of [s]; the result is the text of
    [s] that was matched. *)
Fixpoint matchLiteral (ic : bool) (pat s : string) : option string :=
  match pat with
  | "" => Some ""
  | String p pat' =>
      match s with
      | "" => None
      | String ch s' =>
          if decide (canonicalize ic p = canonicalize ic ch)
          then String ch <$> matchLiteral ic pat' s'
          else None
      end
  end.

(** Alternatives are tried from left to right. *)
Fixpoint matchAlternatives (ic : bool) (alts : list string) (s : string) : option string :=
  match alts with
  | [] => None
  | alt :: alts' =>
      match matchLiteral ic alt s with
      | Some m => Some m
      | None => matchAlternatives ic alts' s
      end
  end.

(** The search: try at index [i], then at [i + 1], ... up to the end of the
    string (inclusive: an empty alternative matches there). *)
Fixpoint execFrom (re : RegExp) (i : nat) (s : string) : option MatchResult :=
  match matchAlternatives (ignoreCase re) (source re) s with
  | Some m => Some {| index := i; matched := m |}
  | None =>
      match s with
      | "" => None
      | String _ s' => execFrom re (S i) s'
      end
  end.

(** [s.match(re)] for a pattern without the [g] flag: [None] is [null]. *)
Definition stringMatch (s : string) (re : RegExp) : option MatchResult :=
  execFrom re 0 s.

(** ** [Boolean] *)

(** [ToBoolean], per type of the argument. *)
Class ToBoolean (A : Type) : Type :=
  Boolean : A -> bool.

(** [null] is falsy, a match (an array) is truthy. *)
#[export] Instance ToBoolean_match : ToBoolean (option MatchResult) :=
  fun r => match r with Some _ => true | None => false end.

#[export] Instance ToBoolean_bool : ToBoolean bool :=
  fun b => b.

(** ** What [match] promises *)

(** [m] occurs in [s] at position [i]. *)
Definition occursAt (m : string) (i : nat) (s : string) : Prop :=
  exists pre post, s = pre ++ m ++ post /\ String.length pre = i.

(** [m] is an instance of the pattern: it equals one of the alternatives up
    to canonicalisation. *)
Definition instanceOf (re : RegExp) (m : string) : Prop :=
  exists alt, alt ∈ source re /\ canon (ignoreCase re) m = canon (ignoreCase re) alt.

(** The pattern matches somewhere in [s]. *)
Definition contains (re : RegExp) (s : string) : Prop :=
  exists m i, instanceOf re m /\ occursAt m i s.

(** ** Facts about characters and strings *)

Lemma append_nil_l (s : string) : "" ++ s = s.
Proof. reflexivity. Qed.

Lemma append_cons (ch : ascii) (s1 s2 : string) : String ch s1 ++ s2 = String ch (s1 ++ s2).
Proof. reflexivity. Qed.

Lemma append_nil_r (s : string) : s ++ "" = s.
Proof. induction s as [|ch s IH]; [done|]. by rewrite append_cons, IH. Qed.

Lemma append_assoc (s1 s2 s3 : string) : (s1 ++ s2) ++ s3 = s1 ++ (s2 ++ s3).
Proof. induction s1 as [|ch s1 IH]; [done|]. by rewrite !append_cons, IH. Qed.

Lemma length_append (s1 s2 : string) :
  String.length (s1 ++ s2) = (String.length s1 + String.length s2)%nat.
Proof. induction s1 as [|ch s1 IH]; [done|]. rewrite append_cons. simpl. by rewrite IH. Qed.

Lemma toUpperCase_idemp ch : toUpperCase (toUpperCase ch) = toUpperCase ch.
Proof. by destruct ch as [[] [] [] [] [] [] [] []]. Qed.

Lemma canonicalize_idemp ic ch : canonicalize ic (canonicalize ic ch) = canonicalize ic ch.
Proof. destruct ic; [apply toUpperCase_idemp|done]. Qed.

Lemma canon_idemp ic s : canon ic (canon ic s) = canon ic s.
Proof. induction s as [|ch s IH]; [done|]. simpl. by rewrite canonicalize_idemp, IH. Qed.

Lemma canon_append ic s1 s2 : canon ic (s1 ++ s2) = canon ic s1 ++ canon ic s2.
Proof. induction s1 as [|ch s1 IH]; [done|]. rewrite append_cons. simpl. by rewrite IH. Qed.

Lemma canon_length ic s : String.length (canon ic s) = String.length s.
Proof. induction s as [|ch s IH]; [done|]. simpl. by rewrite IH. Qed.

Lemma canon_nil_inv ic s : canon ic s = "" -> s = "".
Proof. by destruct s. Qed.

(** ** Matching a literal *)

(** A literal matches at the start of [s] exactly when [s] starts with an
    instance of it; the matched text is that instance. *)
Lemma matchLiteral_Some ic pat s m :
  matchLiteral ic pat s = Some m <->
  canon ic m = canon ic pat /\ exists post, s = m ++ post.
Proof.
  revert s m. induction pat as [|p pat IH]; intros s m; simpl.
  - split.
    + intros [= <-]. split; [done|]. by exists s.
    + intros [Hm _]. apply canon_nil_inv in Hm. by subst.
  - destruct s as [|ch s].
    + split; [done|]. intros [Hm [post Hs]]. destruct m; [done|]. by rewrite append_cons in Hs.
    + case_decide as Hch.
      * rewrite fmap_Some. setoid_rewrite IH. split.
        -- intros (m' & [Hm' [post ->]] & ->). simpl. rewrite Hm', Hch.
           split; [done|]. by exists post.
        -- intros [Hm [post Hs]]. destruct m as [|c m]; [done|].
           rewrite append_cons in Hs. simplify_eq/=. eauto.
      * split; [done|]. intros [Hm [post Hs]]. destruct m as [|c m]; [done|].
        rewrite append_cons in Hs. by simplify_eq/=.
Qed.

Lemma matchAlternatives_Some ic alts s m :
  matchAlternatives ic alts s = Some m ->
  (exists alt, alt ∈ alts /\ canon ic m = canon ic alt) /\ exists post, s = m ++ post.
Proof.
  induction alts as [|alt alts IH]; simpl; [done|].
  destruct (matchLiteral ic alt s) as [m'|] eqn:E.
  - intros [= <-]. apply matchLiteral_Some in E as [Hm Hs]. split; [|done].
    exists alt. split; [by left|done].
  - intros [(alt' & Hin & Hm) Hs]%IH. split; [|done]. exists alt'. split; [by right|done].
Qed.

Lemma matchAlternatives_None ic alts s :
  matchAlternatives ic alts s = None <->
  forall alt m post, alt ∈ alts -> canon ic m = canon ic alt -> s <> m ++ post.
Proof.
  induction alts as [|alt alts IH]; simpl.
  - split; [|done]. intros _ alt m post Hin. by apply elem_of_nil in Hin.
  - destruct (matchLiteral ic alt s) as [m'|] eqn:E.
    + split; [done|]. intros Hno. apply matchLiteral_Some in E as [Hm [post Hs]].
      destruct (Hno alt m' post); [by left|done..].
    + rewrite IH. split.
      * intros Hno alt' m post [->|Hin]%elem_of_cons Hm Hs; [|by eapply Hno].
        assert (matchLiteral ic alt s = Some m) as E'; [|congruence].
        apply matchLiteral_Some. eauto.
      * intros Hno alt' m post Hin. apply Hno. by right.
Qed.

(** ** The search *)

Lemma occursAt_here m s post : s = m ++ post -> occursAt m 0 s.
Proof. intros ->. by exists "", post. Qed.

Lemma occursAt_there m i ch s : occursAt m i s -> occursAt m (S i) (String ch s).
Proof. intros (pre & post & -> & <-). by exists (String ch pre), post. Qed.

Lemma occursAt_0 m s : occursAt m 0 s -> exists post, s = m ++ post.
Proof. intros (pre & post & -> & Hlen). destruct pre; [|done]. by exists post. Qed.

Lemma occursAt_S m i ch s : occursAt m (S i) (String ch s) -> occursAt m i s.
Proof.
  intros (pre & post & Hs & Hlen). destruct pre as [|c pre]; [done|].
  rewrite append_cons in Hs. simplify_eq/=. by exists pre, post.
Qed.

Lemma occursAt_nil_S m i : ~ occursAt m (S i) "".
Proof. intros (pre & post & Hs & Hlen). by destruct pre. Qed.

Lemma matchAlternatives_instance re s m :
  matchAlternatives (ignoreCase re) (source re) s = Some m -> instanceOf re m /\ occursAt m 0 s.
Proof.
  intros [Hinst [post Hs]]%matchAlternatives_Some. split; [done|]. by eapply occursAt_here.
Qed.

Lemma matchAlternatives_no_instance re s :
  matchAlternatives (ignoreCase re) (source re) s = None <->
  forall m, instanceOf re m -> ~ occursAt m 0 s.
Proof.
  rewrite matchAlternatives_None. split.
  - intros Hno m (alt & Hin & Hm) [post Hs]%occursAt_0. by eapply Hno.
  - intros Hno alt m post Hin Hm Hs. apply (Hno m); [by exists alt|by eapply occursAt_here].
Qed.

(** The search returns the leftmost position at which an instance of the
    pattern occurs, with the instance found there. *)
Lemma execFrom_Some re i s r :
  execFrom re i s = Some r ->
  exists k, index r = (i + k)%nat /\ instanceOf re (matched r) /\ occursAt (matched r) k s /\
    forall m j, (j < k)%nat -> instanceOf re m -> ~ occursAt m j s.
Proof.
  revert i. induction s as [|ch s IH]; intros i; simpl.
  - destruct (matchAlternatives _ _ "") as [m|] eqn:E; [|done]. intros [= <-].
    apply matchAlternatives_instance in E as [? ?]. exists 0%nat. simpl.
    split_and!; [lia|done..|]. intros; lia.
  - destruct (matchAlternatives _ _ (String ch s)) as [m|] eqn:E.
    + intros [= <-]. apply matchAlternatives_instance in E as [? ?]. exists 0%nat. simpl.
      split_and!; [lia|done..|]. intros; lia.
    + intros (k & Hi & Hinst & Hocc & Hleft)%IH. exists (S k).
      split_and!; [lia|done|by apply occursAt_there|].
      intros m [|j] Hj Hm.
      * by apply (proj1 (matchAlternatives_no_instance re (String ch s)) E).
      * intros Hocc'%occursAt_S. apply (Hleft m j); [lia|done..].
Qed.

Lemma execFrom_None re i s : execFrom re i s = None <-> ~ contains re s.
Proof.
  revert i. induction s as [|ch s IH]; intros i; simpl.
  - destruct (matchAlternatives _ _ "") as [m|] eqn:E.
    + split; [done|]. intros []. apply matchAlternatives_instance in E as [? ?]. by exists m, 0%nat.
    + split; [|done]. intros _ (m & [|j] & Hm & Hocc).
      * by apply (proj1 (matchAlternatives_no_instance re "") E m).
      * by apply occursAt_nil_S in Hocc.
  - destruct (matchAlternatives _ _ (String ch s)) as [m|] eqn:E.
    + split; [done|]. intros []. apply matchAlternatives_instance in E as [? ?]. by exists m, 0%nat.
    + rewrite IH. split.
      * intros Hno (m & [|j] & Hm & Hocc).
        -- by apply (proj1 (matchAlternatives_no_instance re (String ch s)) E m).
        -- apply Hno. exists m, j. split; [done|]. by eapply occursAt_S.
      * intros Hno (m & j & Hm & Hocc). apply Hno. exists m, (S j). split; [done|].
        by apply occursAt_there.
Qed.

Theorem stringMatch_leftmost s re r :
  stringMatch s re = Some r ->
  instanceOf re (matched r) /\ occursAt (matched r) (index r) s /\
  forall m j, (j < index r)%nat -> instanceOf re m -> ~ occursAt m j s.
Proof.
  intros (k & Hi & ? & ? & ?)%execFrom_Some. simpl in Hi. by subst k.
Qed.

Theorem Boolean_stringMatch s re : Boolean (stringMatch s re) = true <-> contains re s.
Proof.
  unfold stringMatch. destruct (execFrom re 0 s) as [r|] eqn:E; simpl.
  - split; [|done]. intros _. apply execFrom_Some in E as (k & _ & ? & ? & _).
    by exists (matched r), k.
  - split; [done|]. by apply execFrom_None in E.
Qed.

#[export] Instance contains_dec re s : Decision (contains re s).
Proof.
  refine (cast_if (decide (Boolean (stringMatch s re) = true))); by rewrite <- Boolean_stringMatch.
Defined.

(** ** Matching depends on the canonical form only *)

#[export] Instance sameFold_equiv ic : Equivalence (sameFold ic).
Proof.
  unfold sameFold. split.
  - by intros s.
  - by intros s1 s2.
  - intros s1 s2 s3 H12 H23. by rewrite H12.
Qed.

Lemma canon_eq_append ic s a b :
  canon ic s = a ++ b -> exists s1 s2, s = s1 ++ s2 /\ canon ic s1 = a /\ canon ic s2 = b.
Proof.
  revert s. induction a as [|ch a IH]; intros s Hs.
  - by exists "", s.
  - destruct s as [|c s]; [done|]. rewrite append_cons in Hs. simplify_eq/=.
    destruct (IH s) as (s1 & s2 & -> & <- & <-); [done|]. by exists (String c s1), s2.
Qed.

Lemma contains_append re pre s post : contains re s -> contains re (pre ++ s ++ post).
Proof.
  intros (m & i & Hm & (p & q & -> & _)). exists m, (String.length (pre ++ p)).
  split; [done|]. exists (pre ++ p), (q ++ post). by rewrite !append_assoc.
Qed.

Lemma contains_sameFold re s1 s2 :
  sameFold (ignoreCase re) s1 s2 -> contains re s1 -> contains re s2.
Proof.
  unfold sameFold. intros Hs (m & i & (alt & Hin & Hm) & (p & q & -> & _)).
  rewrite !canon_append in Hs. symmetry in Hs.
  apply canon_eq_append in Hs as (p2 & r2 & -> & Hp & Hr).
  apply canon_eq_append in Hr as (m2 & q2 & -> & Hm2 & Hq).
  exists m2, (String.length p2). split; [|by exists p2, q2].
  exists alt. split; [done|]. congruence.
Qed.

#[export] Instance contains_proper re : Proper (sameFold (ignoreCase re) ==> iff) (contains re).
Proof. intros s1 s2 Hs. split; apply contains_sameFold; [done|by symmetry]. Qed.

#[export] Instance Boolean_stringMatch_proper re :
  Proper (sameFold (ignoreCase re) ==> eq) (fun s => Boolean (stringMatch s re)).
Proof.
  intros s1 s2 Hs. apply eq_true_iff_eq. by rewrite !Boolean_stringMatch, Hs.
Qed.

Lemma toUpperCase_toLowerCase ch : toUpperCase (toLowerCase ch) = toUpperCase ch.
Proof. by destruct ch as [[] [] [] [] [] [] [] []]. Qed.

Lemma sameFold_upper s : sameFold true (canon true s) s.
Proof. apply canon_idemp. Qed.

Lemma sameFold_lower s : sameFold true (lowerCase s) s.
Proof.
  unfold sameFold. induction s as [|ch s IH]; [done|]. simpl.
  by rewrite toUpperCase_toLowerCase, IH.
Qed.
