(* ===== verification/DeviceDetect.v ===== *)
(** * DeviceDetect: [getDevice] (src/src/useDeviceDetect.ts, lines 4-28)

    [getDevice] classifies a user-agent string by five case-insensitive
    pattern tests.  The file holds the result record, the five regular
    expressions as the source writes them, the classifier, and the theorems
    on its result; the patterns are matched by [JsString.stringMatch].  The
    hook that calls the classifier is in [DeviceHook]. *)

From Stdlib Require Import Ascii.
From stdpp Require Import strings.
From S2P Require Import Prelude JsString.

#[local] Open Scope string_scope.

(** ** The classifier *)

Record IGetDevice : Type := {
  isMobile : bool;
  isDesktop : bool;
  isAndroid : bool;
  isIos : bool;
  isSSR : bool;
}.

#[export] Instance IGetDevice_eq_dec : EqDecision IGetDevice.
Proof. solve_decision. Defined.

(** [/Android/i] *)
Definition reAndroid : RegExp :=
  {| source := ["Android"]; ignoreCase := true |}.

(** [/iPhone|iPad|iPod/i] *)
Definition reIos : RegExp :=
  {| source := ["iPhone"; "iPad"; "iPod"]; ignoreCase := true |}.

(** [/Opera Mini/i] *)
Definition reOpera : RegExp :=
  {| source := ["Opera Mini"]; ignoreCase := true |}.

(** [/IEMobile/i] *)
Definition reWindows : RegExp :=
  {| source := ["IEMobile"]; ignoreCase := true |}.

(** [/SSR/i] *)
Definition reSSR : RegExp :=
  {| source := ["SSR"]; ignoreCase := true |}.

Definition getDevice (userAgent : string) : IGetDevice :=
  let isAndroid := Boolean (stringMatch userAgent reAndroid) in
  let isIos := Boolean (stringMatch userAgent reIos) in
  let isOpera := Boolean (stringMatch userAgent reOpera) in
  let isWindows := Boolean (stringMatch userAgent reWindows) in
  let isSSR := Boolean (stringMatch userAgent reSSR) in
  let isMobile := Boolean (isAndroid || isIos || isOpera || isWindows) in
  let isDesktop := Boolean (negb isMobile && negb isSSR) in
  {| isMobile := isMobile;
     isDesktop := isDesktop;
     isAndroid := isAndroid;
     isIos := isIos;
     isSSR := isSSR |}.

(** ** Vocabulary of the specification *)

(** The relation between the flags that the data model asks for. *)
Definition wellFormed (d : IGetDevice) : Prop :=
  isDesktop d = negb (isMobile d) && negb (isSSR d) /\
  (isAndroid d = true -> isMobile d = true) /\
  (isIos d = true -> isMobile d = true).

(** The patterns that make a device mobile. *)
Definition mobilePatterns : list RegExp :=
  [reAndroid; reIos; reOpera; reWindows].

(** The result for a user agent none of the patterns recognises. *)
Definition plainDesktop : IGetDevice :=
  {| isMobile := false; isDesktop := true; isAndroid := false; isIos := false; isSSR := false |}.

(** Flag by flag, [d1] has every positive flag of [d2]. *)
Definition flagsInclude (d1 d2 : IGetDevice) : Prop :=
  (isAndroid d2 = true -> isAndroid d1 = true) /\
  (isIos d2 = true -> isIos d1 = true) /\
  (isSSR d2 = true -> isSSR d1 = true) /\
  (isMobile d2 = true -> isMobile d1 = true) /\
  (isDesktop d1 = true -> isDesktop d2 = true).

(** ** The flags, one by one *)

Lemma isAndroid_getDevice ua : isAndroid (getDevice ua) = true <-> contains reAndroid ua.
Proof. apply Boolean_stringMatch. Qed.

Lemma isIos_getDevice ua : isIos (getDevice ua) = true <-> contains reIos ua.
Proof. apply Boolean_stringMatch. Qed.

Lemma isSSR_getDevice ua : isSSR (getDevice ua) = true <-> contains reSSR ua.
Proof. apply Boolean_stringMatch. Qed.

Lemma isMobile_getDevice ua :
  isMobile (getDevice ua) = true <-> exists re, re ∈ mobilePatterns /\ contains re ua.
Proof.
  unfold getDevice, mobilePatterns; simpl. unfold Boolean at 1, ToBoolean_bool.
  rewrite !orb_true_iff, !Boolean_stringMatch. split.
  - intros [[[?|?]|?]|?]; eexists; (split; [|done]); set_solver.
  - intros (re & Hin & Hre).
    repeat (apply elem_of_cons in Hin as [->|Hin]); [tauto..|by apply elem_of_nil in Hin].
Qed.

Lemma isDesktop_getDevice ua :
  isDesktop (getDevice ua) = negb (isMobile (getDevice ua)) && negb (isSSR (getDevice ua)).
Proof. reflexivity. Qed.

Lemma isMobile_false ua :
  isMobile (getDevice ua) = false <-> forall re, re ∈ mobilePatterns -> ~ contains re ua.
Proof.
  rewrite <- not_true_iff_false, isMobile_getDevice. split.
  - intros Hno re Hin Hre. apply Hno. by exists re.
  - intros Hno (re & Hin & Hre). by apply (Hno re).
Qed.

(** ** Theorems on the classification *)

(** C38: the flags of every result are related as the data model says:
    [isDesktop] is [!isMobile && !isSSR], and an Android or iOS device is
    mobile. *)
Theorem getDevice_wellFormed ua : wellFormed (getDevice ua).
Proof.
  split_and!; [apply isDesktop_getDevice|..]; intros H; apply isMobile_getDevice.
  - exists reAndroid. split; [set_solver|]. by apply isAndroid_getDevice.
  - exists reIos. split; [set_solver|]. by apply isIos_getDevice.
Qed.

(** C6: a user agent that contains [SSR], in any case and whatever else it
    contains, is server-rendered and not a desktop. *)
Theorem getDevice_ssr ua :
  contains reSSR ua -> isSSR (getDevice ua) = true /\ isDesktop (getDevice ua) = false.
Proof.
  intros Hssr%isSSR_getDevice. split; [done|].
  rewrite isDesktop_getDevice, Hssr. apply andb_false_r.
Qed.

(** The flags of an Android user agent. *)
Lemma android_flags ua :
  contains reAndroid ua ->
  ~ contains reSSR ua ->
  isAndroid (getDevice ua) = true /\ isMobile (getDevice ua) = true /\
  isDesktop (getDevice ua) = false /\ isSSR (getDevice ua) = false.
Proof.
  intros Ha Hs. rewrite <- isSSR_getDevice in Hs. apply not_true_is_false in Hs.
  assert (isMobile (getDevice ua) = true) as Hm.
  { apply isMobile_getDevice. exists reAndroid. split; [set_solver|done]. }
  rewrite isDesktop_getDevice, Hm, Hs. by rewrite isAndroid_getDevice.
Qed.

(** C7: a user agent that matches [Android] and does not contain [SSR] is a
    mobile Android device and not a desktop. *)
Theorem getDevice_android ua :
  contains reAndroid ua ->
  ~ contains reSSR ua ->
  isAndroid (getDevice ua) = true /\ isMobile (getDevice ua) = true /\
  isDesktop (getDevice ua) = false /\ isSSR (getDevice ua) = false.
Proof. apply android_flags. Qed.

(** C8: a user agent that none of the five patterns recognises is a desktop,
    with every other flag off. *)
Theorem getDevice_unrecognised ua :
  (forall re, re ∈ mobilePatterns -> ~ contains re ua) ->
  ~ contains reSSR ua ->
  getDevice ua = plainDesktop.
Proof.
  intros Hm Hs. unfold getDevice, plainDesktop.
  rewrite <- !Boolean_stringMatch in Hs. apply not_true_is_false in Hs. rewrite Hs.
  assert (forall re, re ∈ mobilePatterns -> Boolean (stringMatch ua re) = false) as Hno.
  { intros re Hre. apply not_true_is_false. rewrite Boolean_stringMatch. by apply Hm. }
  rewrite !Hno by set_solver. reflexivity.
Qed.

(** User agents with the same folding are classified alike. *)
#[export] Instance getDevice_proper : Proper (sameFold true ==> eq) getDevice.
Proof.
  intros ua1 ua2 Hua. unfold getDevice.
  by rewrite (Boolean_stringMatch_proper reAndroid _ _ Hua),
    (Boolean_stringMatch_proper reIos _ _ Hua),
    (Boolean_stringMatch_proper reOpera _ _ Hua),
    (Boolean_stringMatch_proper reWindows _ _ Hua),
    (Boolean_stringMatch_proper reSSR _ _ Hua).
Qed.

(** C39: the classification does not depend on the case of the letters.
    Two user agents that differ only in the case of letters from [a] to
    [z], that is, that are the same once those letters are capitals, yield
    the same five flags: every pattern of lines 13-17 carries the [i]
    flag. *)
Theorem getDevice_case_insensitive ua1 ua2 :
  sameFold true ua1 ua2 -> getDevice ua1 = getDevice ua2.
Proof. intros Hua. by rewrite Hua. Qed.

(** In particular a user agent, the user agent with its capitals made
    small and the user agent with its small letters made capitals are
    classified alike. *)
Corollary getDevice_folded ua :
  getDevice (lowerCase ua) = getDevice ua /\ getDevice (canon true ua) = getDevice ua.
Proof. split; [by rewrite sameFold_lower | by rewrite sameFold_upper]. Qed.

(** Embedding a user agent in a longer one can only switch flags on:
    what was recognised stays recognised, and a longer string that is a
    desktop contains only desktops. *)
Theorem getDevice_embed pre ua post :
  flagsInclude (getDevice (pre ++ ua ++ post)) (getDevice ua).
Proof.
  assert (forall re, Boolean (stringMatch ua re) = true ->
    Boolean (stringMatch (pre ++ ua ++ post) re) = true) as Hmono.
  { intros re. rewrite !Boolean_stringMatch. apply contains_append. }
  unfold flagsInclude. split_and!; try apply Hmono.
  - rewrite !isMobile_getDevice. intros (re & ? & ?). exists re. split; [done|].
    by apply contains_append.
  - rewrite !isDesktop_getDevice, !andb_true_iff, !negb_true_iff.
    rewrite <- !not_true_iff_false, !isMobile_getDevice, !isSSR_getDevice.
    intros [Hm Hs]. split.
    + intros (re & ? & ?). apply Hm. exists re. split; [done|]. by apply contains_append.
    + intros ?. by apply Hs, contains_append.
Qed.

(** ** The theorems at work *)

Definition uaPixel : string :=
  "Mozilla/5.0 (Linux; Android 13; Pixel 7) AppleWebKit/537.36 (KHTML, like Gecko) Chrome/116.0.0.0 Mobile Safari/537.36".

Definition uaFirefox : string :=
  "Mozilla/5.0 (X11; Linux x86_64; rv:109.0) Gecko/20100101 Firefox/117.0".

Definition uaPressReader : string :=
  "Mozilla/5.0 (Windows NT 10.0; Win64; x64) AppleWebKit/537.36 (KHTML, like Gecko) PressReader/7.1".

Lemma getDevice_ssr_witness :
  isSSR (getDevice "ssr") = true /\ isDesktop (getDevice "ssr") = false.
Proof. apply (getDevice_ssr "ssr"). by apply (bool_decide_unpack _). Defined.

Lemma getDevice_android_witness :
  isAndroid (getDevice uaPixel) = true /\ isMobile (getDevice uaPixel) = true /\
  isDesktop (getDevice uaPixel) = false /\ isSSR (getDevice uaPixel) = false.
Proof.
  apply (getDevice_android uaPixel).
  - by apply (bool_decide_unpack _).
  - by apply (bool_decide_unpack _).
Defined.

Lemma getDevice_unrecognised_witness : getDevice uaFirefox = plainDesktop.
Proof.
  apply (getDevice_unrecognised uaFirefox).
  - intros re Hin.
    repeat (apply elem_of_cons in Hin as [->|Hin]); try by apply (bool_decide_unpack _).
    by apply elem_of_nil in Hin.
  - by apply (bool_decide_unpack _).
Defined.

Lemma getDevice_case_insensitive_witness :
  getDevice "mozilla/5.0 (linux; ANDROID 14; pixel 8)" = getDevice "Mozilla/5.0 (Linux; Android 14; Pixel 8)".
Proof.
  apply (getDevice_case_insensitive "mozilla/5.0 (linux; ANDROID 14; pixel 8)"
           "Mozilla/5.0 (Linux; Android 14; Pixel 8)").
  reflexivity.
Defined.

(** The sentinel collides with genuine user agents.  Any user agent that
    carries the product token [PressReader] contains the letters [ssR]; it
    is reported as server-rendered and not as a desktop, whatever browser
    and platform it names. *)
Corollary ssr_sentinel_collision pre post :
  isSSR (getDevice (pre ++ "PressReader" ++ post)) = true /\
  isDesktop (getDevice (pre ++ "PressReader" ++ post)) = false.
Proof.
  assert (isSSR (getDevice (pre ++ "PressReader" ++ post)) = true) as Hssr.
  { apply isSSR_getDevice, contains_append. by apply (bool_decide_unpack _). }
  split; [done|]. rewrite isDesktop_getDevice, Hssr. apply andb_false_r.
Qed.

Example ssr_sentinel_collision_PressReader :
  getDevice uaPressReader =
  {| isMobile := false; isDesktop := false; isAndroid := false; isIos := false; isSSR := true |}.
Proof. reflexivity. Qed.
