(* ===== verification/DeviceHook.v ===== *)
(** * DeviceHook: [useDeviceDetect] (src/src/useDeviceDetect.ts, lines 30-45)

    The hook keeps the classification in a state slot that starts as the
    empty object, asks [useIsClient] whether the code runs on a client, and
    registers an effect keyed on that answer.  The effect reads the user
    agent ([navigator.userAgent] on a client, the literal ['SSR'] otherwise),
    classifies it with [getDevice] and stores the result with the setter of
    the slot; the hook returns the value of the slot.

    [useIsClient] is not part of the sources: its answer is an input of every
    render.  The page that uses the hook is a system driven by renders; a
    render is followed by its commit, and an exception thrown by the effect
    takes the page down. *)

From stdpp Require Import strings.
From S2P Require Import Prelude JsNumber React JsString DeviceDetect.

(** ** Values *)

(** What the state slot holds: [{}] until the effect has stored a
    classification. *)
Inductive Device : Type :=
| EmptyObject
| Classified (d : IGetDevice).

#[export] Instance Device_eq_dec : EqDecision Device.
Proof. solve_decision. Defined.

(** Reading a flag of the returned object: a property the object does not
    have reads as [undefined]. *)
Definition getField (flag : IGetDevice -> bool) (device : Device) : option bool :=
  match device with
  | EmptyObject => None
  | Classified d => Some (flag d)
  end.

(** [undefined] is falsy. *)
#[export] Instance ToBoolean_field : ToBoolean (option bool) :=
  fun o => default false o.

(** The global [navigator], which exists in a browser only. *)
Record Navigator : Type := {
  userAgent : string;
}.

Record Env : Type := {
  navigator : option Navigator;
}.

Inductive JsError : Type :=
| ReferenceError (name : string).

#[export] Instance JsError_eq_dec : EqDecision JsError.
Proof. solve_decision. Defined.

(** ** The hook *)

(** The effect function; it captures [isClient] of the render that created
    it.  It returns nothing, so the effect has no cleanup. *)
Record Detect : Type := {
  dt_isClient : bool;
}.

Inductive NoCleanup : Type := .

(** The slots of the hook, in call order (the slots of [useIsClient], which
    lie between the two, are its own). *)
Record DeviceFiber : Type := {
  deviceHook : StateHook Device;
  detectHook : EffectHook NoCleanup;
}.

(** The dependency array of the effect: [[isClient]]. *)
Definition detectDeps (isClient : bool) : list val :=
  [VBool isClient].
Arguments detectDeps : simpl never.

(** The render: the slot, the effect handed to the commit, and the value
    returned. *)
Definition useDeviceDetect (prev : option DeviceFiber) (isClient : bool) : StateHook Device * Effect Detect NoCleanup * Device :=
  let state := useState (deviceHook <$> prev) EmptyObject in
  let device := memoizedState state in
  let eff := useEffect (detectHook <$> prev) {| dt_isClient := isClient |} (detectDeps isClient) in
  (state, eff, device).

(** What the effect works on: the state slot, through its setter, and the
    exception it may throw. *)
Record World : Type := {
  w_device : StateHook Device;
  w_thrown : option JsError;
}.

(** [setDevice(v)] *)
Definition setDevice (v : IGetDevice) (w : World) : World :=
  {| w_device := dispatchSetState (SetValue (Classified v)) (w_device w);
     w_thrown := w_thrown w |}.

Definition throw (err : JsError) (w : World) : World :=
  {| w_device := w_device w; w_thrown := Some err |}.

Section Page.
Context (env : Env).

(** [isClient ? navigator.userAgent : 'SSR']: naming [navigator] where it
    does not exist throws. *)
Definition readUserAgent (isClient : bool) : JsError + string :=
  if isClient then
    match navigator env with
    | Some n => inr (userAgent n)
    | None => inl (ReferenceError "navigator"%string)
    end
  else inr "SSR"%string.

(** Running the effect function. *)
Definition runDetect (c : Detect) : State World (option NoCleanup) :=
  fun w =>
    match readUserAgent (dt_isClient c) with
    | inr userAgent => (None, setDevice (getDevice userAgent) w)
    | inl err => (None, throw err w)
    end.

Definition runNoCleanup (c : NoCleanup) : State World unit :=
  match c with end.

(** ** The page as a system *)

(** The slots of the hook while the page is up, the exception that took it
    down, and the values the renders returned so far. *)
Record Page : Type := {
  fiber : option DeviceFiber;
  crashed : option JsError;
  shown : list Device;
}.

Definition boot : Page :=
  {| fiber := None; crashed := None; shown := [] |}.

(** A render on the client followed by its commit. *)
Definition renderPage (p : Page) (isClient : bool) : Page :=
  match crashed p with
  | Some _ => p
  | None =>
      let '(state, eff, device) := useDeviceDetect (fiber p) isClient in
      let (effHook, w) :=
        commitEffect runDetect runNoCleanup eff {| w_device := state; w_thrown := None |} in
      match w_thrown w with
      | Some err =>
          {| fiber := None; crashed := Some err; shown := shown p ++ [device] |}
      | None =>
          {| fiber := Some {| deviceHook := w_device w; detectHook := effHook |};
             crashed := None;
             shown := shown p ++ [device] |}
      end
  end.

Definition renderSeq (p : Page) (cs : list bool) : Page :=
  foldl renderPage p cs.

(** A state update is queued: the runtime will render again. *)
Definition pending (p : Page) : bool :=
  match fiber p with
  | Some f =>
      match queue (deviceHook f) with
      | [] => false
      | _ => true
      end
  | None => false
  end.

(** The runtime renders until no update is queued. *)
Definition settle (fuel : nat) (isClient : bool) (p : Page) : Page :=
  rerender pending (fun q => renderPage q isClient) fuel p.

End Page.

(** Rendering on a server: the render runs, the commit does not. *)
Definition renderToString (isClient : bool) : Device :=
  (useDeviceDetect None isClient).2.

(** ** The execution-environment probe

    What the hook consumes of [useIsClient]: its answer at each render.  A
    probe is sound when it never claims a client where there is no
    [navigator]. *)
Class ClientProbe (P : Type) : Type := {
  probe_answer : P -> Env -> nat -> bool;
  probe_sound : forall probe env n, probe_answer probe env n = true -> is_Some (navigator env);
}.

(** The probe that always reports a server. *)
Inductive AlwaysServer : Type :=
| alwaysServer.

(** The probe that queries the environment. *)
Inductive QueryEnvironment : Type :=
| queryEnvironment.

#[export] Instance AlwaysServer_probe : ClientProbe AlwaysServer := {|
  probe_answer _ _ _ := false;
  probe_sound _ _ _ H := False_ind _ (Bool.diff_false_true H);
|}.

#[export] Instance QueryEnvironment_probe : ClientProbe QueryEnvironment := {|
  probe_answer _ env _ := bool_decide (is_Some (navigator env));
  probe_sound _ env _ H := proj1 (bool_decide_eq_true _) H;
|}.

(** The answers of a probe over [n] renders, and the page after them. *)
Definition answers {P : Type} `{!ClientProbe P} (probe : P) (env : Env) (n : nat) : list bool :=
  probe_answer probe env <$> seq 0 n.

Definition visit {P : Type} `{!ClientProbe P} (probe : P) (env : Env) (n : nat) : Page :=
  renderSeq env boot (answers probe env n).

(** ** Vocabulary of the specification *)

(** The value the next render returns. *)
Definition pendingDevice (f : DeviceFiber) : Device :=
  memoizedState (updateState (deviceHook f)).

Definition nextDevice (p : Page) : Device :=
  match fiber p with
  | Some f => pendingDevice f
  | None => EmptyObject
  end.

(** The classification an effect created with [isClient] stores. *)
Definition classify (env : Env) (isClient : bool) : option Device :=
  match readUserAgent env isClient with
  | inr ua => Some (Classified (getDevice ua))
  | inl _ => None
  end.

(** The renders the page survives: without a [navigator], those that are
    told they are not on a client. *)
Definition survivable (env : Env) (cs : list bool) : Prop :=
  Forall (fun c => is_Some (classify env c)) cs.

(** *** The invariant

    While the page is up, the effect slot holds the dependencies
    [[isClient]] of the render whose effect ran last, and the next render
    returns the classification that effect stored. *)
Definition detected (env : Env) (f : DeviceFiber) (isClient : bool) : Prop :=
  detectHook f = {| eff_deps := detectDeps isClient; eff_destroy := None |} /\
  classify env isClient = Some (pendingDevice f).

Definition PageInv (env : Env) (p : Page) : Prop :=
  match crashed p, fiber p with
  | None, Some f => exists isClient, detected env f isClient
  | None, None => True
  | Some _, Some _ => False
  | Some _, None => True
  end.

(** What the renders return, given the answers of [useIsClient]: the empty
    object first, then the classification of the render before. *)
Definition expected (env : Env) (cs : list bool) : list Device :=
  take (length cs) (EmptyObject :: omap (classify env) cs).

(** The type the hook declares for what it returns ([IGetDevice]): an
    object with the five flags. *)
Definition hasDeclaredType (d : Device) : bool :=
  match d with
  | Classified _ => true
  | EmptyObject => false
  end.

(** The values returned once the page has been rendered: the empty object,
    then values of the declared type; and the slots are there unless the
    page is down. *)
Definition typedAfterMount (p : Page) : Prop :=
  exists ds,
    shown p = EmptyObject :: ds /\
    Forall (fun d => hasDeclaredType d = true) ds /\
    (crashed p = None -> is_Some (fiber p)).

(** ** The render, case by case *)

Section PageFacts.
Context (env : Env).

Implicit Types (p : Page) (f : DeviceFiber) (c : bool) (h : StateHook Device).

Lemma detectDeps_equal c c0 :
  areHookInputsEqual (detectDeps c) (detectDeps c0) = bool_decide (c = c0).
Proof.
  unfold detectDeps; cbn. unfold objectIs. rewrite andb_true_r.
  apply bool_decide_ext. split; [by intros [= ->] | by intros ->].
Qed.

Lemma memoizedState_dispatch (v : Device) h :
  memoizedState (updateState (dispatchSetState (SetValue v) h)) = v.
Proof. simpl. by rewrite foldl_snoc. Qed.

Lemma classify_Some c d :
  classify env c = Some d <-> exists ua, readUserAgent env c = inr ua /\ d = Classified (getDevice ua).
Proof.
  unfold classify. destruct (readUserAgent env c) as [err|ua].
  - split; [done|by intros (? & ? & _)].
  - split; [intros [= <-]; eauto|by intros (? & [= <-] & ->)].
Qed.

Lemma classify_None c :
  classify env c = None <-> exists err, readUserAgent env c = inl err.
Proof.
  unfold classify. destruct (readUserAgent env c) as [err|ua]; [|split; [done|by intros [? ?]]].
  split; eauto.
Qed.

Lemma renderPage_mount c p :
  crashed p = None -> fiber p = None ->
  renderPage env p c =
  match readUserAgent env c with
  | inr ua =>
      {| fiber := Some {|
           deviceHook := dispatchSetState (SetValue (Classified (getDevice ua))) (mountState EmptyObject);
           detectHook := {| eff_deps := detectDeps c; eff_destroy := None |} |};
         crashed := None;
         shown := shown p ++ [EmptyObject] |}
  | inl err => {| fiber := None; crashed := Some err; shown := shown p ++ [EmptyObject] |}
  end.
Proof.
  intros Hc Hf. unfold renderPage, useDeviceDetect. rewrite Hc, Hf. simpl.
  unfold commitEffect, runDetect; simpl. st_unfold; simpl. by destruct (readUserAgent env c).
Qed.

Lemma renderPage_update c p f c0 :
  crashed p = None -> fiber p = Some f ->
  detectHook f = {| eff_deps := detectDeps c0; eff_destroy := None |} ->
  renderPage env p c =
  if decide (c = c0) then
    {| fiber := Some {| deviceHook := updateState (deviceHook f); detectHook := detectHook f |};
       crashed := None;
       shown := shown p ++ [pendingDevice f] |}
  else
    match readUserAgent env c with
    | inr ua =>
        {| fiber := Some {|
             deviceHook := dispatchSetState (SetValue (Classified (getDevice ua))) (updateState (deviceHook f));
             detectHook := {| eff_deps := detectDeps c; eff_destroy := None |} |};
           crashed := None;
           shown := shown p ++ [pendingDevice f] |}
    | inl err => {| fiber := None; crashed := Some err; shown := shown p ++ [pendingDevice f] |}
    end.
Proof.
  intros Hc Hf Hd. unfold renderPage, useDeviceDetect. rewrite Hc, Hf.
  cbn [fmap option_fmap option_map]. unfold useEffect, commitEffect. rewrite Hd.
  cbn [eff_deps eff_destroy e_hasEffect e_destroy e_create e_deps]. rewrite detectDeps_equal.
  case_bool_decide as Hsame; cbn [negb].
  - rewrite decide_True by done. by subst c0.
  - rewrite decide_False by done. unfold runDetect; simpl. st_unfold; simpl.
    by destruct (readUserAgent env c).
Qed.

Lemma renderPage_crashed c p err : crashed p = Some err -> renderPage env p c = p.
Proof. intros Hc. unfold renderPage. by rewrite Hc. Qed.

(** Every render returns the value the slot was about to take. *)
Lemma renderPage_shown c p :
  PageInv env p -> crashed p = None -> shown (renderPage env p c) = shown p ++ [nextDevice p].
Proof.
  unfold PageInv, nextDevice. intros Hinv Hc. rewrite Hc in Hinv. destruct (fiber p) as [f|] eqn:Hf.
  - destruct Hinv as (c0 & Hd & _). rewrite (renderPage_update c p f c0 Hc Hf Hd).
    case_decide; [done|]. by destruct (readUserAgent env c).
  - rewrite (renderPage_mount c p Hc Hf). by destruct (readUserAgent env c).
Qed.

(** A render that can read the user agent keeps the page up; the next
    render returns the classification for this one's [isClient]. *)
Lemma renderPage_ok c p d :
  PageInv env p -> crashed p = None -> classify env c = Some d ->
  crashed (renderPage env p c) = None /\
  exists f', fiber (renderPage env p c) = Some f' /\ detected env f' c /\ pendingDevice f' = d.
Proof.
  unfold PageInv. intros Hinv Hc Hcl. rewrite Hc in Hinv.
  pose proof Hcl as (ua & Hua & Hd)%classify_Some.
  assert (forall f', detectHook f' = {| eff_deps := detectDeps c; eff_destroy := None |} ->
    pendingDevice f' = d -> detected env f' c /\ pendingDevice f' = d) as Hdet.
  { intros f' ? Hp'. unfold detected. by rewrite Hp'. }
  destruct (fiber p) as [f|] eqn:Hf.
  - destruct Hinv as (c0 & Hd0 & Hp). rewrite (renderPage_update c p f c0 Hc Hf Hd0).
    case_decide as Hsame; [subst c0|rewrite Hua]; (split; [done|]); eexists; (split; [done|]).
    + apply Hdet; [done|]. rewrite Hcl in Hp. by injection Hp.
    + apply Hdet; [done|]. unfold pendingDevice; cbn [deviceHook]. by rewrite memoizedState_dispatch.
  - rewrite (renderPage_mount c p Hc Hf), Hua. split; [done|]. eexists. split; [done|].
    apply Hdet; [done|]. unfold pendingDevice; cbn [deviceHook]. by rewrite memoizedState_dispatch.
Qed.

(** A render whose effect runs and cannot read the user agent takes the
    page down. *)
Lemma renderPage_throw c p err :
  PageInv env p -> crashed p = None -> readUserAgent env c = inl err ->
  crashed (renderPage env p c) = Some err /\ fiber (renderPage env p c) = None.
Proof.
  unfold PageInv. intros Hinv Hc Hua. rewrite Hc in Hinv. destruct (fiber p) as [f|] eqn:Hf.
  - destruct Hinv as (c0 & Hd & Hp). rewrite (renderPage_update c p f c0 Hc Hf Hd).
    case_decide as Hsame; [|by rewrite Hua]. subst c0. unfold classify in Hp. by rewrite Hua in Hp.
  - by rewrite (renderPage_mount c p Hc Hf), Hua.
Qed.

Lemma PageInv_boot : PageInv env boot.
Proof. done. Qed.

Lemma PageInv_renderPage c p : PageInv env p -> PageInv env (renderPage env p c).
Proof.
  intros Hinv. destruct (crashed p) as [err|] eqn:Hc; [by rewrite (renderPage_crashed c p err)|].
  destruct (classify env c) as [d|] eqn:Hcl.
  - destruct (renderPage_ok c p d Hinv Hc Hcl) as (Hc' & f' & Hf' & Hd & _).
    unfold PageInv. rewrite Hc', Hf'. eauto.
  - apply classify_None in Hcl as [err Hua].
    destruct (renderPage_throw c p err Hinv Hc Hua) as (Hc' & Hf'). unfold PageInv. by rewrite Hc', Hf'.
Qed.

Lemma PageInv_renderSeq cs p : PageInv env p -> PageInv env (renderSeq env p cs).
Proof. apply (foldl_invariant (renderPage env) (PageInv env)). intros q c. apply PageInv_renderPage. Qed.

Lemma renderSeq_app p cs1 cs2 : renderSeq env p (cs1 ++ cs2) = renderSeq env (renderSeq env p cs1) cs2.
Proof. apply foldl_app. Qed.

(** ** Sequences of renders *)

Lemma renderSeq_spec cs p :
  PageInv env p -> crashed p = None -> survivable env cs ->
  crashed (renderSeq env p cs) = None /\
  shown (renderSeq env p cs) = shown p ++ take (length cs) (nextDevice p :: omap (classify env) cs).
Proof.
  revert p. induction cs as [|c cs IH]; intros p Hinv Hc Hcs.
  - simpl. by rewrite app_nil_r.
  - apply Forall_cons in Hcs as [[d Hcl] Hcs].
    change (renderSeq env p (c :: cs)) with (renderSeq env (renderPage env p c) cs).
    destruct (renderPage_ok c p d Hinv Hc Hcl) as (Hc' & f' & Hf' & _ & Hd).
    assert (nextDevice (renderPage env p c) = d) as Hn by (unfold nextDevice; by rewrite Hf').
    destruct (IH (renderPage env p c) (PageInv_renderPage c p Hinv) Hc' Hcs) as [-> ->].
    split; [done|]. rewrite (renderPage_shown c p Hinv Hc), Hn, <- app_assoc.
    cbn [length omap list_omap take app]. by rewrite Hcl.
Qed.

(** After a last render that could read the user agent the page is up, and
    the next render returns the classification for that render. *)
Lemma renderSeq_last cs c p d :
  PageInv env p -> crashed p = None -> survivable env cs -> classify env c = Some d ->
  crashed (renderSeq env p (cs ++ [c])) = None /\
  exists f', fiber (renderSeq env p (cs ++ [c])) = Some f' /\ detected env f' c /\ pendingDevice f' = d.
Proof.
  intros Hinv Hc Hcs Hcl. rewrite renderSeq_app.
  change (renderSeq env ?q [c]) with (renderPage env q c).
  destruct (renderSeq_spec cs p Hinv Hc Hcs) as [Hc' _].
  apply renderPage_ok; [by apply PageInv_renderSeq|done..].
Qed.

Lemma renderPage_repeat c p f :
  crashed p = None -> fiber p = Some f -> detected env f c ->
  renderPage env p c =
  {| fiber := Some {| deviceHook := updateState (deviceHook f); detectHook := detectHook f |};
     crashed := None;
     shown := shown p ++ [pendingDevice f] |}.
Proof. intros Hc Hf [Hd _]. by rewrite (renderPage_update c p f c Hc Hf Hd), decide_True. Qed.

Lemma pendingDevice_typed p f :
  PageInv env p -> crashed p = None -> fiber p = Some f -> hasDeclaredType (pendingDevice f) = true.
Proof.
  unfold PageInv. intros Hinv Hc Hf. rewrite Hc, Hf in Hinv.
  by destruct Hinv as (c0 & _ & (ua & _ & ->)%classify_Some).
Qed.

Lemma renderPage_up c p :
  PageInv env p -> crashed p = None -> crashed (renderPage env p c) = None ->
  is_Some (fiber (renderPage env p c)).
Proof.
  intros Hinv Hc Hc'. destruct (classify env c) as [d|] eqn:Hcl.
  - destruct (renderPage_ok c p d Hinv Hc Hcl) as (_ & f' & -> & _). by eexists.
  - apply classify_None in Hcl as [err Hua].
    destruct (renderPage_throw c p err Hinv Hc Hua) as [Hx _]. by rewrite Hx in Hc'.
Qed.

Lemma typedAfterMount_boot c : typedAfterMount (renderPage env boot c).
Proof.
  exists []. rewrite (renderPage_shown c boot PageInv_boot eq_refl).
  split_and!; [done|constructor|]. by apply renderPage_up.
Qed.

Lemma typedAfterMount_renderPage c p :
  PageInv env p -> typedAfterMount p -> typedAfterMount (renderPage env p c).
Proof.
  intros Hinv (ds & Hs & Hds & Hup).
  destruct (crashed p) as [err|] eqn:Hc.
  { rewrite (renderPage_crashed c p err Hc). exists ds. split_and!; [done..|by rewrite Hc]. }
  destruct (Hup eq_refl) as [f Hf]. exists (ds ++ [pendingDevice f]).
  rewrite (renderPage_shown c p Hinv Hc), Hs. unfold nextDevice. rewrite Hf.
  split_and!; [done| |by apply renderPage_up].
  apply Forall_app. split; [done|]. apply Forall_singleton. by apply (pendingDevice_typed p).
Qed.

Lemma typedAfterMount_renderSeq cs p :
  PageInv env p -> typedAfterMount p -> typedAfterMount (renderSeq env p cs).
Proof.
  revert p. induction cs as [|c cs IH]; intros p Hinv Hp; [done|].
  by apply IH; [apply PageInv_renderPage|apply typedAfterMount_renderPage].
Qed.

Lemma survivable_navigator n cs : navigator env = Some n -> survivable env cs.
Proof.
  intros Hn. apply Forall_forall. intros [|] _; unfold classify, readUserAgent; by rewrite ?Hn.
Qed.

Lemma survivable_server cs : Forall (fun c => c = false) cs -> survivable env cs.
Proof. intros Hcs. eapply Forall_impl; [exact Hcs|]. by intros c ->. Qed.

Lemma settle_idle fuel c p : pending p = false -> settle env fuel c p = p.
Proof. apply rerender_idle. Qed.

(** ** Theorems *)

(** C28: what the renders return.  As long as the effect can read the user
    agent, the first render returns the empty object and every later render
    the classification for the answer [useIsClient] gave to the render before
    it: the value lags one render behind. *)
Theorem device_lags_one_render cs :
  survivable env cs ->
  crashed (renderSeq env boot cs) = None /\ shown (renderSeq env boot cs) = expected env cs.
Proof. intros Hcs. by destruct (renderSeq_spec cs boot PageInv_boot eq_refl Hcs) as [-> ->]. Qed.

(** Once the probe has answered [true] twice in a row in a browser, the hook
    returns the classification of the user agent and nothing is queued. *)
Lemma settled_in_browser n cs :
  navigator env = Some n ->
  let p := renderSeq env boot (cs ++ [true; true]) in
  last (shown p) = Some (Classified (getDevice (userAgent n))) /\ pending p = false /\ crashed p = None.
Proof.
  intros Hn. cbn zeta. change (cs ++ [true; true]) with (cs ++ [true] ++ [true]).
  rewrite app_assoc, renderSeq_app. change (renderSeq env ?q [true]) with (renderPage env q true).
  destruct (renderSeq_last cs true boot (Classified (getDevice (userAgent n))) PageInv_boot eq_refl
              (survivable_navigator n cs Hn)) as (Hc & f' & Hf' & Hd & Hp).
  { unfold classify, readUserAgent. by rewrite Hn. }
  rewrite (renderPage_repeat true _ f' Hc Hf' Hd). cbn [shown pending fiber crashed].
  by rewrite last_snoc, Hp.
Qed.

(** C10: in a browser the value settles.  Whatever [useIsClient] answered
    before, once it has answered [true] on two renders in a row the hook
    returns the classification of [navigator.userAgent], no update is queued
    and the page is up. *)
Theorem device_settles n cs :
  navigator env = Some n ->
  let p := renderSeq env boot (cs ++ [true; true]) in
  last (shown p) = Some (Classified (getDevice (userAgent n))) /\ pending p = false /\ crashed p = None.
Proof. apply settled_in_browser. Qed.

(** The hook and the classifier together.  In a browser whose user agent
    matches [Android] and does not contain [SSR], once [useIsClient] has
    answered [true] on two renders in a row the hook returns a mobile
    Android device that is neither a desktop nor server-rendered; the first
    render returned the empty object, in which [isMobile] reads as not
    set. *)
Theorem android_browser_reports_mobile n cs :
  navigator env = Some n ->
  contains reAndroid (userAgent n) ->
  ~ contains reSSR (userAgent n) ->
  let p := renderSeq env boot (cs ++ [true; true]) in
  head (shown p) = Some EmptyObject /\
  exists d, last (shown p) = Some (Classified d) /\
    isAndroid d = true /\ isMobile d = true /\ isDesktop d = false /\ isSSR d = false.
Proof.
  intros Hn Ha Hs. destruct (settled_in_browser n cs Hn) as (Hlast & _ & Hup). cbn zeta in *.
  pose proof (survivable_navigator n (cs ++ [true; true]) Hn) as Hsv.
  destruct (renderSeq_spec _ boot PageInv_boot eq_refl Hsv) as [_ Hshown].
  split; [|eexists; split; [exact Hlast|by apply android_flags]].
  rewrite Hshown. by destruct cs.
Qed.

(** The render loop terminates.  With a constant answer of
    [useIsClient], the mount queues one update and the render it causes
    queues none: the runtime stops after that render whatever fuel is left,
    having returned the empty object and then the classification. *)
Theorem settle_terminates c d fuel :
  classify env c = Some d ->
  let p := settle env (S fuel) c (renderPage env boot c) in
  p = renderSeq env boot [c; c] /\ pending p = false /\ shown p = [EmptyObject; d].
Proof.
  intros Hcl. pose proof Hcl as (ua & Hua & ->)%classify_Some. cbn zeta.
  change (renderSeq env boot [c; c]) with (renderPage env (renderPage env boot c) c).
  set (f1 := {| deviceHook := dispatchSetState (SetValue (Classified (getDevice ua))) (mountState EmptyObject);
                detectHook := {| eff_deps := detectDeps c; eff_destroy := None |} |}).
  set (p1 := {| fiber := Some f1; crashed := None; shown := [EmptyObject] |}).
  assert (renderPage env boot c = p1) as -> by (by rewrite renderPage_mount, Hua).
  unfold settle. rewrite rerender_step by done. fold (settle env fuel c (renderPage env p1 c)).
  rewrite (renderPage_update c p1 f1 c eq_refl eq_refl eq_refl), decide_True by done.
  rewrite settle_idle by done. split_and!; [done..|].
  cbn [shown p1 app]. unfold pendingDevice, f1; cbn [deviceHook]. by rewrite memoizedState_dispatch.
Qed.

(** C11: without [navigator] the first render that is told it runs on a
    client takes the page down: the effect throws a [ReferenceError], the
    hook's slots are gone and later renders do nothing. *)
Theorem missing_navigator_crashes cs cs' :
  navigator env = None ->
  Forall (fun c => c = false) cs ->
  let p := renderSeq env boot (cs ++ [true]) in
  crashed p = Some (ReferenceError "navigator") /\ fiber p = None /\ renderSeq env p cs' = p.
Proof.
  intros Hn Hcs. cbn zeta. rewrite renderSeq_app.
  change (renderSeq env ?q [true]) with (renderPage env q true).
  destruct (renderSeq_spec cs boot PageInv_boot eq_refl (survivable_server cs Hcs)) as [Hc _].
  destruct (renderPage_throw true _ (ReferenceError "navigator") (PageInv_renderSeq cs boot PageInv_boot) Hc)
    as [Hc' Hf']; [unfold readUserAgent; by rewrite Hn|].
  split_and!; [done..|]. induction cs' as [|c' cs' IH]; [done|].
  cbn [renderSeq foldl]. by rewrite (renderPage_crashed c' _ _ Hc').
Qed.

(** C26: the type of what the hook returns.  The hook declares that it
    returns an [IGetDevice]; the value of the first render is the empty
    object, which has none of the five flags, and every value after it,
    whatever [useIsClient] answers and whether the page survives, is an
    [IGetDevice]. *)
Theorem declared_type_after_first_render c cs :
  exists ds,
    shown (renderSeq env boot (c :: cs)) = EmptyObject :: ds /\
    hasDeclaredType EmptyObject = false /\
    Forall (fun d => hasDeclaredType d = true) ds.
Proof.
  destruct (typedAfterMount_renderSeq cs (renderPage env boot c)) as (ds & Hs & Hds & _).
  - apply PageInv_renderPage, PageInv_boot.
  - apply typedAfterMount_boot.
  - by exists ds.
Qed.

End PageFacts.

(** On a server the render runs and the commit does not: the hook
    returns the empty object, which is not of the declared type; none of
    its flags is set, [isSSR] included, and the literal ['SSR'] is never
    classified. *)
Theorem server_render_empty isClient :
  renderToString isClient = EmptyObject /\
  hasDeclaredType (renderToString isClient) = false /\
  Boolean (getField isSSR (renderToString isClient)) = false /\
  Boolean (getField isDesktop (renderToString isClient)) = false.
Proof. by split_and!. Qed.

(** A client whose first render is told it is not on a client shows the
    classification of the literal ['SSR'] for one render: [isSSR] is set
    and [isDesktop] is not, in a browser. *)
Theorem client_shows_ssr_first env n :
  navigator env = Some n ->
  shown (renderSeq env boot [false; true; true]) =
  [EmptyObject; Classified (getDevice "SSR"); Classified (getDevice (userAgent n))].
Proof.
  intros Hn. destruct (renderSeq_spec env [false; true; true] boot (PageInv_boot env) eq_refl
    (survivable_navigator env n _ Hn)) as [_ ->].
  unfold classify, readUserAgent. by rewrite Hn.
Qed.

(** Where the literal ['SSR'] is classified.  On a server the render
    runs and the commit does not, so the hook returns the empty object and
    [isSSR] reads as not set; in a browser whose first render is told it is
    not on a client the effect does run, and for one render the hook
    reports the browser as server-rendered and not as a desktop, before it
    reports the classification of the user agent. *)
Theorem ssr_reported_in_browser_not_on_server env n isClient :
  navigator env = Some n ->
  Boolean (getField isSSR (renderToString isClient)) = false /\
  exists d,
    shown (renderSeq env boot [false; true; true]) =
      [EmptyObject; Classified d; Classified (getDevice (userAgent n))] /\
    isSSR d = true /\ isDesktop d = false.
Proof.
  intros Hn. split; [done|]. exists (getDevice "SSR").
  destruct (renderSeq_spec env [false; true; true] boot (PageInv_boot env) eq_refl
    (survivable_navigator env n _ Hn)) as [_ ->].
  unfold classify, readUserAgent. by rewrite Hn.
Qed.

(** ** Theorems against the probe interface *)

Section Probes.
Context {P : Type} `{!ClientProbe P}.

Lemma answers_survivable (probe : P) env n : survivable env (answers probe env n).
Proof.
  apply Forall_fmap, Forall_forall. intros k _. simpl.
  destruct (probe_answer probe env k) eqn:Hk; [|done].
  destruct (probe_sound probe env k Hk) as [nav Hn]. unfold classify, readUserAgent. by rewrite Hn.
Qed.

(** With a sound probe the page never goes down, however often it is
    rendered, and the values returned are the empty object followed by the
    classifications for the probe's answers. *)
Theorem sound_probe_survives (probe : P) env n :
  crashed (visit probe env n) = None /\
  shown (visit probe env n) = expected env (answers probe env n).
Proof.
  unfold visit.
  by destruct (renderSeq_spec env _ boot (PageInv_boot env) eq_refl (answers_survivable probe env n))
    as [-> ->].
Qed.

End Probes.

Lemma answers_const {P : Type} `{!ClientProbe P} (probe : P) env c n :
  (forall k, probe_answer probe env k = c) -> answers probe env n = replicate n c.
Proof.
  intros Hc. unfold answers. generalize 0%nat. induction n as [|n IH]; intros k; [done|].
  simpl. by rewrite Hc, IH.
Qed.

Lemma expected_const env c d n :
  classify env c = Some d -> expected env (replicate (S n) c) = EmptyObject :: replicate n d.
Proof.
  intros Hcl. unfold expected. rewrite length_replicate. cbn [take]. f_equal.
  induction n as [|n IH]; [done|]. cbn [replicate omap list_omap] in *. rewrite Hcl in *.
  cbn [take]. by rewrite IH.
Qed.

(** Under the probe that always reports a server, every render after
    the first returns the classification of the literal ['SSR'], in a
    browser too: the user agent is never read. *)
Theorem always_server_reports_ssr env n :
  shown (visit alwaysServer env (S n)) = EmptyObject :: replicate n (Classified (getDevice "SSR")).
Proof.
  unfold visit.
  destruct (renderSeq_spec env _ boot (PageInv_boot env) eq_refl
              (answers_survivable alwaysServer env (S n))) as [_ ->].
  rewrite (answers_const alwaysServer env false) by done. by apply expected_const.
Qed.

(** Under the probe that queries the environment, in a browser, every
    render after the first returns the classification of
    [navigator.userAgent]. *)
Theorem query_environment_classifies env nav n :
  navigator env = Some nav ->
  shown (visit queryEnvironment env (S n)) =
  EmptyObject :: replicate n (Classified (getDevice (userAgent nav))).
Proof.
  intros Hn. unfold visit.
  destruct (renderSeq_spec env _ boot (PageInv_boot env) eq_refl
              (answers_survivable queryEnvironment env (S n))) as [_ ->].
  rewrite (answers_const queryEnvironment env true).
  - apply expected_const. unfold classify, readUserAgent. by rewrite Hn.
  - intros k. simpl. rewrite Hn. by apply bool_decide_eq_true.
Qed.

(** ** The theorems at work *)

Definition browser : Env :=
  {| navigator := Some {| userAgent := uaPixel |} |}.

Definition server : Env :=
  {| navigator := None |}.

Lemma device_lags_one_render_witness :
  crashed (renderSeq server boot [false; false]) = None /\
  shown (renderSeq server boot [false; false]) = expected server [false; false].
Proof. apply (device_lags_one_render server [false; false]). by repeat constructor. Defined.

Lemma device_settles_witness :
  let p := renderSeq browser boot ([false; true; false] ++ [true; true]) in
  last (shown p) = Some (Classified (getDevice uaPixel)) /\ pending p = false /\ crashed p = None.
Proof. exact (device_settles browser {| userAgent := uaPixel |} [false; true; false] eq_refl). Defined.

Lemma settle_terminates_witness :
  let p := settle browser 5 true (renderPage browser boot true) in
  p = renderSeq browser boot [true; true] /\ pending p = false /\
  shown p = [EmptyObject; Classified (getDevice uaPixel)].
Proof. exact (settle_terminates browser true (Classified (getDevice uaPixel)) 4 eq_refl). Defined.

Lemma missing_navigator_crashes_witness :
  let p := renderSeq server boot ([false; false] ++ [true]) in
  crashed p = Some (ReferenceError "navigator") /\ fiber p = None /\ renderSeq server p [true; false] = p.
Proof.
  apply (missing_navigator_crashes server [false; false] [true; false]); [done|by repeat constructor].
Defined.

Lemma client_shows_ssr_first_witness :
  shown (renderSeq browser boot [false; true; true]) =
  [EmptyObject; Classified (getDevice "SSR"); Classified (getDevice uaPixel)].
Proof. exact (client_shows_ssr_first browser {| userAgent := uaPixel |} eq_refl). Defined.

Lemma query_environment_classifies_witness :
  shown (visit queryEnvironment browser 3) =
  EmptyObject :: replicate 2 (Classified (getDevice uaPixel)).
Proof. exact (query_environment_classifies browser {| userAgent := uaPixel |} 2 eq_refl). Defined.

Lemma android_browser_reports_mobile_witness :
  let p := renderSeq browser boot ([false] ++ [true; true]) in
  head (shown p) = Some EmptyObject /\
  exists d, last (shown p) = Some (Classified d) /\
    isAndroid d = true /\ isMobile d = true /\ isDesktop d = false /\ isSSR d = false.
Proof.
  apply (android_browser_reports_mobile browser {| userAgent := uaPixel |} [false]).
  - reflexivity.
  - by apply (bool_decide_unpack _).
  - by apply (bool_decide_unpack _).
Defined.

Lemma ssr_reported_in_browser_not_on_server_witness :
  Boolean (getField isSSR (renderToString true)) = false /\
  exists d,
    shown (renderSeq browser boot [false; true; true]) =
      [EmptyObject; Classified d; Classified (getDevice uaPixel)] /\
    isSSR d = true /\ isDesktop d = false.
Proof.
  exact (ssr_reported_in_browser_not_on_server browser {| userAgent := uaPixel |} true eq_refl).
Defined.
