(* ===== verification/StrictDevice.v ===== *)
(** * StrictDevice: [useDeviceDetect] under StrictMode

    Under React's StrictMode the effect of a component that has just been
    mounted is invoked a second time.  The effect of [useDeviceDetect] has
    no cleanup, so the second invocation adds to what the first did: the
    classification is stored twice.  Both invocations read the same
    [isClient] and the same user agent, so the value stored is the same, and
    from the next render on the page is the page mounted once. *)

From stdpp Require Import strings.
From S2P Require Import Prelude JsNumber React JsString DeviceDetect DeviceHook.

Section StrictDevice.
Context (env : Env).

Implicit Types (p : Page) (f : DeviceFiber) (c : bool).

(** ** The mount under StrictMode *)

(** Render, commit, second invocation of the effect.  An exception thrown
    by an invocation takes the page down. *)
Definition strictMountPage (isClient : bool) : Page :=
  let '(state, eff, device) := useDeviceDetect None isClient in
  let (effHook, w) :=
    commitEffect (runDetect env) runNoCleanup eff {| w_device := state; w_thrown := None |} in
  match w_thrown w with
  | Some err => {| fiber := None; crashed := Some err; shown := [device] |}
  | None =>
      let (effHook', w') := remountEffect (runDetect env) runNoCleanup (e_create eff) effHook w in
      match w_thrown w' with
      | Some err => {| fiber := None; crashed := Some err; shown := [device] |}
      | None =>
          {| fiber := Some {| deviceHook := w_device w'; detectHook := effHook' |};
             crashed := None;
             shown := [device] |}
      end
  end.

(** ** Pages that render alike *)

(** The slots up to the updates queued: the state slots hold the same
    value once their queues are applied. *)
Definition same_device f1 f2 : Prop :=
  detectHook f1 = detectHook f2 /\ updateState (deviceHook f1) = updateState (deviceHook f2).

Record same_page p1 p2 : Prop := {
  same_crashed : crashed p1 = crashed p2;
  same_shown : shown p1 = shown p2;
  same_fiber : option_Forall2 same_device (fiber p1) (fiber p2);
}.

#[export] Instance same_device_equiv : Equivalence same_device.
Proof.
  split; [by intros f|by intros f1 f2 []|intros f1 f2 f3 [] []; split; congruence].
Qed.

#[export] Instance same_page_equiv : Equivalence same_page.
Proof.
  split.
  - by intros p.
  - by intros p1 p2 [].
  - intros p1 p2 p3 [] []. split; [congruence..|by etrans].
Qed.

(** A render does not see the difference. *)
Lemma renderPage_same c p1 p2 :
  same_page p1 p2 -> crashed p1 = None -> renderPage env p1 c = renderPage env p2 c.
Proof.
  intros [Hc Hs Hf] Hup. unfold renderPage, useDeviceDetect. rewrite <- Hc, Hup, Hs.
  destruct Hf as [f1 f2 [Hd Hu]|]; [|done].
  cbn [fmap option_fmap option_map useState]. by rewrite Hd, Hu.
Qed.

#[export] Instance renderPage_proper : Proper (same_page ==> eq ==> same_page) (renderPage env).
Proof.
  intros p1 p2 Hp c ? <-. destruct (crashed p1) as [err|] eqn:Hc.
  - rewrite (renderPage_crashed env c p1 err Hc), (renderPage_crashed env c p2 err); [done|].
    by rewrite <- (same_crashed _ _ Hp).
  - by rewrite (renderPage_same c p1 p2 Hp Hc).
Qed.

#[export] Instance renderSeq_proper : Proper (same_page ==> eq ==> same_page) (renderSeq env).
Proof.
  intros p1 p2 Hp cs ? <-. revert p1 p2 Hp.
  apply (foldl_simulation (renderPage env) (renderPage env) same_page).
  intros q1 q2 c Hq. by apply renderPage_proper.
Qed.

(** ** The doubled mount *)

Lemma strictMountPage_spec c :
  strictMountPage c =
  match readUserAgent env c with
  | inr ua =>
      {| fiber := Some {|
           deviceHook :=
             dispatchSetState (SetValue (Classified (getDevice ua)))
               (dispatchSetState (SetValue (Classified (getDevice ua))) (mountState EmptyObject));
           detectHook := {| eff_deps := detectDeps c; eff_destroy := None |} |};
         crashed := None;
         shown := [EmptyObject] |}
  | inl err => {| fiber := None; crashed := Some err; shown := [EmptyObject] |}
  end.
Proof.
  unfold strictMountPage, useDeviceDetect, commitEffect, remountEffect, runDetect. simpl.
  st_unfold; simpl. by destruct (readUserAgent env c).
Qed.

Lemma strictMountPage_same c : same_page (strictMountPage c) (renderPage env boot c).
Proof.
  rewrite strictMountPage_spec, (renderPage_mount env c boot) by done.
  destruct (readUserAgent env c) as [err|ua]; split; try done; constructor. by split.
Qed.

(** ** Theorems *)

(** StrictMode cannot be observed: the page whose mount is doubled returns
    what the page mounted once returns, goes down when it does, and from
    the next render on is that page. *)
Theorem strict_device_unobservable c c' cs :
  shown (strictMountPage c) = shown (renderPage env boot c) /\
  crashed (strictMountPage c) = crashed (renderPage env boot c) /\
  renderSeq env (strictMountPage c) (c' :: cs) = renderSeq env boot (c :: c' :: cs).
Proof.
  pose proof (strictMountPage_same c) as Hsame.
  split_and!; [apply Hsame..|]. cbn [renderSeq foldl]. f_equal.
  destruct (crashed (strictMountPage c)) as [err|] eqn:Hup; [|by apply renderPage_same].
  rewrite (renderPage_crashed env c' _ err Hup), (renderPage_crashed env c' _ err)
    by by rewrite <- (same_crashed _ _ Hsame).
  clear Hsame. rewrite strictMountPage_spec, (renderPage_mount env c boot) in * by done.
  by destruct (readUserAgent env c).
Qed.

(** The detection did run twice: two updates are queued where the single
    mount queues one. *)
Theorem strict_device_detects_twice c ua f :
  readUserAgent env c = inr ua ->
  fiber (strictMountPage c) = Some f ->
  queue (deviceHook f) =
    [SetValue (Classified (getDevice ua)); SetValue (Classified (getDevice ua))].
Proof. rewrite strictMountPage_spec. intros -> [= <-]. done. Qed.

End StrictDevice.

(** On a server-like environment the doubled mount shows what the single
    one shows. *)
Example strict_device_on_server :
  shown (renderSeq {| navigator := None |} (strictMountPage {| navigator := None |} false) [false]) =
  [EmptyObject; Classified (getDevice "SSR")].
Proof. by vm_compute. Qed.
