(* ===== verification/ClientPage.v ===== *)
(** * ClientPage: [useDeviceDetect] together with [useIsClient]

    [useDeviceDetect] calls [useIsClient] between its state slot and its
    effect.  [DeviceHook.v] takes the answer of that call as an input of each
    render; this file supplies it.  [useIsClient] is the usual mount flag,

      const [isClient, setClient] = useState(false);
      useEffect(() => { setClient(true); }, []);
      return isClient;

    The file useDeviceDetect.ts imports it from is not part of the sources,
    and the specification says of it only that the hook consumes its boolean
    result and re-derives the classification once the environment is
    confirmed to be a client.  The mount flag is the implementation such a
    hook usually has; the theorems of this file hold of it, those of
    [DeviceHook.v] of any sequence of answers.  The component that calls
    [useDeviceDetect] then has four slots, and its commit runs two effects:
    the mount flag's, which queues [true], and the detection.  The runtime
    renders again as long as one of the two state slots has an update
    queued.

    The composed component is related to the page of [DeviceHook.v] by a
    projection: it is that page, rendered with the answers [false], [true],
    [true], ... *)

From stdpp Require Import strings.
From S2P Require Import Prelude JsNumber React JsString DeviceDetect DeviceHook.

(** ** [useIsClient] *)

(** The effect function [() => { setClient(true); }]: it captures nothing
    that changes. *)
Inductive Mounted : Type :=
| mounted.

Record ClientFiber : Type := {
  clientHook : StateHook bool;
  mountedHook : EffectHook NoCleanup;
}.

(** The render: the slot, the effect handed to the commit, the answer. *)
Definition useIsClient (prev : option ClientFiber) : StateHook bool * Effect Mounted NoCleanup * bool :=
  let state := useState (clientHook <$> prev) false in
  let isClient := memoizedState state in
  let eff := useEffect (mountedHook <$> prev) mounted [] in
  (state, eff, isClient).

(** [setClient(true)] *)
Definition runMounted (c : Mounted) : State (StateHook bool) (option NoCleanup) :=
  fun h => (None, dispatchSetState (SetValue true) h).

Definition neverCleanup (c : NoCleanup) : State (StateHook bool) unit :=
  match c with end.

(** ** The component *)

(** The slots of [useDeviceDetect] and, between them, those of
    [useIsClient]. *)
Record HookFiber : Type := {
  deviceSlots : DeviceFiber;
  probeSlots : ClientFiber;
}.

Record ClientPage : Type := {
  slots : option HookFiber;
  down : option JsError;
  returned : list Device;
}.

Definition bootClient : ClientPage :=
  {| slots := None; down := None; returned := [] |}.

Section Client.
Context (env : Env).

(** A render followed by its commit: the effects run in the order of their
    hooks. *)
Definition renderClient (p : ClientPage) : ClientPage :=
  match down p with
  | Some _ => p
  | None =>
      let '(cstate, ceff, isClient) := useIsClient (probeSlots <$> slots p) in
      let '(state, eff, device) := useDeviceDetect (deviceSlots <$> slots p) isClient in
      let (cHook, cstate') := commitEffect runMounted neverCleanup ceff cstate in
      let (effHook, w) :=
        commitEffect (runDetect env) runNoCleanup eff {| w_device := state; w_thrown := None |} in
      match w_thrown w with
      | Some err =>
          {| slots := None; down := Some err; returned := returned p ++ [device] |}
      | None =>
          {| slots := Some {|
               deviceSlots := {| deviceHook := w_device w; detectHook := effHook |};
               probeSlots := {| clientHook := cstate'; mountedHook := cHook |} |};
             down := None;
             returned := returned p ++ [device] |}
      end
  end.

(** An update is queued on one of the two state slots. *)
Definition pendingClient (p : ClientPage) : bool :=
  match slots p with
  | Some f => queued (deviceHook (deviceSlots f)) || queued (clientHook (probeSlots f))
  | None => false
  end.

(** The runtime renders until no update is queued. *)
Definition settleClient (fuel : nat) (p : ClientPage) : ClientPage :=
  rerender pendingClient renderClient fuel p.

(** The page after [n] renders. *)
Definition rendered (n : nat) : ClientPage :=
  Nat.iter n renderClient bootClient.

End Client.

(** ** Vocabulary *)

(** The page of [DeviceHook.v] in the component. *)
Definition page_of (p : ClientPage) : Page :=
  {| fiber := deviceSlots <$> slots p; crashed := down p; shown := returned p |}.

(** What [useIsClient] answers at the next render. *)
Definition answer (p : ClientPage) : bool :=
  (useIsClient (probeSlots <$> slots p)).2.

(** The answers of the mount flag over [n] renders: [false], then [true]. *)
Definition mount_answers (n : nat) : list bool :=
  (fun k => negb (Nat.eqb k 0)) <$> seq 0 n.

(** The mount flag once its effect has run: the effect is registered with
    no dependencies, and the next render answers [true]. *)
Definition flagged (f : ClientFiber) : Prop :=
  mountedHook f = {| eff_deps := []; eff_destroy := None |} /\
  memoizedState (updateState (clientHook f)) = true.

Definition ProbeInv (n : nat) (p : ClientPage) : Prop :=
  down p = None ->
  match n with
  | O => slots p = None
  | S _ => exists f, slots p = Some f /\ flagged (probeSlots f)
  end.

(** ** One render *)

Section ClientFacts.
Context (env : Env).

Implicit Types (p : ClientPage) (f : HookFiber).

(** The component is the page, rendered with the answer of the flag. *)
Lemma renderClient_page p :
  page_of (renderClient env p) = renderPage env (page_of p) (answer p).
Proof.
  destruct p as [sl [err|] ret]; [done|].
  unfold renderClient, renderPage, answer, page_of. cbn [crashed fiber shown slots down returned].
  destruct (useIsClient (probeSlots <$> sl)) as [[cstate ceff] isClient]. cbn [snd].
  destruct (useDeviceDetect (deviceSlots <$> sl) isClient) as [[state eff] device].
  destruct (commitEffect runMounted neverCleanup ceff cstate) as [cHook cstate'].
  destruct (commitEffect (runDetect env) runNoCleanup eff _) as [effHook w].
  by destruct (w_thrown w).
Qed.

Lemma answer_boot : answer bootClient = false.
Proof. reflexivity. Qed.

Lemma answer_flagged p f : slots p = Some f -> flagged (probeSlots f) -> answer p = true.
Proof. unfold answer. intros -> [_ Hf]. exact Hf. Qed.

(** The slots of the flag after a render that keeps the page up. *)
Lemma renderClient_probe p f' :
  down p = None ->
  (forall f, slots p = Some f -> flagged (probeSlots f)) ->
  slots (renderClient env p) = Some f' ->
  flagged (probeSlots f').
Proof.
  unfold renderClient. intros -> Hp.
  destruct (slots p) as [f|] eqn:Hs; cbn [fmap option_fmap option_map].
  - destruct (Hp f eq_refl) as [Hm Ht]. unfold useIsClient. cbn [fmap option_fmap option_map].
    unfold useEffect. rewrite Hm. cbn [eff_deps eff_destroy areHookInputsEqual negb].
    destruct (useDeviceDetect _ _) as [[state eff] device].
    rewrite commitEffect_skip by done.
    destruct (commitEffect (runDetect env) runNoCleanup eff _) as [effHook w].
    destruct (w_thrown w); [done|]. intros [= <-]. split; [done|]. cbn [probeSlots clientHook].
    cbn [useState updateState memoizedState queue foldl]. exact Ht.
  - unfold useIsClient. cbn [fmap option_fmap option_map useState useEffect].
    destruct (useDeviceDetect _ _) as [[state eff] device].
    unfold commitEffect at 1. cbn [e_hasEffect e_destroy e_create e_deps commitHookEffectListUnmount].
    unfold runMounted. st_unfold.
    destruct (commitEffect (runDetect env) runNoCleanup eff _) as [effHook w].
    destruct (w_thrown w); [done|]. by intros [= <-].
Qed.

Lemma renderClient_down p err : down p = Some err -> renderClient env p = p.
Proof. unfold renderClient. by intros ->. Qed.

Lemma renderClient_slots p : down (renderClient env p) = None -> is_Some (slots (renderClient env p)).
Proof.
  unfold renderClient. destruct (down p) eqn:Hd; [by rewrite Hd|].
  destruct (useIsClient _) as [[cstate ceff] isClient].
  destruct (useDeviceDetect _ _) as [[state eff] device].
  destruct (commitEffect runMounted neverCleanup ceff cstate) as [cHook cstate'].
  destruct (commitEffect (runDetect env) runNoCleanup eff _) as [effHook w].
  by destruct (w_thrown w).
Qed.

(** ** [n] renders *)

Lemma rendered_S n : rendered env (S n) = renderClient env (rendered env n).
Proof. reflexivity. Qed.

Lemma ProbeInv_rendered n : ProbeInv n (rendered env n).
Proof.
  induction n as [|n IH]; [done|]. rewrite rendered_S. intros Hd.
  destruct (down (rendered env n)) as [err|] eqn:Hd0.
  { by rewrite (renderClient_down _ err Hd0), Hd0 in Hd. }
  destruct (renderClient_slots _ Hd) as [f' Hf']. exists f'. split; [done|].
  apply (renderClient_probe _ f' Hd0); [|done].
  intros f Hf. specialize (IH Hd0). destruct n as [|n]; [by rewrite IH in Hf|].
  destruct IH as (f0 & Hf0 & Hfl). by simplify_eq.
Qed.

Lemma answer_rendered n :
  down (rendered env n) = None -> answer (rendered env n) = negb (Nat.eqb n 0).
Proof.
  intros Hd. pose proof (ProbeInv_rendered n Hd) as Hinv. destruct n as [|n].
  - unfold answer. by rewrite Hinv.
  - destruct Hinv as (f & Hf & Hfl). by apply (answer_flagged _ f).
Qed.

Lemma mount_answers_S n : mount_answers (S n) = mount_answers n ++ [negb (Nat.eqb n 0)].
Proof. unfold mount_answers. by rewrite seq_S, fmap_app. Qed.

Lemma rendered_page n : page_of (rendered env n) = renderSeq env boot (mount_answers n).
Proof.
  induction n as [|n IH]; [done|].
  rewrite mount_answers_S, renderSeq_app, <- IH, rendered_S, renderClient_page.
  cbn [renderSeq foldl].
  destruct (down (rendered env n)) as [err|] eqn:Hd.
  - by rewrite !(renderPage_crashed env _ _ err).
  - by rewrite answer_rendered.
Qed.

(** ** Theorems *)

(** The composition.  The component that calls [useDeviceDetect] with
    the mount flag as its probe is, after any number of renders, the page of
    [DeviceHook.v] rendered with the answers [false], [true], [true], ...:
    the slots of the device hook, the exception and the values returned are
    the same. *)
Theorem client_page_refines n :
  page_of (rendered env n) = renderSeq env boot (mount_answers n).
Proof. apply rendered_page. Qed.

End ClientFacts.

(** In a browser the component settles after the mount and two more
    renders, and not earlier: the renders return the empty object, the
    classification of the literal ['SSR'], and the classification of
    [navigator.userAgent]; then no update is queued, whatever fuel is
    left. *)
Theorem client_page_settles nav fuel :
  let env := {| navigator := Some nav |} in
  (2 <= fuel)%nat ->
  settleClient env fuel (rendered env 1) = rendered env 3 /\
  pendingClient (rendered env 1) = true /\
  pendingClient (rendered env 2) = true /\
  pendingClient (rendered env 3) = false /\
  returned (rendered env 3) =
    [EmptyObject; Classified (getDevice "SSR"); Classified (getDevice (userAgent nav))].
Proof.
  intros env Hfuel. destruct fuel as [|[|[|fuel]]]; [lia..| |]; split_and!; reflexivity.
Qed.

(** Where effects run but [navigator] does not exist, the mount goes
    through and the render the mount flag causes takes the page down: the
    values returned are the empty object and the classification of ['SSR'],
    and the runtime stops there. *)
Theorem client_page_without_navigator fuel :
  let env := {| navigator := None |} in
  down (rendered env 2) = Some (ReferenceError "navigator") /\
  returned (rendered env 2) = [EmptyObject; Classified (getDevice "SSR")] /\
  settleClient env (S fuel) (rendered env 1) = rendered env 2.
Proof. intros env. destruct fuel; split_and!; reflexivity. Qed.

(** ** The theorems at work *)

Lemma client_page_settles_witness :
  let env := {| navigator := Some {| userAgent := uaPixel |} |} in
  settleClient env 7 (rendered env 1) = rendered env 3 /\
  pendingClient (rendered env 1) = true /\
  pendingClient (rendered env 2) = true /\
  pendingClient (rendered env 3) = false /\
  returned (rendered env 3) =
    [EmptyObject; Classified (getDevice "SSR"); Classified (getDevice uaPixel)].
Proof. apply (client_page_settles {| userAgent := uaPixel |} 7). lia. Defined.
