(* ===== verification/Toggle.v ===== *)
(** * Toggle: [useToggle] (src/src/useToggle.ts)

    The hook keeps one boolean in a state slot and returns it with a
    memoised function that flips it.  The flip dispatches the updater
    [oldState => !oldState]; the state changes when the host renders the
    component next, by applying every updater dispatched since the last
    render, in order.

    The component that uses the hook is a system driven by three events:
    the host renders it (with the argument the caller passes, if any), the
    caller invokes the returned function, the host unmounts it.

    The contract of the hook is a flag with a flip ([Flag]): initialised
    once, inverted by every flip, gone with its owner.  The component
    implements it ([toggle_refines]); what a render shows is the flag at the
    time of the render, and a flip makes the host render again
    ([toggle_rerenders]). *)

From S2P Require Import Prelude JsNumber React.

(** ** The hook *)

(** The default value of the parameter: [initialState = false]. *)
Definition defaultInitialState (arg : option bool) : bool :=
  match arg with
  | Some initialState => initialState
  | None => false
  end.

(** [oldState => !oldState] *)
Definition toggleUpdater (oldState : bool) : bool :=
  negb oldState.

(** The slots of the hook, in call order: the state, the memoised flip. *)
Record ToggleFiber : Type := {
  stateHook : StateHook bool;
  toggleHook : CallbackHook ref;
}.

(** [() => setState(oldState => !oldState)]: calling the function queues
    the updater on the state slot.  The function captures nothing that
    changes between renders, so every instance of it behaves alike. *)
Definition toggle (f : ToggleFiber) : ToggleFiber :=
  {| stateHook := dispatchSetState (SetUpdater toggleUpdater) (stateHook f);
     toggleHook := toggleHook f |}.

(** The render: [fresh] is the identity of the function object that this
    evaluation of the arrow function creates. *)
Definition useToggle (prev : option ToggleFiber) (initialState : option bool) (fresh : ref) : ToggleFiber :=
  {| stateHook := useState (stateHook <$> prev) (defaultInitialState initialState);
     toggleHook := useCallback (toggleHook <$> prev) fresh [] |}.

(** What the hook returns: [[state, toggle]]. *)
Definition result (f : ToggleFiber) : bool * ref :=
  (memoizedState (stateHook f), memoizedCallback (toggleHook f)).

(** ** The component as a system *)

(** The slots while the component is mounted, and the next free identity
    for a function object. *)
Record System : Type := {
  fiber : option ToggleFiber;
  nextRef : ref;
}.

Inductive event : Type :=
| Render (initialState : option bool)
| Toggle
| Unmount.

Definition initial : System :=
  {| fiber := None; nextRef := 0%nat |}.

Definition step (s : System) (e : event) : System :=
  match e with
  | Render initialState =>
      {| fiber := Some (useToggle (fiber s) initialState (nextRef s));
         nextRef := S (nextRef s) |}
  | Toggle =>
      {| fiber := toggle <$> fiber s; nextRef := nextRef s |}
  | Unmount =>
      {| fiber := None; nextRef := nextRef s |}
  end.

Definition run (s : System) (es : list event) : System :=
  foldl step s es.

(** ** Vocabulary of the specification *)

Definition isToggle (e : event) : bool :=
  match e with
  | Toggle => true
  | _ => false
  end.

Definition isUnmount (e : event) : bool :=
  match e with
  | Unmount => true
  | _ => false
  end.

(** The number of flips among the events. *)
Definition flips (es : list event) : nat :=
  countb isToggle es.

(** The value the next render will show: the state of the last render with
    the queued updaters applied. *)
Definition pendingState (f : ToggleFiber) : bool :=
  memoizedState (updateState (stateHook f)).

(** [b] flipped [n] times. *)
Definition flipped (n : nat) (b : bool) : bool :=
  if Nat.even n then b else negb b.

(** An update is queued: the host will render again. *)
Definition needsRender (s : System) : bool :=
  match fiber s with
  | Some f => queued (stateHook f)
  | None => false
  end.

(** The host renders, with the argument [a], until no update is queued. *)
Definition settle (fuel : nat) (a : option bool) (s : System) : System :=
  rerender needsRender (fun s' => step s' (Render a)) fuel s.

(** *** The contract

    The flag of the specification: absent before it is initialised and
    after its owner is destroyed. *)
Definition Flag : Type := option bool.

Inductive flag_op : Type :=
| Initialize (defaultValue : option bool)
| Flip
| Destroy.

Definition flag_apply (v : Flag) (o : flag_op) : Flag :=
  match o with
  | Initialize defaultValue =>
      match v with
      | None => Some (defaultInitialState defaultValue)
      | Some b => Some b
      end
  | Flip => negb <$> v
  | Destroy => None
  end.

Definition flag_exec (v : Flag) (os : list flag_op) : Flag :=
  foldl flag_apply v os.

(** What an event of the component is in terms of the contract, and the
    flag the component holds: the state with the queued flips applied. *)
Definition op_of (e : event) : flag_op :=
  match e with
  | Render initialState => Initialize initialState
  | Toggle => Flip
  | Unmount => Destroy
  end.

Definition flag_of (s : System) : Flag :=
  pendingState <$> fiber s.

(** ** One event at a time *)

Lemma pendingState_toggle f : pendingState (toggle f) = negb (pendingState f).
Proof. unfold pendingState, toggle; simpl. by rewrite foldl_snoc. Qed.

Lemma pendingState_render f initialState fresh :
  pendingState (useToggle (Some f) initialState fresh) = pendingState f.
Proof. reflexivity. Qed.

Lemma result_render f initialState fresh :
  result (useToggle (Some f) initialState fresh) =
  (pendingState f, memoizedCallback (toggleHook f)).
Proof. reflexivity. Qed.

Lemma result_mount initialState fresh :
  result (useToggle None initialState fresh) = (defaultInitialState initialState, fresh).
Proof. reflexivity. Qed.

Lemma flipped_S n b : flipped (S n) b = negb (flipped n b).
Proof.
  unfold flipped. rewrite Nat.even_succ, <- Nat.negb_even.
  destruct (Nat.even n); simpl; [done|]. by rewrite negb_involutive.
Qed.

Lemma flipped_S_negb n b : flipped (S n) b = flipped n (negb b).
Proof. rewrite flipped_S. unfold flipped. by destruct (Nat.even n). Qed.

(** ** While mounted *)

(** Events other than an unmount keep the component mounted, keep the
    memoised flip, and move the pending state by the flips among them. *)
Lemma run_mounted f n es :
  Forall (fun e => isUnmount e = false) es ->
  exists f',
    fiber (run {| fiber := Some f; nextRef := n |} es) = Some f' /\
    pendingState f' = flipped (flips es) (pendingState f) /\
    memoizedCallback (toggleHook f') = memoizedCallback (toggleHook f).
Proof.
  revert f n. induction es as [|e es IH]; intros f n Hes.
  - by exists f.
  - apply Forall_cons in Hes as [He Hes]. unfold flips. rewrite countb_cons.
    destruct e as [a| |]; [| |done]; simpl.
    + destruct (IH (useToggle (Some f) a n) (S n) Hes) as (f' & ? & Hp & Hc).
      rewrite pendingState_render in Hp. by exists f'.
    + destruct (IH (toggle f) n Hes) as (f' & ? & Hp & Hc). exists f'.
      split_and!; [done| |done]. rewrite Hp, pendingState_toggle. symmetry. apply flipped_S_negb.
Qed.

(** ** Theorems *)

(** The value and the function the last render returned. *)
Definition shown (s : System) : option bool :=
  (fun f => (result f).1) <$> fiber s.

Definition returned (s : System) : option ref :=
  (fun f => (result f).2) <$> fiber s.

Lemma toggle_run_app s es1 es2 : run s (es1 ++ es2) = run (run s es1) es2.
Proof. apply foldl_app. Qed.

Lemma run_from_mount init es :
  Forall (fun e => isUnmount e = false) es ->
  exists f',
    fiber (run initial (Render init :: es)) = Some f' /\
    pendingState f' = flipped (flips es) (defaultInitialState init) /\
    memoizedCallback (toggleHook f') = 0%nat.
Proof. intros Hes. apply (run_mounted (useToggle None init 0) 1 es Hes). Qed.

(** C9: the value a render shows is the initial value flipped once per call
    of the returned function since the mount, however the calls and the
    renders in between are interleaved: an even number of calls gives the
    initial value back, an odd number inverts it. *)
Theorem toggle_parity init es a :
  Forall (fun e => isUnmount e = false) es ->
  shown (run initial (Render init :: es ++ [Render a])) =
  Some (flipped (flips es) (defaultInitialState init)).
Proof.
  intros Hes. destruct (run_from_mount init es Hes) as (f' & Hf & Hp & _).
  rewrite app_comm_cons, toggle_run_app. destruct (run initial (Render init :: es)) as [fib n].
  simpl in *. subst fib. unfold shown; simpl. by rewrite <- Hp.
Qed.

(** C40: while the component stays mounted every render returns the same
    function: the one created by the first render. *)
Theorem toggle_stable init es :
  Forall (fun e => isUnmount e = false) es ->
  returned (run initial (Render init :: es)) = Some 0%nat.
Proof.
  intros Hes. destruct (run_from_mount init es Hes) as (f' & Hf & _ & Hc).
  unfold returned. rewrite Hf. simpl. by rewrite Hc.
Qed.

(** Calls made between two renders are not lost: the next render
    applies each of them, so [n] calls in a row flip the value [n] times. *)
Theorem toggle_batched init n a :
  shown (run initial (Render init :: replicate n Toggle ++ [Render a])) =
  Some (flipped n (defaultInitialState init)).
Proof.
  assert (Forall (fun e => isUnmount e = false) (replicate n Toggle)) as Hes.
  { by apply Forall_replicate. }
  destruct (run_from_mount init _ Hes) as (f' & Hf & Hp & _).
  unfold flips in Hp. rewrite countb_replicate in Hp. rewrite app_comm_cons, toggle_run_app.
  destruct (run initial (Render init :: replicate n Toggle)) as [fib k].
  simpl in *. subst fib. unfold shown; simpl. by rewrite <- Hp.
Qed.

(** A call of the returned function after the unmount changes nothing,
    and a component mounted again starts from its own initial value. *)
Theorem toggle_after_unmount s n init :
  fiber (run s (Unmount :: replicate n Toggle)) = None /\
  shown (run s (Unmount :: replicate n Toggle ++ [Render init])) = Some (defaultInitialState init).
Proof.
  assert (forall k, run {| fiber := None; nextRef := k |} (replicate n Toggle) =
    {| fiber := None; nextRef := k |}) as Hidle.
  { intros k. induction n as [|n IH]; [done|]. apply IH. }
  destruct s as [fib k]. rewrite app_comm_cons, toggle_run_app. simpl. rewrite Hidle. by split.
Qed.

(** ** The contract is implemented *)

Lemma toggle_step_refines s e : flag_of (step s e) = flag_apply (flag_of s) (op_of e).
Proof.
  destruct s as [[f|] n], e as [a| |]; unfold flag_of; simpl; try done.
  by rewrite pendingState_toggle.
Qed.

Lemma flag_of_run s es : flag_of (run s es) = flag_exec (flag_of s) (op_of <$> es).
Proof.
  unfold flag_exec. rewrite foldl_fmap.
  apply (foldl_simulation step (fun v e => flag_apply v (op_of e)) (fun s' v => flag_of s' = v)); [|done].
  intros s1 v e <-. apply toggle_step_refines.
Qed.

(** A render shows the flag, and leaves nothing queued. *)
Lemma shown_render s a :
  shown (step s (Render a)) = flag_of (step s (Render a)) /\
  needsRender (step s (Render a)) = false.
Proof. by destruct s as [[f|] n]. Qed.

(** C17: the component implements the flag of the specification.  Whatever
    the host and the caller do, in whatever order, the state of the hook
    with its queued updates applied is the flag after the corresponding
    operations: initialised by the first render and by no later one,
    inverted by each call of the returned function, gone at the unmount. *)
Theorem toggle_refines es :
  flag_of (run initial es) = flag_exec None (op_of <$> es).
Proof. apply flag_of_run. Qed.

(** C31: a flip makes the host render again, once.  While the component is
    mounted and nothing is queued, a call of the returned function queues
    an update; the render it causes shows the inverted value and queues
    nothing, so the host stops there whatever fuel is left. *)
Theorem toggle_rerenders s f a fuel :
  fiber s = Some f ->
  needsRender s = false ->
  let s' := settle (S fuel) a (step s Toggle) in
  needsRender (step s Toggle) = true /\
  s' = step (step s Toggle) (Render a) /\
  shown s' = negb <$> shown s /\
  needsRender s' = false.
Proof.
  intros Hf Hidle. destruct s as [fib n]. simpl in Hf; subst fib.
  destruct f as [[b q] cb]. unfold needsRender, queued in Hidle. simpl in Hidle.
  destruct q as [|? ?]; [|done]. cbn zeta. unfold settle.
  rewrite rerender_step by done. by rewrite rerender_idle by done.
Qed.

(** The theorems at work. *)
Lemma toggle_parity_witness :
  shown (run initial (Render (Some true) :: [Toggle; Render None; Toggle; Toggle] ++ [Render None])) =
  Some false.
Proof.
  rewrite (toggle_parity (Some true) [Toggle; Render None; Toggle; Toggle] None).
  - reflexivity.
  - by repeat constructor.
Defined.

Lemma toggle_stable_witness :
  returned (run initial (Render None :: [Toggle; Render None; Render (Some true)])) = Some 0%nat.
Proof.
  apply (toggle_stable None [Toggle; Render None; Render (Some true)]).
  by repeat constructor.
Defined.

Lemma toggle_rerenders_witness :
  let s := run initial [Render (Some true)] in
  let s' := settle 3 None (step s Toggle) in
  needsRender (step s Toggle) = true /\
  s' = step (step s Toggle) (Render None) /\
  shown s' = negb <$> shown s /\
  needsRender s' = false.
Proof.
  exact (toggle_rerenders (run initial [Render (Some true)])
           (useToggle None (Some true) 0) None 2 eq_refl eq_refl).
Defined.
