(* ===== verification/DebouncedToggle.v ===== *)
(** * DebouncedToggle: a component written with two of the hooks

    The hooks of the repository meet in the components that call them.
    The component of this file is the smallest that uses two of them
    together:

      const [state, toggle] = useToggle();
      useDebounce(toggle, delay, deps);
      return state;

    It hands the function [useToggle] returns to [useDebounce] as the
    effect.  When the timer fires the function is called, so here a call
    is not only recorded, as in [Debounce.v], but run: it queues an update
    on the state slot, and the host renders the component again.

    Two things are shown.  The two hooks stay coupled: what the component
    shows is [false] flipped once per call the debouncer has made.  And
    the debouncer, given a function whose identity never changes, is a
    one-shot timer: the flag turns on [delay] after the mount, and no
    render with other keys postpones that or makes a second call. *)

From stdpp Require Import gmap.
From S2P Require Import Prelude JsNumber React Timers Toggle Debounce Refinement Liveness OpenPage.

Section Client.
Context {T : Type} `{!TimerHost TimerCallback T}.

(** ** The component *)

(** The two hooks of the component, each with the state its file gives it,
    and the props of the last render, which the host renders with again
    when an update is queued. *)
Record App : Type := {
  timers : System T;
  flag : Toggle.System;
  props : option (number * list val);
}.

Inductive app_event : Type :=
| Draw (delay : number) (deps : list val)
| Remove
| Wait (dt : Z).

Definition app_initial : App :=
  {| timers := initial; flag := Toggle.initial; props := None |}.

(** The render: [useToggle()], then [useDebounce] with the function the
    first hook has returned, and the commit of the effect. *)
Definition draw (delay : number) (deps : list val) (a : App) : App :=
  let tf := useToggle (Toggle.fiber (flag a)) None (nextRef (flag a)) in
  {| timers := render (result tf).2 delay deps (timers a);
     flag := {| Toggle.fiber := Some tf; nextRef := S (nextRef (flag a)) |};
     props := Some (delay, deps) |}.

Definition remove (a : App) : App :=
  {| timers := unmount (timers a); flag := Toggle.step (flag a) Toggle.Unmount; props := None |}.

(** A call of the function [fn]: a flip, if [fn] is the function the hook
    returns. *)
Definition call (fn : ref) (s : Toggle.System) : Toggle.System :=
  if decide (returned s = Some fn) then Toggle.step s Toggle.Toggle else s.

(** The timers that fire call their callbacks, in firing order. *)
Definition called (fired : list (timer TimerCallback)) (s : Toggle.System) : Toggle.System :=
  foldl (fun s' t => call (invoke t).2 s') s fired.

Definition app_pending (a : App) : bool :=
  needsRender (flag a).

Definition redraw (a : App) : App :=
  match props a with
  | Some (delay, deps) => draw delay deps a
  | None => a
  end.

(** Time passes: the timers that are due fire and call their callbacks,
    and the host renders again if that has queued an update. *)
Definition wait (dt : Z) (a : App) : App :=
  let (fired, host') := advance dt (host (timers a)) in
  rerender app_pending redraw 1
    {| timers :=
         {| host := host'; fiber := fiber (timers a); calls := calls (timers a) ++ (invoke <$> fired) |};
       flag := called fired (flag a);
       props := props a |}.

Definition app_step (a : App) (e : app_event) : App :=
  match e with
  | Draw delay deps => draw delay deps a
  | Remove => remove a
  | Wait dt => wait dt a
  end.

Definition app_run (a : App) (es : list app_event) : App :=
  foldl app_step a es.

(** ** Vocabulary *)

Definition isRemove (e : app_event) : bool :=
  match e with
  | Remove => true
  | _ => false
  end.

(** Renders with the delay [d], whatever their keys, and the passing of
    time. *)
Definition steady (d : number) (es : list app_event) : Prop :=
  Forall (fun e => match e with Draw delay _ => delay = d | Remove => False | Wait _ => True end) es.

(** The passages of time among the events. *)
Definition waits (es : list app_event) : list event :=
  omap (fun e => match e with Wait dt => Some (Advance dt) | _ => None end) es.

(** *** The invariant

    While the component is mounted the two hooks are wired to one another:
    the callback the debouncer has memoised is the function the toggle
    returns, the effect is registered with the delay of the last render,
    and the flag has been flipped once per call made. *)
Record Wired (a : App) : Prop := {
  w_inv : Inv (timers a);
  w_slots : exists tf f handler d deps,
    Toggle.fiber (flag a) = Some tf /\ fiber (timers a) = Some f /\
    props a = Some (d, deps) /\ registered f handler d /\
    memoizedCallback (callbackHook f) = memoizedCallback (toggleHook tf);
  w_coupled : flag_of (flag a) = Some (flipped (length (calls (timers a))) false);
}.

(** Two components agree on what can be seen of their timers. *)
Definition same_timers (s s' : System T) : Prop :=
  host s = host s' /\ calls s = calls s'.

Implicit Types (a : App) (s : System T) (es : list app_event).

(** ** The render *)

(** The slots a render of the debouncer leaves. *)
Lemma render_registered effect delay deps s :
  Inv s ->
  exists f' handler, fiber (render effect delay deps s) = Some f' /\ registered f' handler delay /\
    memoizedCallback (callbackHook f') = nextCallback (fiber s) effect deps.
Proof.
  intros Hinv. pose proof (inv_wf s Hinv) as Hwf.
  assert (forall f, fiber s = Some f -> exists handler delay0, registered f handler delay0) as Hreg.
  { intros f Hf. pose proof (inv_fiber s Hinv) as Hown. rewrite Hf in Hown.
    destruct Hown as (handler & delay0 & ? & _). eauto. }
  destruct (rearms (fiber s) effect delay deps) eqn:Hre.
  - destruct (render_rearm_open effect delay deps s Hwf Hreg Hre) as (_ & _ & _ & _ & _ & f' & ? & ? & ?).
    eauto.
  - destruct (fiber s) as [f|] eqn:Hf; [|done]. destruct (Hreg f eq_refl) as (handler & delay0 & Hr).
    pose proof Hre as Hre'. rewrite (rearms_update _ _ _ _ _ _ Hr) in Hre'.
    apply negb_false_iff, bool_decide_eq_true in Hre' as [Hcb ->].
    destruct (render_keep_open effect delay0 deps s f handler delay0) as (_ & _ & f' & ? & ? & ?);
      [done|done|by rewrite Hf|]. exists f', handler. split_and!; [done..|congruence].
Qed.

Lemma idle_shown (t : Toggle.System) : needsRender t = false -> shown t = flag_of t.
Proof.
  destruct t as [[[[b q] cb]|] n]; [|done]. unfold needsRender, queued. simpl.
  by destruct q.
Qed.

(** A render keeps the wiring, makes no call and leaves nothing queued. *)
Lemma draw_wired delay deps a :
  Wired a ->
  Wired (draw delay deps a) /\ app_pending (draw delay deps a) = false /\
  calls (timers (draw delay deps a)) = calls (timers a).
Proof.
  intros [Hinv (tf & f & handler & d & deps0 & Htf & Hf & Hp & Hr & Hcb) Hco].
  assert (calls (timers (draw delay deps a)) = calls (timers a)) as Hc by by apply render_calls.
  split_and!; [split| |done].
  - by apply Inv_render.
  - destruct (render_registered (memoizedCallback (toggleHook tf)) delay deps (timers a) Hinv)
      as (f' & handler' & Hf' & Hr' & Hcb').
    unfold draw. rewrite Htf. cbn [timers flag props Toggle.fiber].
    eexists _, f', handler', delay, deps. split_and!; [done|exact Hf'|done|done|].
    by rewrite Hcb', Hf, <- Hcb, nextCallback_stable.
  - rewrite Hc, <- Hco. unfold draw, flag_of. by rewrite Htf.
  - unfold app_pending, draw. rewrite Htf. by destruct tf as [[b q] cb].
Qed.

(** With the delay of the last render, whatever the keys, a render leaves
    the timers alone. *)
Lemma draw_steady d deps a :
  Wired a -> fst <$> props a = Some d -> host (timers (draw d deps a)) = host (timers a).
Proof.
  intros [Hinv (tf & f & handler & d0 & deps0 & Htf & Hf & Hp & Hr & Hcb) _] Hd.
  rewrite Hp in Hd. simplify_eq/=. unfold draw. rewrite Htf.
  change (host (render (memoizedCallback (toggleHook tf)) d deps (timers a)) = host (timers a)).
  apply render_idle; [done|]. rewrite Hf, <- Hcb. by eapply rearms_stable.
Qed.

Lemma draw_props delay deps a : fst <$> props (draw delay deps a) = Some delay.
Proof. done. Qed.

(** ** The passing of time *)

Lemma wait_eq dt a :
  wait dt a =
  rerender app_pending redraw 1
    {| timers := tick dt (timers a);
       flag := called (advance dt (host (timers a))).1 (flag a);
       props := props a |}.
Proof. unfold wait. rewrite tick_eq. by destruct (advance dt (host (timers a))). Qed.

(** At most one timer fires, and it calls the function the toggle returns. *)
Lemma fired_cases dt a :
  Wired a ->
  (advance dt (host (timers a))).1 = [] \/
  exists id due fn,
    (advance dt (host (timers a))).1 = [Timer id due {| tc_callback := fn |}] /\
    returned (flag a) = Some fn.
Proof.
  intros [Hinv (tf & f & handler & d & deps & Htf & Hf & _ & _ & Hcb) _].
  pose proof (inv_wf _ Hinv) as Hwf. pose proof (inv_fiber _ Hinv) as Hown. rewrite Hf in Hown.
  destruct Hown as (handler' & d' & _ & _ & [Hv|(due & Hv & _)]).
  - left. by apply advance_none.
  - rewrite (advance_single dt _ _ _ _ Hwf Hv). case_decide; [right|by left].
    eexists _, _, _. split; [done|]. unfold returned. rewrite Htf. simpl. by rewrite Hcb.
Qed.

(** The timers fire and their callbacks run: the wiring is kept. *)
Lemma fired_wired dt a :
  Wired a ->
  Wired {| timers := tick dt (timers a);
           flag := called (advance dt (host (timers a))).1 (flag a);
           props := props a |}.
Proof.
  intros Hw. pose proof Hw as [Hinv (tf & f & handler & d & deps & Htf & Hf & Hp & Hr & Hcb) Hco].
  assert (fiber (tick dt (timers a)) = Some f) as Hf' by by rewrite tick_fiber.
  assert (calls (tick dt (timers a)) = calls (timers a) ++ (invoke <$> (advance dt (host (timers a))).1))
    as Hc by by rewrite tick_eq.
  destruct (fired_cases dt a Hw) as [E|(id & due & fn & E & Hfn)]; rewrite E in *.
  - split; cbn [timers flag props called foldl]; [by apply Inv_tick| |by rewrite Hc, app_nil_r].
    by eexists tf, f, handler, d, deps.
  - assert (called [Timer id due {| tc_callback := fn |}] (flag a) = Toggle.step (flag a) Toggle.Toggle)
      as -> by (unfold called, call; simpl; by rewrite decide_True).
    split; cbn [timers flag props]; [by apply Inv_tick| |].
    + eexists (toggle tf), f, handler, d, deps. split_and!; [|done..]. simpl. by rewrite Htf.
    + rewrite Hc, length_app, Nat.add_1_r, flipped_S, toggle_step_refines, Hco. done.
Qed.

Lemma fired_props dt a fl :
  fst <$> props {| timers := tick dt (timers a); flag := fl; props := props a |} = fst <$> props a.
Proof. done. Qed.

(** After a passage of time the component is wired, nothing is queued, and
    the timers are those of the debouncer after that passage of time. *)
Lemma wait_wired dt a d :
  Wired a -> fst <$> props a = Some d ->
  Wired (wait dt a) /\ app_pending (wait dt a) = false /\ fst <$> props (wait dt a) = Some d /\
  same_timers (timers (wait dt a)) (tick dt (timers a)).
Proof.
  intros Hw Hd. rewrite wait_eq. pose proof (fired_wired dt a Hw) as Hw'.
  set (b := {| timers := tick dt (timers a); flag := _; props := props a |}) in *.
  destruct (app_pending b) eqn:Hp.
  - rewrite rerender_step by done. cbn [rerender]. unfold redraw.
    destruct (w_slots b Hw') as (_ & _ & _ & d' & deps & _ & _ & Hb & _). rewrite Hb.
    assert (d' = d) as -> by (unfold b in Hb; cbn [props] in Hb; rewrite Hb in Hd; by simplify_eq/=).
    destruct (draw_wired d deps b Hw') as (? & ? & Hc). split_and!; [done..|].
    split; [apply (draw_steady d deps b Hw'); by rewrite Hb|exact Hc].
  - rewrite rerender_idle by done. by split_and!.
Qed.

(** ** Runs *)

Lemma same_timers_tick dt s s' : same_timers s s' -> same_timers (tick dt s) (tick dt s').
Proof. intros [Hh Hc]. rewrite !tick_eq. split; cbn [host calls]; by rewrite Hh, ?Hc. Qed.

Lemma Wired_mount d deps : Wired (draw d deps app_initial) /\ app_pending (draw d deps app_initial) = false.
Proof.
  split; [|done]. split; [apply Inv_render, Inv_initial| |].
  - destruct (render_registered 0%nat d deps initial Inv_initial) as (f' & handler & Hf' & Hr & Hcb).
    eexists _, f', handler, d, deps. split_and!; [done..|]. by rewrite Hcb.
  - unfold draw. cbn [timers flag]. by rewrite render_calls.
Qed.

(** While the component is not removed it stays wired and nothing is left
    queued. *)
Lemma Wired_run es a :
  Forall (fun e => isRemove e = false) es ->
  Wired a -> app_pending a = false -> Wired (app_run a es) /\ app_pending (app_run a es) = false.
Proof.
  revert a. induction es as [|e es IH]; intros a Hes Hw Hp; [done|].
  apply Forall_cons in Hes as [He Hes]. destruct e as [delay deps| |dt]; [|done|].
  - destruct (draw_wired delay deps a Hw) as (? & ? & _). by apply IH.
  - destruct (w_slots a Hw) as (tf & f & handler & d & deps & _ & _ & Hpr & _).
    destruct (wait_wired dt a d Hw) as (? & ? & _); [by rewrite Hpr|]. by apply IH.
Qed.

(** Under renders with one delay and the passing of time, the timers are
    those of a debouncer that is left alone. *)
Lemma steady_run d es a s :
  steady d es -> Wired a -> fst <$> props a = Some d -> same_timers (timers a) s ->
  same_timers (timers (app_run a es)) (run s (waits es)).
Proof.
  revert a s. induction es as [|e es IH]; intros a s Hes Hw Hd Hs; [done|].
  apply Forall_cons in Hes as [He Hes]. destruct e as [delay deps| |dt]; [subst delay|done|].
  - destruct (draw_wired d deps a Hw) as (Hw' & _ & Hc). apply IH; [done..|].
    destruct Hs as [Hh Hcs]. split; cbn [app_step]; [by rewrite draw_steady|congruence].
  - destruct (wait_wired dt a d Hw Hd) as (Hw' & _ & Hd' & [Hh Hc]).
    apply (IH (wait dt a) (tick dt s)); [done..|].
    destruct (same_timers_tick dt _ _ Hs) as [Hh' Hc']. split; congruence.
Qed.

Lemma steady_stays es d : steady d es -> Forall (fun e => isRemove e = false) es.
Proof. intros Hes. eapply Forall_impl; [exact Hes|]. by intros [| |]. Qed.

Lemma waits_quiet es : quiet (waits es).
Proof.
  induction es as [|[| |dt] es IH]; [constructor|done|done|]. by constructor.
Qed.

(** ** Theorems *)

(** The two hooks stay coupled.  While the component is not removed,
    whatever it is rendered with and however time passes, it shows [false]
    flipped once per call the debouncer has made, and no update is left
    queued: no call is lost and none is counted twice. *)
Theorem debounced_toggle_coupled d deps es :
  Forall (fun e => isRemove e = false) es ->
  let a := app_run app_initial (Draw d deps :: es) in
  shown (flag a) = Some (flipped (length (calls (timers a))) false) /\ app_pending a = false.
Proof.
  intros Hes. cbn zeta. destruct (Wired_mount d deps) as [Hw0 Hp0].
  change (app_run app_initial (Draw d deps :: es)) with (app_run (draw d deps app_initial) es).
  destruct (Wired_run es _ Hes Hw0 Hp0) as [Hw Hp]. split; [|done].
  rewrite idle_shown by done. apply Hw.
Qed.

(** C24: with the function of [useToggle] as its effect the debouncer is a
    one-shot timer.  The component is mounted and then rendered any number
    of times with the same delay and whatever keys, while time passes in
    any number of steps.  The flag turns on when the time passed since the
    mount reaches the delay, by the one call the debouncer makes, due at
    the mount plus the delay: no render postpones it, whatever keys it
    passes, and no render makes the debouncer call again. *)
Theorem debounced_toggle_one_shot d deps es :
  steady d es ->
  let a := app_run app_initial (Draw d deps :: es) in
  let fired := bool_decide (th_delay d <= passed (waits es) /\ waits es ≠ []) in
  calls (timers a) = (if fired then [(th_now th_init + th_delay d, 0%nat)] else []) /\
  shown (flag a) = Some fired /\
  app_pending a = false.
Proof.
  intros Hes. cbn zeta.
  destruct (debounced_toggle_coupled d deps es (steady_stays es d Hes)) as [Hs Hp].
  destruct (Wired_mount d deps) as [Hw0 _].
  destruct (steady_run d es _ (render 0%nat d deps initial) Hes Hw0 eq_refl) as [_ Hc]; [done|].
  change (app_run app_initial (Draw d deps :: es)) with (app_run (draw d deps app_initial) es) in *.
  rewrite Hs, Hc.
  change (run (render 0%nat d deps initial) (waits es)) with (run initial (Render 0%nat d deps :: waits es)).
  rewrite (registration_quiet 0%nat d deps (waits es) initial Inv_initial eq_refl (waits_quiet es)).
  split_and!; [|f_equal|done]; case_bool_decide; by rewrite ?decide_True, ?decide_False by done.
Qed.

End Client.

(** ** On the queue implementation *)

(** The keys change at 60 ms; the flag turns on at 100 ms all the same. *)
Lemma debounced_toggle_one_shot_witness :
  let a := app_run (app_initial (T := TimerQueue.host TimerCallback))
             (Draw 100 [VNum 1] :: [Wait 60; Draw 100 [VNum 2]; Wait 60]) in
  calls (timers a) = [(100, 0%nat)] /\ shown (flag a) = Some true /\ app_pending a = false.
Proof.
  exact (debounced_toggle_one_shot (T := TimerQueue.host TimerCallback) 100 [VNum 1]
           [Wait 60; Draw 100 [VNum 2]; Wait 60] ltac:(by repeat constructor)).
Defined.

(** A debouncer that is given a new function with the new keys starts
    over, as a debouncer should. *)
Example fresh_function_starts_over :
  calls (run (initial (H := TimerQueue.host TimerCallback))
           [Render 0 100 [VNum 1]; Advance 60; Render 1 100 [VNum 2]; Advance 60]) = [] /\
  calls (run (initial (H := TimerQueue.host TimerCallback))
           [Render 0 100 [VNum 1]; Advance 60; Render 1 100 [VNum 2]; Advance 60; Advance 40]) =
    [(160, 1%nat)].
Proof. by vm_compute. Qed.

(** The flag, flipped by hand in between, is flipped back by the timer. *)
Example coupled_on_queue :
  let a := app_run (app_initial (T := TimerQueue.host TimerCallback))
             [Draw 100 [VNum 1]; Wait 60; Draw 50 [VNum 1]; Wait 50; Draw 20 []; Wait 30] in
  calls (timers a) = [(110, 0%nat); (130, 0%nat)] /\ shown (flag a) = Some false.
Proof. by vm_compute. Qed.
